(** * The plant-configuration store of [api/app.py]

    A shallow embedding of the Flask handlers that persist L-system plant
    configurations in one SQLite table, and of the command-line importer of
    [api/migrate.py], with the properties of their create-or-replace,
    partial-update, bulk-import, listing, reading and deleting protocols.

    - A request body is the Python object [request.get_json()] returns: a
      [json] value.  The handlers are untyped, so the operations they apply
      to it ([not data], [field in data], [data[k]], [data.get(k, d)]) are
      modelled on every JSON value, with the exception Python raises where it
      raises one.
    - The table is a list of rows in rowid order together with the
      AUTOINCREMENT counter.  A row maps column names to SQLite values, as
      [sqlite3.Row] does.  A cell holds what its column makes of the value
      that was bound to the statement: a REAL column stores an integer as
      the nearest float and an INTEGER column a float without a fraction as
      the integer.  The conversions between text and numbers (a number
      written to a TEXT column, a text that reads as a number written to a
      numeric one) are not modelled, and the statements that depend on what
      a cell holds ask for values of the kind of their column.  The
      exhaustion of the 64-bit rowids is not modelled either.
    - [time.time()] is an input of a handler: the reading in milliseconds.
    - A handler maps the store before the request to its response and the
      store after it; what a closed connection had not committed is lost.

    The file has the model first (Python values, the SQLite statements, the
    handlers, the routes and the importer), then the vocabulary of the
    statements and sample data, then the facts about the engine and the
    handlers, then the claims, each with its counterexample and witness
    where it has one, and last the further properties of the handlers and
    of sequences of requests. *)

From Stdlib Require Import ZArith QArith String Ascii List Bool Lia.
From Stdlib Require Import Floats.SpecFloat.
From Stdlib Require Import Sorting.Permutation Sorting.Sorted.
From stdpp Require Import base option gmap strings.
Import ListNotations.

#[local] Set Warnings "-register-all".
#[local] Open Scope Z_scope.

(** ** Python values and exceptions *)

(** The result of [json.loads]: [JInt] is a Python [int], [JReal] a finite
    Python [float], kept as the number it denotes (the handlers never
    compute with it, and the two zeros are one number), [JNaN] the float
    the parser makes of [NaN]; the infinities, which the parser also
    accepts and which pass through the handlers as any other float, are
    left out. A [str] is held as the bytes of its UTF-8 form, a lone
    surrogate, which has none, as the three bytes of its code point. *)
Inductive json :=
| JNull
| JBool (b : bool)
| JInt (z : Z)
| JReal (q : Q)
| JNaN
| JStr (s : string)
| JArr (l : list json)
| JObj (m : gmap string json).

(** Constraints of the [plants] table that a statement can violate. *)
Inductive constraint :=
| NotNull (column : string)
| Unique (column : string).

(** The exceptions the handlers can meet. [InterfaceError] is the driver's
    refusal to bind a value of an unsupported type, [UnicodeEncodeError]
    its failure to encode a string with a lone surrogate. *)
Inductive exn :=
| TypeError
| AttributeError
| KeyError (key : string)
| OverflowError
| InterfaceError
| UnicodeEncodeError
| IntegrityError (c : constraint).

Definition result (A : Type) : Type := exn + A.

Definition try {A B : Type} (m : result A) (k : A -> result B) : result B :=
  match m with
  | inl e => inl e
  | inr a => k a
  end.

Notation "'let*' x ':=' m 'in' k" := (try m (fun x => k))
  (at level 10, x pattern, m at level 100, k at level 200).

(** [bool(v)] *)
Definition truthy (v : json) : bool :=
  match v with
  | JNull => false
  | JBool b => b
  | JInt z => negb (z =? 0)
  | JReal q => negb (Qeq_bool q 0)
  | JNaN => true
  | JStr s => negb (String.eqb s "")
  | JArr l => match l with [] => false | _ :: _ => true end
  | JObj m => negb (bool_decide (m = ∅))
  end.

(** [k in s] for two strings: [k] occurs in [s]. *)
Fixpoint is_substring (k s : string) : bool :=
  String.prefix k s ||
  match s with
  | EmptyString => false
  | String _ rest => is_substring k rest
  end.

(** [k in v] *)
Definition contains (k : string) (v : json) : result bool :=
  match v with
  | JObj m => inr (bool_decide (is_Some (m !! k)))
  | JArr l => inr (existsb (fun x => match x with
                                     | JStr s => String.eqb s k
                                     | _ => false
                                     end) l)
  | JStr s => inr (is_substring k s)
  | JNull | JBool _ | JInt _ | JReal _ | JNaN => inl TypeError
  end.

(** [v[k]] for a string [k] *)
Definition getitem (v : json) (k : string) : result json :=
  match v with
  | JObj m => match m !! k with
              | Some x => inr x
              | None => inl (KeyError k)
              end
  | _ => inl TypeError
  end.

(** The entry of [k] in a dict; any other value has no [get] attribute. *)
Definition entry (v : json) (k : string) : result (option json) :=
  match v with
  | JObj m => inr (m !! k)
  | _ => inl AttributeError
  end.

(** [v.get(k, d)] *)
Definition get (v : json) (k : string) (d : json) : result json :=
  let* e := entry v k in inr (default d e).

(** [v is None] *)
Definition is_none (v : json) : bool :=
  match v with
  | JNull => true
  | _ => false
  end.

(** ** SQLite values, rows and the table *)

Inductive sqlval :=
| SNull
| SInt (z : Z)
| SReal (q : Q)
| SText (s : string).

(** A statement parameter: a Python object taken from the request body or
    from the digits of the route, an integer taken to fit the 64 bits of an
    SQLite integer (a clock reading, the id [update_plant] looks up), or a
    string of the route, which Werkzeug decoded from the bytes of the URL
    and which has no lone surrogate. *)
Inductive param :=
| Py (v : json)
| Int64 (z : Z)
| Text (s : string).

Abbreviation row := (gmap string sqlval).

(** [plant[c]] on a fetched row *)
Definition cell (r : row) (c : string) : sqlval := default SNull (r !! c).

Record database := {
  plants : list row;     (* the table, in rowid order *)
  sequence : Z           (* the largest rowid ever given out *)
}.

(** The affinity of a column, as its declared type gives it. *)
Inductive affinity :=
| TEXT
| INTEGER
| REAL.

(** The columns of [CREATE TABLE plants] after [id], with their declared
    type, NOT NULL flag and DEFAULT clause. *)
Record column := {
  col_name : string;
  col_type : affinity;
  col_not_null : bool;
  col_default : option sqlval
}.

Definition plants_schema : list column := [
  {| col_name := "name"; col_type := TEXT;
     col_not_null := true; col_default := None |};
  {| col_name := "timestamp"; col_type := INTEGER;
     col_not_null := true; col_default := None |};
  {| col_name := "axiom"; col_type := TEXT;
     col_not_null := true; col_default := None |};
  {| col_name := "rules"; col_type := TEXT;
     col_not_null := true; col_default := None |};
  {| col_name := "iterations"; col_type := INTEGER;
     col_not_null := true; col_default := None |};
  {| col_name := "angle"; col_type := REAL;
     col_not_null := true; col_default := None |};
  {| col_name := "angle_variation"; col_type := REAL;
     col_not_null := false;
     col_default := Some (SInt 0) |};
  {| col_name := "length_variation"; col_type := REAL;
     col_not_null := false;
     col_default := Some (SInt 0) |};
  {| col_name := "length_tapering"; col_type := REAL;
     col_not_null := false;
     col_default := Some (SReal 1.0) |};
  {| col_name := "leaf_probability"; col_type := REAL;
     col_not_null := false;
     col_default := Some (SInt 0) |};
  {| col_name := "leaf_generation_threshold"; col_type := INTEGER;
     col_not_null := false;
     col_default := Some (SInt 0) |};
  {| col_name := "length"; col_type := REAL;
     col_not_null := false;
     col_default := Some (SReal 1.0) |};
  {| col_name := "thickness"; col_type := REAL;
     col_not_null := false;
     col_default := Some (SReal 0.1) |};
  {| col_name := "tapering"; col_type := REAL;
     col_not_null := false;
     col_default := Some (SReal 0.8) |}
].

Definition not_null_columns : list string :=
  map col_name (List.filter col_not_null plants_schema).

(** The column of the schema with the name [c]. *)
Definition column_of (c : string) : option column :=
  List.find (fun d => String.eqb (col_name d) c) plants_schema.

Module Sqlite.

Definition int64 (z : Z) : bool := (- 2 ^ 63 <=? z) && (z <? 2 ^ 63).

(** The string has no lone surrogate: no byte [ED] is followed by a byte
    from [A0] on. *)
Fixpoint encodable (s : string) : bool :=
  match s with
  | String a (String b _ as rest) =>
      negb ((N_of_ascii a =? 237)%N && (160 <=? N_of_ascii b)%N)
      && encodable rest
  | _ => true
  end.

(** Binding a parameter: [None] is NULL, a [bool] is an integer, an [int]
    must fit 64 bits, a NaN is NULL, a string must encode as UTF-8, a list
    or dict is refused. *)
Definition bind (p : param) : result sqlval :=
  match p with
  | Int64 z => inr (SInt z)
  | Text s => inr (SText s)
  | Py JNull => inr SNull
  | Py (JBool b) => inr (SInt (if b then 1 else 0))
  | Py (JInt z) => if int64 z then inr (SInt z) else inl OverflowError
  | Py (JReal q) => inr (SReal q)
  | Py JNaN => inr SNull
  | Py (JStr s) => if encodable s then inr (SText s)
                   else inl UnicodeEncodeError
  | Py (JArr _) | Py (JObj _) => inl InterfaceError
  end.

#[global] Arguments bind : simpl never.

Fixpoint bind_all (ps : list param) : result (list sqlval) :=
  match ps with
  | [] => inr []
  | p :: rest =>
      let* v := bind p in
      let* vs := bind_all rest in
      inr (v :: vs)
  end.

(** The order of values: NULL first, then numbers by numeric value, then
    text bytewise. *)
Definition compare (a b : sqlval) : comparison :=
  match a, b with
  | SNull, SNull => Eq
  | SNull, _ => Lt
  | _, SNull => Gt
  | SText s, SText t => String.compare s t
  | SText _, _ => Gt
  | _, SText _ => Lt
  | SInt x, SInt y => Z.compare x y
  | SInt x, SReal y => Qcompare (inject_Z x) y
  | SReal x, SInt y => Qcompare x (inject_Z y)
  | SReal x, SReal y => Qcompare x y
  end.

(** [a] is not below [b]: the order ORDER BY ... DESC lists them in. *)
Definition not_below (a b : sqlval) : Prop := compare a b <> Lt.

(** [a = b] in a WHERE clause or a UNIQUE index: never true of NULL. The
    values are compared as they are: the TEXT affinity that a comparison
    with the column [name] gives a number is one of the conversions between
    text and numbers, which are left out. *)
Definition eqb (a b : sqlval) : bool :=
  match a, b with
  | SNull, _ | _, SNull => false
  | _, _ => match compare a b with
            | Eq => true
            | _ => false
            end
  end.

Definition is_null (v : sqlval) : bool :=
  match v with
  | SNull => true
  | _ => false
  end.

(** [COALESCE(p, old)] *)
Definition coalesce (p old : sqlval) : sqlval :=
  match p with
  | SNull => old
  | _ => p
  end.

(** The integer a float holds for the integer [z]: [z] rounded to the 53
    bits of a double, ties to even, and zero for zero. An integer that was
    bound fits 64 bits and is within the range of a double. *)
Definition nearest_double (z : Z) : Z :=
  match SpecFloat.binary_normalize 53 1024 z 0 false with
  | SpecFloat.S754_finite negative m e =>
      let magnitude := Z.shiftl (Z.pos m) e in
      if negative then - magnitude else magnitude
  | _ => 0
  end.

(** The integer the float [q] denotes, if it has no fraction. *)
Definition integral (q : Q) : option Z :=
  if Z.rem (Qnum q) (Z.pos (Qden q)) =? 0
  then Some (Z.quot (Qnum q) (Z.pos (Qden q)))
  else None.

(** What a column of affinity [a] stores of the value [v]: a REAL column
    makes a float of an integer; an INTEGER column makes an integer of a
    float that has no fraction and lies strictly between the least and the
    greatest 64-bit integer. The conversions between text and numbers are
    left out: such a value is kept as it is. *)
Definition convert (a : affinity) (v : sqlval) : sqlval :=
  match a, v with
  | REAL, SInt z => SReal (inject_Z (nearest_double z))
  | INTEGER, SReal q =>
      match integral q with
      | Some z => if (- 2 ^ 63 <? z) && (z <? 2 ^ 63 - 1) then SInt z else v
      | None => v
      end
  | _, _ => v
  end.

(** What the column [c] of the table stores of [v]. *)
Definition stored (c : string) (v : sqlval) : sqlval :=
  match column_of c with
  | Some d => convert (col_type d) v
  | None => v
  end.

(** [v] is of the kind of a column of affinity [a], so that [convert]
    covers what the column makes of it: NULL, text for a TEXT column, a
    number for a numeric one. *)
Definition of_kind (a : affinity) (v : sqlval) : bool :=
  match a, v with
  | _, SNull => true
  | TEXT, SText _ => true
  | (INTEGER | REAL), (SInt _ | SReal _) => true
  | _, _ => false
  end.

Definition fits (c : string) (v : sqlval) : bool :=
  match column_of c with
  | Some d => of_kind (col_type d) v
  | None => true
  end.

(** The first NOT NULL column of the schema that row [r] leaves NULL. *)
Definition not_null_violation (r : row) : option string :=
  List.find (fun c => is_null (cell r c)) not_null_columns.

(** A row of [rows] carries the name of the new row [r]. *)
Definition name_taken (r : row) (rows : list row) : bool :=
  existsb (fun r' => eqb (cell r' "name") (cell r "name")) rows.

(** A row of [rows] other than [r] itself carries the name of [r]. *)
Definition name_clash (r : row) (rows : list row) : bool :=
  existsb (fun r' => negb (eqb (cell r' "id") (cell r "id"))
                     && eqb (cell r' "name") (cell r "name")) rows.

(** The row an INSERT without values would make: every DEFAULT, as its
    column stores it. *)
Definition default_row : row :=
  list_to_map
    (omap (fun d => pair (col_name d) <$>
                      (convert (col_type d) <$> col_default d))
       plants_schema).

(** The row an INSERT makes of the values it was given: each column stores
    its value. *)
Definition new_row (rowid : Z) (columns : list string)
    (values : list sqlval) : row :=
  <["id" := SInt rowid]>
    (list_to_map (zip_with (fun c v => (c, stored c v)) columns values)
     ∪ default_row).

(** [INSERT INTO plants (columns) VALUES (?, ..., ?)] *)
Definition insert (columns : list string) (params : list param)
    (db : database) : result database :=
  let* values := bind_all params in
  let rowid := sequence db + 1 in
  let r := new_row rowid columns values in
  match not_null_violation r with
  | Some c => inl (IntegrityError (NotNull c))
  | None =>
      if name_taken r (plants db)
      then inl (IntegrityError (Unique "name"))
      else inr {| plants := plants db ++ [r]; sequence := rowid |}
  end.

(** The right-hand side of an assignment of a SET clause. *)
Inductive expr :=
| Param (p : param)                      (* [c = ?] *)
| Coalesce (p : param) (c : string).     (* [c = COALESCE(?, c)] *)

Inductive condition :=
| NameIs (p : param)                     (* [WHERE name = ?] *)
| IdIs (p : param).                      (* [WHERE id = ?] *)

(** The value the column [c] stores for the expression [e] on a row. *)
Definition bind_expr (c : string) (e : expr) : result (row -> sqlval) :=
  match e with
  | Param p => let* v := bind p in inr (fun _ => stored c v)
  | Coalesce p c' =>
      let* v := bind p in inr (fun r => stored c (coalesce v (cell r c')))
  end.

Fixpoint bind_set (set : list (string * expr))
    : result (list (string * (row -> sqlval))) :=
  match set with
  | [] => inr []
  | (c, e) :: rest =>
      let* f := bind_expr c e in
      let* fs := bind_set rest in
      inr ((c, f) :: fs)
  end.

Definition bind_condition (w : condition) : result (row -> bool) :=
  match w with
  | NameIs p => let* v := bind p in inr (fun r => eqb (cell r "name") v)
  | IdIs p => let* v := bind p in inr (fun r => eqb (cell r "id") v)
  end.

(** The row after the assignments, each evaluated on the row before. *)
Definition assign (set : list (string * (row -> sqlval))) (r : row) : row :=
  foldr (fun ce acc => <[ce.1 := ce.2 r]> acc) r set.

(** [UPDATE plants SET set WHERE w]: NOT NULL is checked on the rows
    written, and the UNIQUE index on [name] when [name] is assigned. *)
Definition update (set : list (string * expr)) (w : condition)
    (db : database) : result database :=
  let* fs := bind_set set in
  let* matches := bind_condition w in
  let written := map (assign fs) (List.filter matches (plants db)) in
  let rows := map (fun r => if matches r then assign fs r else r) (plants db) in
  match omap not_null_violation written with
  | c :: _ => inl (IntegrityError (NotNull c))
  | [] =>
      if existsb (String.eqb "name") (map fst set)
         && existsb (fun r => name_clash r rows) written
      then inl (IntegrityError (Unique "name"))
      else inr {| plants := rows; sequence := sequence db |}
  end.

(** [SELECT * FROM plants WHERE w], in rowid order *)
Definition select (w : condition) (db : database) : result (list row) :=
  let* matches := bind_condition w in
  inr (List.filter matches (plants db)).

(** [ORDER BY timestamp DESC]; rows with equal timestamps, whose order
    SQL leaves open, stay in the order they had. *)
Fixpoint place (r : row) (sorted : list row) : list row :=
  match sorted with
  | [] => [r]
  | x :: rest =>
      match compare (cell x "timestamp") (cell r "timestamp") with
      | Gt => x :: place r rest
      | _ => r :: x :: rest
      end
  end.

Definition order_by_timestamp_desc (rows : list row) : list row :=
  foldr place [] rows.

(** The relation ORDER BY timestamp DESC establishes between a row and
    every row listed after it. *)
Definition newer_first (a b : row) : Prop :=
  not_below (cell a "timestamp") (cell b "timestamp").

(** [cursor.fetchone()] *)
Definition fetchone (rows : list row) : option row := head rows.

(** [DELETE FROM plants WHERE w]; the AUTOINCREMENT counter stays. *)
Definition delete_from (w : condition) (db : database) : result database :=
  let* matches := bind_condition w in
  inr {| plants := List.filter (fun r => negb (matches r)) (plants db);
         sequence := sequence db |}.

End Sqlite.

(** The DEFAULT of a column of the schema, as the column stores it ([SNull]
    where it has none). *)
Definition declared_default (c : string) : sqlval :=
  match column_of c with
  | Some d => default SNull (Sqlite.convert (col_type d) <$> col_default d)
  | None => SNull
  end.

(** ** Responses *)

(** One entry of the error list of the bulk import: the f-string it is
    built from, with the values interpolated in it. *)
Inductive import_error :=
| MissingFields (name : json)
    (* f"Missing required fields in plant: {name}" *)
| AlreadyExists (name : json)
    (* f"Plant '{name}' already exists, skipped" *)
| ProcessingError (name : json) (e : exn).
    (* f"Error processing plant {name}: {str(e)}" *)

Inductive response :=
| Resp (status : Z) (body : json)
    (* [jsonify(body), status] *)
| Report (migrated_count : Z) (errors : list import_error)
    (* 200 with [{"message": ..., "migrated_count": ..., "errors": ...}] *)
| Failed (e : exn).
    (* the outer handler: [jsonify({"error": str(e)}), 500] *)

Definition status (r : response) : Z :=
  match r with
  | Resp s _ => s
  | Report _ _ => 200
  | Failed _ => 500
  end.

(** [{"error": msg}] *)
Definition error (msg : string) : json := JObj {["error" := JStr msg]}.

Definition to_json (v : sqlval) : json :=
  match v with
  | SNull => JNull
  | SInt z => JInt z
  | SReal q => JReal q
  | SText s => JStr s
  end.

(** The dict every handler builds from a fetched row. *)
Definition plant_json (plant : row) : json :=
  JObj (list_to_map [
    ("id", to_json (cell plant "id"));
    ("name", to_json (cell plant "name"));
    ("timestamp", to_json (cell plant "timestamp"));
    ("axiom", to_json (cell plant "axiom"));
    ("rules", to_json (cell plant "rules"));
    ("iterations", to_json (cell plant "iterations"));
    ("angle", to_json (cell plant "angle"));
    ("angleVariation", to_json (cell plant "angle_variation"));
    ("lengthVariation", to_json (cell plant "length_variation"));
    ("lengthTapering", to_json (cell plant "length_tapering"));
    ("leafProbability", to_json (cell plant "leaf_probability"));
    ("leafGenerationThreshold", to_json (cell plant "leaf_generation_threshold"));
    ("length", to_json (cell plant "length"));
    ("thickness", to_json (cell plant "thickness"));
    ("tapering", to_json (cell plant "tapering"))
  ]).

(** [plant = cursor.fetchone()], then the dict of [plant]: subscripting
    [None] raises. *)
Definition respond (code : Z) (plant : option row) : response :=
  match plant with
  | Some p => Resp code (plant_json p)
  | None => Failed TypeError
  end.

(** ** The handlers *)

Definition required_fields : list string :=
  ["name"; "axiom"; "rules"; "iterations"; "angle"].

(** The columns named by the INSERT statements, in their order. *)
Definition insert_columns : list string :=
  ["name"; "timestamp"; "axiom"; "rules"; "iterations"; "angle";
   "angle_variation"; "length_variation"; "length_tapering";
   "leaf_probability"; "leaf_generation_threshold";
   "length"; "thickness"; "tapering"].

(** [get_plants]: GET /api/plants *)
Definition get_plants (db : database) : response :=
  Resp 200 (JArr (map plant_json (Sqlite.order_by_timestamp_desc (plants db)))).

(** The loop over [required_fields] of [create_plant]: the first field
    that is not [in data]. *)
Fixpoint first_missing (fields : list string) (data : json)
    : result (option string) :=
  match fields with
  | [] => inr None
  | field :: rest =>
      let* present := contains field data in
      if present then first_missing rest data else inr (Some field)
  end.

(** The values of the columns after [timestamp] that [create_plant] passes
    to both of its statements. *)
Definition create_values (data : json) : result (list (string * param)) :=
  let* axiom := getitem data "axiom" in
  let* rules := getitem data "rules" in
  let* iterations := getitem data "iterations" in
  let* angle := getitem data "angle" in
  let* angle_variation := get data "angleVariation" (JInt 0) in
  let* length_variation := get data "lengthVariation" (JInt 0) in
  let* length_tapering := get data "lengthTapering" (JReal 1.0) in
  let* leaf_probability := get data "leafProbability" (JInt 0) in
  let* leaf_generation_threshold := get data "leafGenerationThreshold" (JInt 0) in
  let* length := get data "length" (JReal 1.0) in
  let* thickness := get data "thickness" (JReal 0.1) in
  let* tapering := get data "tapering" (JReal 0.8) in
  inr [("axiom", Py axiom); ("rules", Py rules);
       ("iterations", Py iterations); ("angle", Py angle);
       ("angle_variation", Py angle_variation);
       ("length_variation", Py length_variation);
       ("length_tapering", Py length_tapering);
       ("leaf_probability", Py leaf_probability);
       ("leaf_generation_threshold", Py leaf_generation_threshold);
       ("length", Py length); ("thickness", Py thickness);
       ("tapering", Py tapering)].

(** The statement of the [try] block of [create_plant]. *)
Definition create_insert (timestamp : Z) (data : json) (db : database)
    : result database :=
  let* name := getitem data "name" in
  let* values := create_values data in
  Sqlite.insert insert_columns
    (Py name :: Int64 timestamp :: map snd values) db.

(** The statement of its [except sqlite3.IntegrityError] block. *)
Definition create_update (timestamp : Z) (data : json) (db : database)
    : result database :=
  let* values := create_values data in
  let* name := getitem data "name" in
  Sqlite.update
    (("timestamp", Sqlite.Param (Int64 timestamp))
       :: map (fun cv => (cv.1, Sqlite.Param cv.2)) values)
    (Sqlite.NameIs (Py name)) db.

(** [SELECT * FROM plants WHERE name = ?] with [data["name"]], then
    [fetchone]; [latest] adds [ORDER BY timestamp DESC LIMIT 1]. *)
Definition fetch_by_name (latest : bool) (data : json) (db : database)
    : result (option row) :=
  let* name := getitem data "name" in
  let* rows := Sqlite.select (Sqlite.NameIs (Py name)) db in
  inr (Sqlite.fetchone
         (if latest then Sqlite.order_by_timestamp_desc rows else rows)).

(** What a handler answers after its commit: the store is [db]. *)
Definition after_commit (code : Z) (plant : result (option row))
    (db : database) : response * database :=
  match plant with
  | inl e => (Failed e, db)
  | inr p => (respond code p, db)
  end.

(** [create_plant]: POST /api/plants; [now] is [int(time.time() * 1000)]. *)
Definition create_plant (now : Z) (data : json) (db : database)
    : response * database :=
  if negb (truthy data) then (Resp 400 (error "No JSON data provided"), db)
  else
    match first_missing required_fields data with
    | inl e => (Failed e, db)
    | inr (Some field) =>
        (Resp 400 (error ("Missing required field: " +:+ field)), db)
    | inr None =>
        let timestamp := now in
        match create_insert timestamp data db with
        | inr db1 => after_commit 201 (fetch_by_name true data db1) db1
        | inl (IntegrityError _) =>
            (* Plant name already exists, update instead *)
            match create_update timestamp data db with
            | inr db1 => after_commit 200 (fetch_by_name false data db1) db1
            | inl e => (Failed e, db)
            end
        | inl e => (Failed e, db)
        end
    end.

(** The SET clause of [update_plant]: every column but [timestamp] keeps
    its value where the parameter is NULL. *)
Definition update_set (timestamp : Z) (data : json)
    : result (list (string * Sqlite.expr)) :=
  let* name := get data "name" JNull in
  let* axiom := get data "axiom" JNull in
  let* rules := get data "rules" JNull in
  let* iterations := get data "iterations" JNull in
  let* angle := get data "angle" JNull in
  let* angle_variation := get data "angleVariation" JNull in
  let* length_variation := get data "lengthVariation" JNull in
  let* length_tapering := get data "lengthTapering" JNull in
  let* leaf_probability := get data "leafProbability" JNull in
  let* leaf_generation_threshold := get data "leafGenerationThreshold" JNull in
  let* length := get data "length" JNull in
  let* thickness := get data "thickness" JNull in
  let* tapering := get data "tapering" JNull in
  inr [("name", Sqlite.Coalesce (Py name) "name");
       ("timestamp", Sqlite.Param (Int64 timestamp));
       ("axiom", Sqlite.Coalesce (Py axiom) "axiom");
       ("rules", Sqlite.Coalesce (Py rules) "rules");
       ("iterations", Sqlite.Coalesce (Py iterations) "iterations");
       ("angle", Sqlite.Coalesce (Py angle) "angle");
       ("angle_variation", Sqlite.Coalesce (Py angle_variation) "angle_variation");
       ("length_variation", Sqlite.Coalesce (Py length_variation) "length_variation");
       ("length_tapering", Sqlite.Coalesce (Py length_tapering) "length_tapering");
       ("leaf_probability", Sqlite.Coalesce (Py leaf_probability) "leaf_probability");
       ("leaf_generation_threshold",
        Sqlite.Coalesce (Py leaf_generation_threshold) "leaf_generation_threshold");
       ("length", Sqlite.Coalesce (Py length) "length");
       ("thickness", Sqlite.Coalesce (Py thickness) "thickness");
       ("tapering", Sqlite.Coalesce (Py tapering) "tapering")].

(** [SELECT ... FROM plants WHERE id = ?], then [fetchone], for an id taken
    to fit 64 bits, as every id of the table does; an id of the route
    beyond them, on which the driver raises [OverflowError] as in
    [fetch_by_route_id], is left out of [update_plant]. *)
Definition fetch_by_id (plant_id : Z) (db : database) : result (option row) :=
  let* rows := Sqlite.select (Sqlite.IdIs (Int64 plant_id)) db in
  inr (Sqlite.fetchone rows).

(** [update_plant]: PUT /api/plants/<plant_id> *)
Definition update_plant (now : Z) (plant_id : Z) (data : json) (db : database)
    : response * database :=
  if negb (truthy data) then (Resp 400 (error "No JSON data provided"), db)
  else
    let timestamp := now in
    match fetch_by_id plant_id db with
    | inl e => (Failed e, db)
    | inr None => (Resp 404 (error "Plant not found"), db)
    | inr (Some _) =>
        match (let* set := update_set timestamp data in
               Sqlite.update set (Sqlite.IdIs (Int64 plant_id)) db) with
        | inl e => (Failed e, db)
        | inr db1 => after_commit 200 (fetch_by_id plant_id db1) db1
        end
    end.

(** The state of the loop of the bulk import: the connection with what it
    has written and not yet committed, and the two accumulators. *)
Record progress := {
  conn : database;
  migrated_count : Z;
  errors : list import_error
}.

Definition record_error (st : progress) (e : import_error) : progress :=
  {| conn := conn st;
     migrated_count := migrated_count st;
     errors := errors st ++ [e] |}.

(** "Map localStorage format to API format": the dict [mapped_data]. *)
Definition mapped_data (plant_data : json) : result json :=
  let* name := get plant_data "name" JNull in
  let* axiom := get plant_data "axiom" JNull in
  let* rules := get plant_data "rules" JNull in
  let* iterations := get plant_data "iterations" JNull in
  let* angle := get plant_data "angle" JNull in
  let* angle_variation := get plant_data "angleVariation" (JInt 0) in
  let* length_variation := get plant_data "lengthVariation" (JInt 0) in
  let* length_tapering := get plant_data "lengthTapering" (JReal 1.0) in
  let* leaf_probability := get plant_data "leafProbability" (JInt 0) in
  let* leaf_generation_threshold := get plant_data "leafThreshold" (JInt 0) in
  let* length := get plant_data "length" (JReal 1.0) in
  let* thickness := get plant_data "thickness" (JReal 0.1) in
  let* tapering := get plant_data "tapering" (JReal 0.8) in
  inr (JObj (list_to_map [
    ("name", name); ("axiom", axiom); ("rules", rules);
    ("iterations", iterations); ("angle", angle);
    ("angleVariation", angle_variation);
    ("lengthVariation", length_variation);
    ("lengthTapering", length_tapering);
    ("leafProbability", leaf_probability);
    ("leafGenerationThreshold", leaf_generation_threshold);
    ("length", length); ("thickness", thickness); ("tapering", tapering)
  ])).

(** [all(mapped.get(field) is not None for field in fields)] *)
Fixpoint all_present (fields : list string) (mapped : json) : result bool :=
  match fields with
  | [] => inr true
  | field :: rest =>
      let* v := get mapped field JNull in
      if is_none v then inr false else all_present rest mapped
  end.

(** The parameters of the INSERT of the loop, after the timestamp. *)
Definition migrate_values (mapped : json) : result (list param) :=
  let* axiom := getitem mapped "axiom" in
  let* rules := getitem mapped "rules" in
  let* iterations := getitem mapped "iterations" in
  let* angle := getitem mapped "angle" in
  let* angle_variation := getitem mapped "angleVariation" in
  let* length_variation := getitem mapped "lengthVariation" in
  let* length_tapering := getitem mapped "lengthTapering" in
  let* leaf_probability := getitem mapped "leafProbability" in
  let* leaf_generation_threshold := getitem mapped "leafGenerationThreshold" in
  let* length := getitem mapped "length" in
  let* thickness := getitem mapped "thickness" in
  let* tapering := getitem mapped "tapering" in
  inr [Py axiom; Py rules; Py iterations; Py angle; Py angle_variation;
       Py length_variation; Py length_tapering; Py leaf_probability;
       Py leaf_generation_threshold; Py length; Py thickness; Py tapering].

(** The body of the inner [try] of the loop, for one element of [plants];
    [now] is the clock reading the element would take. *)
Definition migrate_attempt (now : Z) (plant_data : json) (st : progress)
    : result progress :=
  let* mapped := mapped_data plant_data in
  (* Validate required fields *)
  let* valid := all_present required_fields mapped in
  if negb valid
  then
    let* label := get plant_data "name" (JStr "unnamed") in
    inr (record_error st (MissingFields label))
  else
    let* supplied := entry plant_data "timestamp" in
    let timestamp :=
      match supplied with
      | Some t => Py t
      | None => Int64 now
      end in
    let* name := getitem mapped "name" in
    let* values := migrate_values mapped in
    match Sqlite.insert insert_columns
            (Py name :: timestamp :: values) (conn st) with
    | inr db1 =>
        inr {| conn := db1;
               migrated_count := migrated_count st + 1;
               errors := errors st |}
    | inl (IntegrityError _) =>
        (* Plant already exists, skip *)
        inr (record_error st (AlreadyExists name))
    | inl e => inl e
    end.

(** One turn of the loop: the [except Exception] clause builds its message
    with [plant_data.get], which raises again where [plant_data] is no
    dict. *)
Definition migrate_plant (now : Z) (plant_data : json) (st : progress)
    : result progress :=
  match migrate_attempt now plant_data st with
  | inr st1 => inr st1
  | inl e =>
      let* label := get plant_data "name" (JStr "unnamed") in
      inr (record_error st (ProcessingError label e))
  end.

(** [for plant_data in plants]; [clock i] is the reading of the clock at
    the element of index [i]. *)
Fixpoint migrate_plants (clock : nat -> Z) (i : nat) (plants : list json)
    (st : progress) : result progress :=
  match plants with
  | [] => inr st
  | plant_data :: rest =>
      let* st1 := migrate_plant (clock i) plant_data st in
      migrate_plants clock (S i) rest st1
  end.

(** [migrate_from_localstorage]: POST /api/plants/migrate. The connection
    commits once, after the loop. *)
Definition migrate_from_localstorage (clock : nat -> Z) (data : json)
    (db : database) : response * database :=
  match (if negb (truthy data) then inr true
         else let* present := contains "plants" data in inr (negb present)) with
  | inl e => (Failed e, db)
  | inr true => (Resp 400 (error "No plants data provided"), db)
  | inr false =>
      match getitem data "plants" with
      | inl e => (Failed e, db)
      | inr (JArr plants) =>
          match migrate_plants clock 0 plants
                  {| conn := db; migrated_count := 0; errors := [] |} with
          | inl e => (Failed e, db)
          | inr st => (Report (migrated_count st) (errors st), conn st)
          end
      | inr _ => (Resp 400 (error "Plants data must be an array"), db)
      end
  end.

(** ** The reading and deleting handlers *)

(** [SELECT ... FROM plants WHERE id = ?], then [fetchone], with the id
    Flask's [int] converter read from the digits of the route, of whatever
    length: the driver binds it as the Python [int] it is. *)
Definition fetch_by_route_id (plant_id : Z) (db : database)
    : result (option row) :=
  let* rows := Sqlite.select (Sqlite.IdIs (Py (JInt plant_id))) db in
  inr (Sqlite.fetchone rows).

(** [SELECT ... FROM plants WHERE name = ?], then [fetchone], with the
    string of the route. *)
Definition fetch_by_route_name (name : string) (db : database)
    : result (option row) :=
  let* rows := Sqlite.select (Sqlite.NameIs (Text name)) db in
  inr (Sqlite.fetchone rows).

(** What [get_plant] and [get_plant_by_name] make of the fetched row. *)
Definition found (plant : result (option row)) : response :=
  match plant with
  | inl e => Failed e
  | inr None => Resp 404 (error "Plant not found")
  | inr (Some plant) => Resp 200 (plant_json plant)
  end.

(** [get_plant]: GET /api/plants/<int:plant_id> *)
Definition get_plant (plant_id : Z) (db : database) : response :=
  found (fetch_by_route_id plant_id db).

(** [get_plant_by_name]: GET /api/plants/<name> *)
Definition get_plant_by_name (name : string) (db : database) : response :=
  found (fetch_by_route_name name db).

(** The answer of a handler: one of the responses above, or the 200 of a
    deletion, [{"message": f'Plant "{name}" deleted successfully'}]. *)
Inductive reply :=
| Answer (r : response)
| Deleted (name : json).

(** [delete_plant]: DELETE /api/plants/<int:plant_id>; the message carries
    the name of the row that was fetched. *)
Definition delete_plant (plant_id : Z) (db : database) : reply * database :=
  match fetch_by_route_id plant_id db with
  | inl e => (Answer (Failed e), db)
  | inr None => (Answer (Resp 404 (error "Plant not found")), db)
  | inr (Some plant) =>
      match Sqlite.delete_from (Sqlite.IdIs (Py (JInt plant_id))) db with
      | inl e => (Answer (Failed e), db)
      | inr db1 => (Deleted (to_json (cell plant "name")), db1)
      end
  end.

(** [delete_plant_by_name]: DELETE /api/plants/name/<name>; the message
    carries the name of the route. *)
Definition delete_plant_by_name (name : string) (db : database)
    : reply * database :=
  match fetch_by_route_name name db with
  | inl e => (Answer (Failed e), db)
  | inr None => (Answer (Resp 404 (error "Plant not found")), db)
  | inr (Some plant) =>
      match Sqlite.delete_from (Sqlite.NameIs (Text name)) db with
      | inl e => (Answer (Failed e), db)
      | inr db1 => (Deleted (JStr name), db1)
      end
  end.

(** ** The routes *)

(** A request to the API: the handler its route selects, with the
    arguments Flask passes and the clock readings the handler takes. *)
Inductive request :=
| GetPlants
| GetPlant (plant_id : Z)
| GetPlantByName (name : string)
| CreatePlant (now : Z) (data : json)
| UpdatePlant (now : Z) (plant_id : Z) (data : json)
| DeletePlant (plant_id : Z)
| DeletePlantByName (name : string)
| Migrate (clock : nat -> Z) (data : json).

(** The answer to a request and the store it leaves. *)
Definition serve (req : request) (db : database) : reply * database :=
  match req with
  | GetPlants => (Answer (get_plants db), db)
  | GetPlant plant_id => (Answer (get_plant plant_id db), db)
  | GetPlantByName name => (Answer (get_plant_by_name name db), db)
  | CreatePlant now data =>
      let (r, db1) := create_plant now data db in (Answer r, db1)
  | UpdatePlant now plant_id data =>
      let (r, db1) := update_plant now plant_id data db in (Answer r, db1)
  | DeletePlant plant_id => delete_plant plant_id db
  | DeletePlantByName name => delete_plant_by_name name db
  | Migrate clock data =>
      let (r, db1) := migrate_from_localstorage clock data db in
      (Answer r, db1)
  end.

(** The store after a sequence of requests, served one after the other. *)
Definition run (reqs : list request) (db : database) : database :=
  fold_left (fun db req => (serve req db).2) reqs db.

(** ** The command-line importer of [api/migrate.py] *)

    (* f"Error processing plant '{name}': {str(e)}" *)




(** [[field for field in fields if field not in plant_data]] *)
Fixpoint missing_fields (fields : list string) (plant_data : json)
    : result (list string) :=
  match fields with
  | [] => inr []
  | field :: rest =>
      let* present := contains field plant_data in
      let* missing := missing_fields rest plant_data in
      inr (if present then missing else field :: missing)
  end.




Section Cli.

(** [json.loads], with [None] for a [JSONDecodeError]. *)
Variable loads : string -> option json.


End Cli.

(** ** Vocabulary of the statements *)

(** Row [b] stands before row [a] in [l]. *)
Definition before (b a : row) (l : list row) : Prop :=
  exists l1 l2 l3, l = l1 ++ b :: l2 ++ a :: l3.

(** The first column of [cells] whose value is NULL. *)
Fixpoint first_null (cells : list (string * sqlval)) : option string :=
  match cells with
  | [] => None
  | (c, v) :: rest => if Sqlite.is_null v then Some c else first_null rest
  end.

(** The assignment a bound SET clause makes to column [c], if any. *)
Definition assigned (c : string) (fs : list (string * (row -> sqlval)))
    : option (row -> sqlval) :=
  snd <$> List.find (fun cf => String.eqb cf.1 c) fs.

(** What [Sqlite.update] writes in place of row [r]. *)
Definition rewritten (matches : row -> bool)
    (fs : list (string * (row -> sqlval))) (r : row) : row :=
  if matches r then Sqlite.assign fs r else r.

(** The store obeys the constraints of the schema: NOT NULL columns are
    filled, ids are distinct integers the counter has given out, and two
    rows with the same name are the same row. *)
Record consistent (db : database) : Prop := {
  filled : forall r, In r (plants db) -> Sqlite.not_null_violation r = None;
  numbered : forall r, In r (plants db) ->
    exists i, cell r "id" = SInt i /\ i <= sequence db;
  distinct_ids : NoDup (map (fun r => cell r "id") (plants db));
  distinct_names : forall r r', In r (plants db) -> In r' (plants db) ->
    Sqlite.eqb (cell r "name") (cell r' "name") = true ->
    cell r "id" = cell r' "id"
}.

(** The columns with a DEFAULT, each with its key in a request body. *)
Definition optional_fields : list (string * string) :=
  [("angle_variation", "angleVariation");
   ("length_variation", "lengthVariation");
   ("length_tapering", "lengthTapering");
   ("leaf_probability", "leafProbability");
   ("leaf_generation_threshold", "leafGenerationThreshold");
   ("length", "length"); ("thickness", "thickness");
   ("tapering", "tapering")].

(** A value the driver binds: null, a boolean, a number or a string it can
    encode. *)
Definition storable (v : json) : Prop :=
  exists s, Sqlite.bind (Py v) = inr s.

(** [v] is a value for the column [c]: the driver binds it, to NULL or to
    a value of the kind of the column (text for a TEXT column, a number for
    a numeric one). *)
Definition suits (c : string) (v : json) : Prop :=
  exists s, Sqlite.bind (Py v) = inr s /\ Sqlite.fits c s = true.

(** The column [c] of row [r] holds the value [v] of a body: what the
    column stores of the value [v] is bound to. *)
Definition holds (r : row) (c : string) (v : json) : Prop :=
  exists s, Sqlite.bind (Py v) = inr s /\ cell r c = Sqlite.stored c s.


(** Every required field of the body has a value for its column that does
    not bind to NULL (as null and NaN do), and every optional field the
    body gives has a value for its column. *)
Definition complete (m : gmap string json) : Prop :=
  Forall (fun f => exists v, m !! f = Some v /\ suits f v /\
                     Sqlite.bind (Py v) <> inr SNull)
    required_fields /\
  Forall (fun ck => forall v, m !! ck.2 = Some v -> suits ck.1 v)
    optional_fields.


(** What [create_plant] passes for the optional columns of body [m]. *)
Definition optional_values (m : gmap string json) : list (string * param) :=
  [("angle_variation", Py (default (JInt 0) (m !! "angleVariation")));
   ("length_variation", Py (default (JInt 0) (m !! "lengthVariation")));
   ("length_tapering", Py (default (JReal 1.0) (m !! "lengthTapering")));
   ("leaf_probability", Py (default (JInt 0) (m !! "leafProbability")));
   ("leaf_generation_threshold",
    Py (default (JInt 0) (m !! "leafGenerationThreshold")));
   ("length", Py (default (JReal 1.0) (m !! "length")));
   ("thickness", Py (default (JReal 0.1) (m !! "thickness")));
   ("tapering", Py (default (JReal 0.8) (m !! "tapering")))].

(** The columns [update_plant] can set, each with its key in a body. *)
Definition updatable_fields : list (string * string) :=
  [("name", "name"); ("axiom", "axiom"); ("rules", "rules");
   ("iterations", "iterations"); ("angle", "angle")] ++ optional_fields.


(** The text of an error response. *)
Definition error_message (r : response) : option string :=
  match r with
  | Resp _ (JObj m) =>
      match m !! "error" with
      | Some (JStr msg) => Some msg
      | _ => None
      end
  | _ => None
  end.

(** The required-field check of [create_plant] lets the body through. *)
Definition create_accepts (data : json) : Prop :=
  first_missing required_fields data = inr None.

(** The required-field check of the bulk import lets the record through. *)
Definition import_accepts (plant_data : json) : Prop :=
  (let* mapped := mapped_data plant_data in
   all_present required_fields mapped) = inr true.

(** The dict [mapped_data] of the bulk import for the record [m]. *)
Definition legacy_values (m : gmap string json) : gmap string json :=
  list_to_map [
    ("name", default JNull (m !! "name"));
    ("axiom", default JNull (m !! "axiom"));
    ("rules", default JNull (m !! "rules"));
    ("iterations", default JNull (m !! "iterations"));
    ("angle", default JNull (m !! "angle"));
    ("angleVariation", default (JInt 0) (m !! "angleVariation"));
    ("lengthVariation", default (JInt 0) (m !! "lengthVariation"));
    ("lengthTapering", default (JReal 1.0) (m !! "lengthTapering"));
    ("leafProbability", default (JInt 0) (m !! "leafProbability"));
    ("leafGenerationThreshold", default (JInt 0) (m !! "leafThreshold"));
    ("length", default (JReal 1.0) (m !! "length"));
    ("thickness", default (JReal 0.1) (m !! "thickness"));
    ("tapering", default (JReal 0.8) (m !! "tapering"))
  ].

(** The timestamp the bulk import passes for the record [m] at [now]. *)
Definition import_timestamp (now : Z) (m : gmap string json) : param :=
  match m !! "timestamp" with
  | Some t => Py t
  | None => Int64 now
  end.

(** The parameters of the INSERT of the bulk import for the record [m]. *)
Definition import_params (now : Z) (m : gmap string json) : list param :=
  [Py (default JNull (m !! "name")); import_timestamp now m;
   Py (default JNull (m !! "axiom")); Py (default JNull (m !! "rules"));
   Py (default JNull (m !! "iterations")); Py (default JNull (m !! "angle"));
   Py (default (JInt 0) (m !! "angleVariation"));
   Py (default (JInt 0) (m !! "lengthVariation"));
   Py (default (JReal 1.0) (m !! "lengthTapering"));
   Py (default (JInt 0) (m !! "leafProbability"));
   Py (default (JInt 0) (m !! "leafThreshold"));
   Py (default (JReal 1.0) (m !! "length"));
   Py (default (JReal 0.1) (m !! "thickness"));
   Py (default (JReal 0.8) (m !! "tapering"))].

(** The loop took the record into the table as row [r]. *)
Definition migrated (st st' : progress) (r : row) : Prop :=
  conn st' = {| plants := plants (conn st) ++ [r];
                sequence := sequence (conn st) + 1 |} /\
  migrated_count st' = migrated_count st + 1 /\
  errors st' = errors st.

(** The loop left the table alone and reported [e]. *)
Definition skipped (st st' : progress) (e : import_error) : Prop :=
  st' = record_error st e.

(** ** Sample data *)

Definition empty_store : database := {| plants := []; sequence := 0 |}.

(** A fern with a thickness of its own. *)
Definition fern_custom : gmap string json :=
  list_to_map [("name", JStr "fern"); ("axiom", JStr "F");
               ("rules", JStr "F->F[+F]F[-F]"); ("iterations", JInt 4);
               ("angle", JInt 25); ("thickness", JReal 0.5)].

(** Another fern, with the required fields only. *)
Definition fern_plain : gmap string json :=
  list_to_map [("name", JStr "fern"); ("axiom", JStr "F");
               ("rules", JStr "F"); ("iterations", JInt 1);
               ("angle", JInt 10)].

(** The store after [fern_custom] was created at time 1000. *)
Definition fern_store : database :=
  (create_plant 1000 (JObj fern_custom) empty_store).2.

(** The row of [fern_store]. *)
Definition fern_row : row :=
  Sqlite.new_row 1 insert_columns
    [SText "fern"; SInt 1000; SText "F"; SText "F->F[+F]F[-F]"; SInt 4;
     SInt 25; SInt 0; SInt 0; SReal 1.0; SInt 0; SInt 0; SReal 1.0;
     SReal 0.5; SReal 0.8].

(** Two records that bring their own timestamps, the older one last. *)
Definition oak : gmap string json :=
  list_to_map [("name", JStr "oak"); ("axiom", JStr "X");
               ("rules", JStr "X->F[+X][-X]"); ("iterations", JInt 5);
               ("angle", JInt 20); ("timestamp", JInt 2000)].

Definition elm : gmap string json :=
  list_to_map [("name", JStr "elm"); ("axiom", JStr "F");
               ("rules", JStr "F->FF"); ("iterations", JInt 3);
               ("angle", JInt 30); ("timestamp", JInt 1000)].

Definition grove : database :=
  (migrate_from_localstorage (fun _ => 3000)
     (JObj {["plants" := JArr [JObj oak; JObj elm]]}) empty_store).2.

(** The rows of [grove]. *)
Definition oak_row : row :=
  Sqlite.new_row 1 insert_columns
    [SText "oak"; SInt 2000; SText "X"; SText "X->F[+X][-X]"; SInt 5;
     SInt 20; SInt 0; SInt 0; SReal 1.0; SInt 0; SInt 0; SReal 1.0;
     SReal 0.1; SReal 0.8].

Definition elm_row : row :=
  Sqlite.new_row 2 insert_columns
    [SText "elm"; SInt 1000; SText "F"; SText "F->FF"; SInt 3;
     SInt 30; SInt 0; SInt 0; SReal 1.0; SInt 0; SInt 0; SReal 1.0;
     SReal 0.1; SReal 0.8].

(** ** Vocabulary of the further properties *)

(** The counter has passed the id [i] and no row of [db] carries it. *)
Definition retired (i : Z) (db : database) : Prop :=
  i <= sequence db /\ forall r, In r (plants db) -> cell r "id" <> SInt i.

(** Row [r] is the plant made of the body [m] at [now] under the rowid
    [rowid]: the name and the required values of the body, the timestamp
    [now], and for each optional column the value of the body or, where the
    body has none, the declared default. *)
Definition fresh_row (now rowid : Z) (m : gmap string json) (r : row) : Prop :=
  cell r "id" = SInt rowid /\
  cell r "timestamp" = SInt now /\
  Forall (fun f => exists v, m !! f = Some v /\ holds r f v)
    required_fields /\
  Forall (fun ck => match m !! ck.2 with
                    | Some v => holds r ck.1 v
                    | None => cell r ck.1 = declared_default ck.1
                    end)
    optional_fields.

(** The keys of a record that the importers read. *)
Definition legacy_keys : list string :=
  ["name"; "timestamp"; "axiom"; "rules"; "iterations"; "angle";
   "angleVariation"; "lengthVariation"; "lengthTapering"; "leafProbability";
   "leafThreshold"; "length"; "thickness"; "tapering"].

(** The columns with a DEFAULT, each with its key in a record of the
    importers. *)
Definition legacy_fields : list (string * string) :=
  [("angle_variation", "angleVariation");
   ("length_variation", "lengthVariation");
   ("length_tapering", "lengthTapering");
   ("leaf_probability", "leafProbability");
   ("leaf_generation_threshold", "leafThreshold");
   ("length", "length"); ("thickness", "thickness");
   ("tapering", "tapering")].

(** Row [r] is the plant the bulk import makes of the record [m] at [now]
    under the rowid [rowid]: the name and the required values of the record,
    its timestamp or, where it has none, [now], and for each optional column
    the value under the legacy key or, where the record has none, the
    declared default. *)
Definition imported_row (now rowid : Z) (m : gmap string json) (r : row)
    : Prop :=
  cell r "id" = SInt rowid /\
  match m !! "timestamp" with
  | Some t => holds r "timestamp" t
  | None => cell r "timestamp" = SInt now
  end /\
  Forall (fun f => exists v, m !! f = Some v /\ holds r f v)
    required_fields /\
  Forall (fun ck => match m !! ck.2 with
                    | Some v => holds r ck.1 v
                    | None => cell r ck.1 = declared_default ck.1
                    end)
    legacy_fields.

(** * Properties *)

(** ** The order of SQLite values *)

Module SqliteFacts.
Import Sqlite.

Lemma ascii_compare_refl (c : ascii) : Ascii.compare c c = Eq.
Proof. unfold Ascii.compare. apply N.compare_refl. Qed.

Lemma string_compare_refl (s : string) : String.compare s s = Eq.
Proof.
  induction s as [|c s IH]; simpl; [reflexivity|].
  now rewrite ascii_compare_refl.
Qed.

Lemma ascii_compare_gt_trans (a b c : ascii) :
  Ascii.compare a b = Gt -> Ascii.compare b c = Gt -> Ascii.compare a c = Gt.
Proof.
  unfold Ascii.compare. rewrite !N.compare_gt_iff. lia.
Qed.

Lemma string_compare_gt_trans (s t u : string) :
  String.compare s t = Gt -> String.compare t u = Gt ->
  String.compare s u = Gt.
Proof.
  revert t u. induction s as [|a s IH]; intros [|b t] [|c u]; simpl;
    try congruence.
  destruct (Ascii.compare a b) eqn:Hab; try discriminate;
    destruct (Ascii.compare b c) eqn:Hbc; try discriminate; intros H1 H2.
  - apply Ascii.compare_eq_iff in Hab, Hbc. subst.
    rewrite ascii_compare_refl. eauto.
  - apply Ascii.compare_eq_iff in Hab. subst. now rewrite Hbc.
  - apply Ascii.compare_eq_iff in Hbc. subst. now rewrite Hab.
  - now rewrite (ascii_compare_gt_trans a b c).
Qed.

Lemma Zcompare_inject (x y : Z) : (x ?= y) = Qcompare (inject_Z x) (inject_Z y).
Proof. unfold Qcompare. simpl. now rewrite !Z.mul_1_r. Qed.

Lemma Qcompare_refl (q : Q) : Qcompare q q = Eq.
Proof. apply Qeq_alt. reflexivity. Qed.

Lemma Qcompare_gt_trans (p q r : Q) :
  Qcompare p q = Gt -> Qcompare q r = Gt -> Qcompare p r = Gt.
Proof.
  rewrite <- !Qgt_alt. intros H1 H2. eapply Qlt_trans; eassumption.
Qed.

Lemma Qcompare_eq_l (p q r : Q) :
  Qcompare p q = Eq -> Qcompare p r = Qcompare q r.
Proof. rewrite <- Qeq_alt. intros H. now rewrite H. Qed.

Lemma Qcompare_eq_r (p q r : Q) :
  Qcompare q r = Eq -> Qcompare p q = Qcompare p r.
Proof. rewrite <- Qeq_alt. intros H. now rewrite H. Qed.

Lemma compare_refl (v : sqlval) : compare v v = Eq.
Proof.
  destruct v; simpl; auto using Z.compare_refl, Qcompare_refl,
    string_compare_refl.
Qed.

Lemma compare_antisym (a b : sqlval) : compare a b = CompOpp (compare b a).
Proof.
  destruct a, b; simpl; auto using Z.compare_antisym,
    String.compare_antisym.
  all: now rewrite <- Qcompare_antisym.
Qed.

Lemma compare_gt_trans (a b c : sqlval) :
  compare a b = Gt -> compare b c = Gt -> compare a c = Gt.
Proof.
  destruct a as [|x|x|x], b as [|y|y|y], c as [|z|z|z]; simpl;
    try congruence; try apply string_compare_gt_trans;
    rewrite ?Zcompare_inject; apply Qcompare_gt_trans.
Qed.

Lemma compare_eq_gt (a b c : sqlval) :
  compare a b = Eq -> compare b c = Gt -> compare a c = Gt.
Proof.
  destruct a as [|x|x|x], b as [|y|y|y], c as [|z|z|z]; simpl;
    try congruence;
    try (intros H; apply String.compare_eq_iff in H; congruence);
    rewrite ?Zcompare_inject; intros H; now rewrite (Qcompare_eq_l _ _ _ H).
Qed.

Lemma compare_gt_eq (a b c : sqlval) :
  compare a b = Gt -> compare b c = Eq -> compare a c = Gt.
Proof.
  destruct a as [|x|x|x], b as [|y|y|y], c as [|z|z|z]; simpl;
    try congruence;
    try (intros H1 H; apply String.compare_eq_iff in H; congruence);
    rewrite ?Zcompare_inject; intros H1 H;
    now rewrite <- (Qcompare_eq_r _ _ _ H).
Qed.

Lemma compare_eq_trans (a b c : sqlval) :
  compare a b = Eq -> compare b c = Eq -> compare a c = Eq.
Proof.
  destruct a as [|x|x|x], b as [|y|y|y], c as [|z|z|z]; simpl;
    try congruence;
    try (intros H; apply String.compare_eq_iff in H; congruence);
    rewrite ?Zcompare_inject; intros H; now rewrite (Qcompare_eq_l _ _ _ H).
Qed.

Lemma not_below_trans (a b c : sqlval) :
  not_below a b -> not_below b c -> not_below a c.
Proof.
  unfold not_below. intros H1 H2.
  destruct (compare a b) eqn:Hab; [| congruence |];
    destruct (compare b c) eqn:Hbc; try congruence.
  - now rewrite (compare_eq_trans a b c).
  - now rewrite (compare_eq_gt a b c).
  - now rewrite (compare_gt_eq a b c).
  - now rewrite (compare_gt_trans a b c).
Qed.

Lemma eqb_refl (v : sqlval) : v <> SNull -> eqb v v = true.
Proof.
  intros H. unfold eqb. rewrite compare_refl. now destruct v.
Qed.

Lemma eqb_sym (a b : sqlval) : eqb a b = eqb b a.
Proof.
  unfold eqb. rewrite (compare_antisym a b).
  destruct a, b; try reflexivity; now destruct (compare _ _).
Qed.

Lemma eqb_not_null (a b : sqlval) : eqb a b = true -> a <> SNull /\ b <> SNull.
Proof. destruct a, b; simpl; intros; split; congruence. Qed.

Lemma eqb_trans (a b c : sqlval) :
  eqb a b = true -> eqb b c = true -> eqb a c = true.
Proof.
  intros H1 H2.
  destruct (eqb_not_null _ _ H1) as [Ha _].
  destruct (eqb_not_null _ _ H2) as [_ Hc].
  revert H1 H2. unfold eqb.
  destruct (compare a b) eqn:Hab; [| now destruct a, b | now destruct a, b].
  destruct (compare b c) eqn:Hbc; [| now destruct b, c | now destruct b, c].
  rewrite (compare_eq_trans a b c Hab Hbc). now destruct a, c.
Qed.

End SqliteFacts.

(** ** ORDER BY timestamp DESC *)

Module OrderFacts.
Import Sqlite SqliteFacts.

Lemma place_perm (r : row) (l : list row) : Permutation (place r l) (r :: l).
Proof.
  induction l as [|x l IH]; simpl; [reflexivity|].
  destruct (compare _ _); try reflexivity.
  rewrite IH. apply perm_swap.
Qed.

Lemma order_perm (l : list row) : Permutation (order_by_timestamp_desc l) l.
Proof.
  induction l as [|x l IH]; simpl; [reflexivity|].
  rewrite place_perm. now constructor.
Qed.

Lemma place_sorted (r : row) (l : list row) :
  StronglySorted newer_first l -> StronglySorted newer_first (place r l).
Proof.
  induction 1 as [|x l Hs IH Hx]; simpl; [repeat constructor|].
  destruct (compare (cell x "timestamp") (cell r "timestamp")) eqn:Hc.
  - constructor; [now constructor|]. constructor.
    + unfold newer_first, not_below. rewrite compare_antisym, Hc. discriminate.
    + eapply List.Forall_impl; [|exact Hx]. intros y Hy.
      eapply not_below_trans; [|exact Hy].
      unfold not_below. rewrite compare_antisym, Hc. discriminate.
  - constructor; [now constructor|]. constructor.
    + unfold newer_first, not_below. rewrite compare_antisym, Hc. discriminate.
    + eapply List.Forall_impl; [|exact Hx]. intros y Hy.
      eapply not_below_trans; [|exact Hy].
      unfold not_below. rewrite compare_antisym, Hc. discriminate.
  - constructor; [exact IH|].
    eapply Permutation_Forall; [symmetry; apply place_perm|].
    constructor; [|exact Hx].
    unfold newer_first, not_below. rewrite Hc. discriminate.
Qed.

Lemma order_sorted (l : list row) :
  StronglySorted newer_first (order_by_timestamp_desc l).
Proof.
  induction l as [|x l IH]; simpl; [constructor|]. now apply place_sorted.
Qed.

(** In a list sorted newest first, a strictly newer row stands before an
    older one. *)
Lemma sorted_before (l : list row) (a b : row) :
  StronglySorted newer_first l -> In a l -> In b l ->
  compare (cell b "timestamp") (cell a "timestamp") = Gt ->
  before b a l.
Proof.
  intros Hs Ha Hb Hgt.
  destruct (in_split _ _ Hb) as (l1 & l2 & ->).
  exists l1. destruct (in_app_or _ _ _ Ha) as [H1|[->|H2]].
  - exfalso. clear Ha Hb. induction l1 as [|x l1 IH]; [contradiction|].
    simpl in Hs. apply StronglySorted_inv in Hs as [Hs Hx].
    destruct H1 as [->|H1]; [|now apply IH].
    rewrite List.Forall_forall in Hx.
    assert (Hab : newer_first a b) by (apply Hx, in_elt).
    unfold newer_first, not_below in Hab.
    rewrite compare_antisym, Hgt in Hab. now apply Hab.
  - rewrite compare_refl in Hgt. discriminate.
  - destruct (in_split _ _ H2) as (l3 & l4 & ->). now exists l3, l4.
Qed.

End OrderFacts.

(** ** The statements of the engine *)

Module EngineFacts.
Import Sqlite SqliteFacts.

Lemma cell_assign (fs : list (string * (row -> sqlval))) (r : row) (c : string) :
  cell (assign fs r) c =
  match assigned c fs with
  | Some f => f r
  | None => cell r c
  end.
Proof.
  unfold assigned. induction fs as [|[c' f] fs IH]; simpl; [reflexivity|].
  destruct (String.eqb_spec c' c) as [->|Hne]; simpl.
  - unfold cell. now rewrite lookup_insert_eq.
  - unfold cell in *. now rewrite lookup_insert_ne.
Qed.

Lemma bind_set_columns set fs :
  bind_set set = inr fs -> map fst fs = map fst set.
Proof.
  revert fs. induction set as [|[c e] set IH]; simpl; intros fs H.
  - now inversion H.
  - destruct (bind_expr c e) as [|f]; simpl in H; [discriminate|].
    destruct (bind_set set) as [|fs']; simpl in H; [discriminate|].
    inversion H; subst. simpl. f_equal. now apply IH.
Qed.

Lemma assigned_none (c : string) (fs : list (string * (row -> sqlval))) :
  existsb (String.eqb c) (map fst fs) = false -> assigned c fs = None.
Proof.
  unfold assigned. induction fs as [|[c' f] fs IH]; simpl; [reflexivity|].
  rewrite orb_false_iff, (String.eqb_sym c c'). intros [-> H]. now apply IH.
Qed.

Lemma omap_nil {A B} (f : A -> option B) (l : list A) :
  (forall x, In x l -> f x = None) -> omap f l = [].
Proof.
  induction l as [|x l IH]; simpl; intros H; [reflexivity|].
  rewrite (H x) by now left. apply IH. intros. apply H. now right.
Qed.

Lemma omap_nil_inv {A B} (f : A -> option B) (l : list A) (x : A) :
  omap f l = [] -> In x l -> f x = None.
Proof.
  induction l as [|y l IH]; simpl; intros H Hx; [contradiction|].
  destruct (f y) eqn:Hy; [discriminate|].
  destruct Hx as [->|Hx]; [exact Hy|now apply IH].
Qed.

(** The outcome of an UPDATE whose parameters bind. *)
Lemma update_bound set w db fs matches :
  bind_set set = inr fs -> bind_condition w = inr matches ->
  update set w db =
  match omap not_null_violation
          (map (assign fs) (List.filter matches (plants db))) with
  | c :: _ => inl (IntegrityError (NotNull c))
  | [] =>
      if existsb (String.eqb "name") (map fst set)
         && existsb (fun r => name_clash r (map (rewritten matches fs) (plants db)))
              (map (assign fs) (List.filter matches (plants db)))
      then inl (IntegrityError (Unique "name"))
      else inr {| plants := map (rewritten matches fs) (plants db);
                  sequence := sequence db |}
  end.
Proof. intros H1 H2. unfold update. now rewrite H1, H2. Qed.

Lemma filter_rewritten matches fs (l : list row) :
  (forall r, matches r = true -> matches (assign fs r) = true) ->
  List.filter matches (map (rewritten matches fs) l) =
  map (assign fs) (List.filter matches l).
Proof.
  intros H. induction l as [|r l IH]; [reflexivity|].
  cbn [map List.filter].
  assert (rewritten matches fs r = if matches r then assign fs r else r)
    as -> by reflexivity.
  destruct (matches r) eqn:Hr.
  - rewrite (H r Hr). cbn [map]. now rewrite IH.
  - rewrite Hr. exact IH.
Qed.


Lemma filter_head_in (f : row -> bool) (l : list row) (r : row) :
  In r l -> f r = true -> exists r0, head (List.filter f l) = Some r0.
Proof.
  intros Hin Hf. destruct (List.filter f l) as [|r0 t] eqn:E; [|eauto].
  assert (In r (List.filter f l)) by (apply filter_In; auto).
  rewrite E in *. contradiction.
Qed.

Lemma head_filter_in (f : row -> bool) (l : list row) (r : row) :
  head (List.filter f l) = Some r -> In r l /\ f r = true.
Proof.
  intros H. apply filter_In. destruct (List.filter f l); simpl in H;
    inversion H; subst. now left.
Qed.

Lemma bind_null (v : json) :
  bind (Py v) = inr SNull -> v = JNull \/ v = JNaN.
Proof.
  unfold bind. destruct v; try destruct (int64 z); try destruct (encodable s);
    intros H; inversion H; auto.
Qed.

Lemma bind_string (s : string) (v : sqlval) :
  bind (Py (JStr s)) = inr v -> v = SText s.
Proof. unfold bind. destruct (encodable s); now intros [= <-]. Qed.

Lemma is_null_convert (a : affinity) (v : sqlval) :
  is_null (convert a v) = is_null v.
Proof.
  destruct a, v; try reflexivity. simpl.
  destruct (integral q); [|reflexivity]. now destruct (_ && _).
Qed.

Lemma is_null_stored (c : string) (v : sqlval) :
  is_null (stored c v) = is_null v.
Proof.
  unfold stored. destruct (column_of c); [apply is_null_convert|reflexivity].
Qed.

Lemma stored_null (c : string) (v : sqlval) : stored c v = SNull <-> v = SNull.
Proof.
  pose proof (is_null_stored c v) as H.
  split; intros E; [rewrite E in H|rewrite E in H |- *];
    [now destruct v|now destruct (stored c SNull)].
Qed.


(** A value that was stored is stored as it is. *)
Lemma convert_convert (a : affinity) (v : sqlval) :
  convert a (convert a v) = convert a v.
Proof.
  destruct a, v; try reflexivity. simpl.
  destruct (integral q) eqn:E; simpl; [|now rewrite E].
  destruct (_ && _) eqn:B; simpl; [reflexivity|]. now rewrite E, B.
Qed.

Lemma stored_stored (c : string) (v : sqlval) :
  stored c (stored c v) = stored c v.
Proof.
  unfold stored. destruct (column_of c); [apply convert_convert|reflexivity].
Qed.

Lemma eqb_int (i j : Z) : eqb (SInt i) (SInt j) = true <-> i = j.
Proof.
  simpl. destruct (i ?= j) eqn:E.
  - apply Z.compare_eq in E. tauto.
  - split; [discriminate|]. intros ->. rewrite Z.compare_refl in E. discriminate.
  - split; [discriminate|]. intros ->. rewrite Z.compare_refl in E. discriminate.
Qed.

End EngineFacts.

(** ** The INSERT of the handlers *)

Module InsertFacts.
Import Sqlite SqliteFacts EngineFacts.

Section Row.
Variables (rowid : Z).
Variables (name timestamp axiom rules iterations angle : sqlval).
Variables (angle_variation length_variation length_tapering : sqlval).
Variables (leaf_probability leaf_generation_threshold : sqlval).
Variables (length thickness tapering : sqlval).

Let values : list sqlval :=
  [name; timestamp; axiom; rules; iterations; angle; angle_variation;
   length_variation; length_tapering; leaf_probability;
   leaf_generation_threshold; length; thickness; tapering].

Let r : row := new_row rowid insert_columns values.

Lemma new_row_cells :
  cell r "id" = SInt rowid /\ cell r "name" = name /\
  cell r "timestamp" = stored "timestamp" timestamp /\
  cell r "axiom" = axiom /\ cell r "rules" = rules /\
  cell r "iterations" = stored "iterations" iterations /\
  cell r "angle" = stored "angle" angle /\
  cell r "angle_variation" = stored "angle_variation" angle_variation /\
  cell r "length_variation" = stored "length_variation" length_variation /\
  cell r "length_tapering" = stored "length_tapering" length_tapering /\
  cell r "leaf_probability" = stored "leaf_probability" leaf_probability /\
  cell r "leaf_generation_threshold"
  = stored "leaf_generation_threshold" leaf_generation_threshold /\
  cell r "length" = stored "length" length /\
  cell r "thickness" = stored "thickness" thickness /\
  cell r "tapering" = stored "tapering" tapering.
Proof. repeat split; reflexivity. Qed.

Lemma new_row_not_null :
  not_null_violation r =
  first_null [("name", name); ("timestamp", timestamp); ("axiom", axiom);
              ("rules", rules); ("iterations", iterations);
              ("angle", angle)].
Proof.
  change (not_null_violation r) with
    (first_null [("name", name); ("timestamp", stored "timestamp" timestamp);
                 ("axiom", axiom); ("rules", rules);
                 ("iterations", stored "iterations" iterations);
                 ("angle", stored "angle" angle)]).
  cbn [first_null]. now rewrite !is_null_stored.
Qed.

Lemma new_row_name : cell r "name" = name.
Proof. reflexivity. Qed.

Lemma new_row_name_taken (rows : list row) :
  name_taken r rows = existsb (fun r' => eqb (cell r' "name") name) rows.
Proof. reflexivity. Qed.

End Row.

Lemma insert_bound columns params db values :
  bind_all params = inr values ->
  insert columns params db =
  match not_null_violation (new_row (sequence db + 1) columns values) with
  | Some c => inl (IntegrityError (NotNull c))
  | None =>
      if name_taken (new_row (sequence db + 1) columns values) (plants db)
      then inl (IntegrityError (Unique "name"))
      else inr {| plants := plants db
                    ++ [new_row (sequence db + 1) columns values];
                  sequence := sequence db + 1 |}
  end.
Proof. intros H. unfold insert. now rewrite H. Qed.

Lemma insert_inv columns params db db' :
  insert columns params db = inr db' ->
  exists values,
    bind_all params = inr values /\
    not_null_violation (new_row (sequence db + 1) columns values) = None /\
    name_taken (new_row (sequence db + 1) columns values) (plants db) = false /\
    db' = {| plants := plants db
               ++ [new_row (sequence db + 1) columns values];
             sequence := sequence db + 1 |}.
Proof.
  unfold insert. destruct (bind_all params) as [e|values]; [discriminate|].
  simpl. destruct (not_null_violation _) eqn:Hn; [discriminate|].
  destruct (name_taken _ _) eqn:Ht; [discriminate|].
  intros [= <-]. exists values. repeat split; assumption || reflexivity.
Qed.

End InsertFacts.

(** ** createOrReplace *)

Module CreateFacts.
Import Sqlite SqliteFacts EngineFacts InsertFacts.

Lemma bind_all_cons p ps v vs :
  bind p = inr v -> bind_all ps = inr vs ->
  bind_all (p :: ps) = inr (v :: vs).
Proof. intros H1 H2. simpl. now rewrite H1, H2. Qed.

Lemma bind_set_param c p set v fs :
  bind p = inr v -> bind_set set = inr fs ->
  bind_set ((c, Param p) :: set) = inr ((c, fun _ => stored c v) :: fs).
Proof. intros H1 H2. simpl. now rewrite H1, H2. Qed.

Lemma is_null_false (s : sqlval) : s <> SNull -> is_null s = false.
Proof. now destruct s. Qed.

Lemma not_null_cells (r : row) :
  not_null_violation r =
  first_null [("name", cell r "name"); ("timestamp", cell r "timestamp");
              ("axiom", cell r "axiom"); ("rules", cell r "rules");
              ("iterations", cell r "iterations");
              ("angle", cell r "angle")].
Proof. reflexivity. Qed.

Lemma truthy_object (m : gmap string json) (k : string) (v : json) :
  m !! k = Some v -> truthy (JObj m) = true.
Proof.
  intros H. simpl. rewrite bool_decide_eq_false_2; [reflexivity|].
  intros ->. now rewrite lookup_empty in H.
Qed.

Lemma contains_present (m : gmap string json) (k : string) (v : json) :
  m !! k = Some v -> contains k (JObj m) = inr true.
Proof. intros H. simpl. rewrite bool_decide_eq_true_2; eauto. Qed.

(** The value a handler passes for an optional field binds, to the value
    given or to the default. *)
Lemma bind_optional (m : gmap string json) (k : string) (d : json) (s0 : sqlval) :
  (forall v, m !! k = Some v -> storable v) ->
  bind (Py d) = inr s0 ->
  exists s, bind (Py (default d (m !! k))) = inr s /\
    match m !! k with
    | Some v => bind (Py v) = inr s
    | None => s = s0
    end.
Proof.
  intros H Hd. destruct (m !! k) as [v|]; simpl.
  - destruct (H v eq_refl) as [s Hs]. eauto.
  - eauto.
Qed.

Lemma create_values_object m va vr vi vg :
  m !! "axiom" = Some va -> m !! "rules" = Some vr ->
  m !! "iterations" = Some vi -> m !! "angle" = Some vg ->
  create_values (JObj m) =
  inr ([("axiom", Py va); ("rules", Py vr); ("iterations", Py vi);
        ("angle", Py vg)] ++ optional_values m).
Proof.
  intros Ha Hr Hi Hg. unfold create_values. simpl.
  rewrite Ha, Hr, Hi, Hg. reflexivity.
Qed.

Lemma first_missing_object m :
  first_missing required_fields (JObj m) =
  inr (List.find (fun f => negb (bool_decide (is_Some (m !! f))))
         required_fields).
Proof.
  unfold required_fields. simpl.
  repeat (destruct (bool_decide _); simpl; [|reflexivity]). reflexivity.
Qed.

Lemma first_missing_none m :
  Forall (fun f => is_Some (m !! f)) required_fields ->
  first_missing required_fields (JObj m) = inr None.
Proof.
  intros H. rewrite first_missing_object. f_equal.
  induction H as [|f l Hf _ IH]; simpl; [reflexivity|].
  now rewrite bool_decide_eq_true_2.
Qed.

Lemma suits_storable (c : string) (v : json) : suits c v -> storable v.
Proof. intros (s & Hs & _). now exists s. Qed.

(** The five required values of a complete body, and what they bind to. *)
Lemma complete_required m :
  complete m ->
  exists vn va vr vi vg sn sa sr si sg,
    (m !! "name" = Some vn /\ m !! "axiom" = Some va /\
     m !! "rules" = Some vr /\ m !! "iterations" = Some vi /\
     m !! "angle" = Some vg) /\
    (bind (Py vn) = inr sn /\ bind (Py va) = inr sa /\
     bind (Py vr) = inr sr /\ bind (Py vi) = inr si /\
     bind (Py vg) = inr sg) /\
    (sn <> SNull /\ sa <> SNull /\ sr <> SNull /\ si <> SNull /\
     sg <> SNull).
Proof.
  intros [H _]. unfold required_fields in H.
  repeat match goal with
         | H : Forall _ (_ :: _) |- _ => apply Forall_cons_1 in H as [? H]
         end.
  repeat match goal with
         | H : exists v, _ /\ suits _ v /\ _ |- _ =>
             let s := fresh "s" in
             let Hn := fresh "Hn" in
             let Hb := fresh "Hb" in
             destruct H as (? & ? & (s & Hb & _) & Hn);
             assert (s <> SNull) by (intros Hs; apply Hn; now rewrite Hb, Hs)
         end.
  do 10 eexists. repeat split; eassumption.
Qed.

(** The eight optional values of a complete body bind, and where the body
    gives none the column stores its declared default. *)
Lemma complete_optional m :
  complete m ->
  Forall (fun ckd =>
            exists s, bind (Py (default ckd.2 (m !! ckd.1.2))) = inr s /\
              match m !! ckd.1.2 with
              | Some v => bind (Py v) = inr s
              | None => stored ckd.1.1 s = declared_default ckd.1.1
              end)
    (zip optional_fields
       [JInt 0; JInt 0; JReal 1.0; JInt 0; JInt 0; JReal 1.0; JReal 0.1;
        JReal 0.8]).
Proof.
  intros [_ H]. unfold optional_fields in *.
  repeat match goal with
         | H : Forall _ (_ :: _) |- _ => apply Forall_cons_1 in H as [? H]
         end.
  cbn [fst snd] in *.
  simpl. repeat constructor; cbn [fst snd];
    match goal with
    | |- context [m !! ?k] =>
        destruct (m !! k) as [v|] eqn:E; cbn [default];
        [match goal with
         | H : forall v, Some _ = Some v -> suits _ v |- _ =>
             destruct (H v eq_refl) as (s & Hs & _); eauto
         end
        |eexists; split; reflexivity]
    end.
Qed.

End CreateFacts.

(** ** partialUpdate *)

Module UpdateFacts.
Import Sqlite SqliteFacts EngineFacts InsertFacts CreateFacts.

Lemma bind_set_coalesce c p set v fs :
  bind p = inr v -> bind_set set = inr fs ->
  bind_set ((c, Coalesce p c) :: set)
  = inr ((c, fun r => stored c (coalesce v (cell r c))) :: fs).
Proof. intros H1 H2. simpl. now rewrite H1, H2. Qed.

Lemma bind_int64 (z : Z) : bind (Int64 z) = inr (SInt z).
Proof. reflexivity. Qed.

Lemma update_set_object (timestamp : Z) (m : gmap string json) :
  update_set timestamp (JObj m) =
  inr [("name", Coalesce (Py (default JNull (m !! "name"))) "name");
       ("timestamp", Param (Int64 timestamp));
       ("axiom", Coalesce (Py (default JNull (m !! "axiom"))) "axiom");
       ("rules", Coalesce (Py (default JNull (m !! "rules"))) "rules");
       ("iterations",
        Coalesce (Py (default JNull (m !! "iterations"))) "iterations");
       ("angle", Coalesce (Py (default JNull (m !! "angle"))) "angle");
       ("angle_variation",
        Coalesce (Py (default JNull (m !! "angleVariation"))) "angle_variation");
       ("length_variation",
        Coalesce (Py (default JNull (m !! "lengthVariation"))) "length_variation");
       ("length_tapering",
        Coalesce (Py (default JNull (m !! "lengthTapering"))) "length_tapering");
       ("leaf_probability",
        Coalesce (Py (default JNull (m !! "leafProbability"))) "leaf_probability");
       ("leaf_generation_threshold",
        Coalesce (Py (default JNull (m !! "leafGenerationThreshold")))
          "leaf_generation_threshold");
       ("length", Coalesce (Py (default JNull (m !! "length"))) "length");
       ("thickness", Coalesce (Py (default JNull (m !! "thickness"))) "thickness");
       ("tapering", Coalesce (Py (default JNull (m !! "tapering"))) "tapering")].
Proof. reflexivity. Qed.

(** What [update_plant] passes for a field binds, to NULL where the body
    has no value for it. *)
Lemma bind_given (m : gmap string json) (k : string) :
  (forall v, m !! k = Some v -> storable v) ->
  exists s, bind (Py (default JNull (m !! k))) = inr s /\
    match m !! k with
    | None => s = SNull
    | Some v => bind (Py v) = inr s
    end.
Proof.
  intros H. destruct (m !! k) as [v|] eqn:E; simpl.
  - destruct (H v eq_refl) as [s Hs]. eauto.
  - exists SNull. split; reflexivity.
Qed.





Lemma coalesce_not_null (s old : sqlval) : old <> SNull -> coalesce s old <> SNull.
Proof. now destruct s. Qed.

Lemma first_null_none_inv cells c v :
  first_null cells = None -> In (c, v) cells -> v <> SNull.
Proof.
  induction cells as [|[c' v'] cells IH]; simpl; [contradiction|].
  destruct (is_null v') eqn:E; [discriminate|].
  intros H [[= -> ->]|Hin]; [now destruct v|now apply IH].
Qed.

End UpdateFacts.

(** ** importBatch *)

Module ImportFacts.
Import Sqlite SqliteFacts EngineFacts InsertFacts CreateFacts.

Lemma mapped_data_legacy (m : gmap string json) :
  mapped_data (JObj m) = inr (JObj (legacy_values m)).
Proof. reflexivity. Qed.

Lemma mapped_data_not_object (v : json) :
  (forall m, v <> JObj m) -> mapped_data v = inl AttributeError.
Proof. destruct v; intros H; try reflexivity. now destruct (H m). Qed.

Lemma all_present_legacy (m : gmap string json) :
  all_present required_fields (JObj (legacy_values m)) =
  inr (forallb (fun f => negb (is_none (default JNull (m !! f))))
         required_fields).
Proof.
  unfold required_fields. cbn [all_present forallb].
  change (get (JObj (legacy_values m)) "name" JNull)
    with (inr (B := json) (A := exn) (default JNull (m !! "name"))).
  change (get (JObj (legacy_values m)) "axiom" JNull)
    with (inr (B := json) (A := exn) (default JNull (m !! "axiom"))).
  change (get (JObj (legacy_values m)) "rules" JNull)
    with (inr (B := json) (A := exn) (default JNull (m !! "rules"))).
  change (get (JObj (legacy_values m)) "iterations" JNull)
    with (inr (B := json) (A := exn) (default JNull (m !! "iterations"))).
  change (get (JObj (legacy_values m)) "angle" JNull)
    with (inr (B := json) (A := exn) (default JNull (m !! "angle"))).
  cbn [try].
  repeat (destruct (is_none _); cbn [negb andb]; [reflexivity|]).
  reflexivity.
Qed.

(** The inner [try] on a record that is a dict. *)
Lemma migrate_attempt_object (now : Z) (m : gmap string json) (st : progress) :
  migrate_attempt now (JObj m) st =
  if negb (forallb (fun f => negb (is_none (default JNull (m !! f))))
             required_fields)
  then inr (record_error st
              (MissingFields (default (JStr "unnamed") (m !! "name"))))
  else
    match insert insert_columns (import_params now m) (conn st) with
    | inr db1 => inr {| conn := db1;
                        migrated_count := migrated_count st + 1;
                        errors := errors st |}
    | inl (IntegrityError _) =>
        inr (record_error st (AlreadyExists (default JNull (m !! "name"))))
    | inl e => inl e
    end.
Proof.
  unfold migrate_attempt. rewrite mapped_data_legacy. cbn [try].
  rewrite all_present_legacy. cbn [try].
  destruct (negb _); reflexivity.
Qed.

(** One turn of the loop on a record that is a dict never raises. *)
Lemma migrate_plant_object (now : Z) (m : gmap string json) (st : progress) :
  migrate_plant now (JObj m) st =
  inr match migrate_attempt now (JObj m) st with
      | inr st1 => st1
      | inl e =>
          record_error st
            (ProcessingError (default (JStr "unnamed") (m !! "name")) e)
      end.
Proof. unfold migrate_plant. now destruct (migrate_attempt _ _ _). Qed.

(** One turn on anything else raises out of the [except] clause. *)
Lemma migrate_plant_not_object (now : Z) (v : json) (st : progress) :
  (forall m, v <> JObj m) -> migrate_plant now v st = inl AttributeError.
Proof.
  intros H. unfold migrate_plant, migrate_attempt.
  rewrite (mapped_data_not_object v H). cbn [try].
  destruct v; try reflexivity. now destruct (H m).
Qed.

(** A turn that does not raise either takes the record into the table or
    leaves the table alone and reports an error. *)
Lemma migrate_plant_cases (now : Z) (v : json) (st st' : progress) :
  migrate_plant now v st = inr st' ->
  exists m, v = JObj m /\
    ((exists values,
        bind_all (import_params now m) = inr values /\
        not_null_violation
          (new_row (sequence (conn st) + 1) insert_columns values) = None /\
        name_taken (new_row (sequence (conn st) + 1) insert_columns values)
          (plants (conn st)) = false /\
        migrated st st'
          (new_row (sequence (conn st) + 1) insert_columns values)) \/
     (exists e, skipped st st' e)).
Proof.
  intros H. destruct v as [| | | | | | |m];
    try (rewrite migrate_plant_not_object in H by discriminate; discriminate).
  exists m. split; [reflexivity|].
  rewrite migrate_plant_object, migrate_attempt_object in H.
  injection H as <-.
  destruct (negb _); [right; eexists; reflexivity|].
  destruct (insert _ _ _) as [e|db1] eqn:Hins.
  - right. destruct e; eexists; reflexivity.
  - left. apply insert_inv in Hins as (values & Hb & Hn & Ht & ->).
    exists values. repeat split; assumption.
Qed.

End ImportFacts.

(** ** What a statement that succeeded has done *)

Module OutcomeFacts.
Import Sqlite SqliteFacts EngineFacts InsertFacts CreateFacts.

Lemma bind_all_inv p ps vs :
  bind_all (p :: ps) = inr vs ->
  exists v vs', bind p = inr v /\ bind_all ps = inr vs' /\ vs = v :: vs'.
Proof.
  simpl. destruct (bind p) as [e|v]; [discriminate|]. simpl.
  destruct (bind_all ps) as [e|vs']; [discriminate|]. simpl.
  intros [= <-]. eauto.
Qed.

Lemma bind_all_nil_inv vs : bind_all [] = inr vs -> vs = [].
Proof. now intros [= <-]. Qed.

Lemma bind_set_inv c e set fs :
  bind_set ((c, e) :: set) = inr fs ->
  exists f fs', bind_expr c e = inr f /\ bind_set set = inr fs'
                /\ fs = (c, f) :: fs'.
Proof.
  simpl. destruct (bind_expr c e) as [x|f]; [discriminate|]. simpl.
  destruct (bind_set set) as [x|fs']; [discriminate|]. simpl.
  intros [= <-]. eauto.
Qed.

Lemma bind_error (p : param) (e : exn) :
  bind p = inl e ->
  e = OverflowError \/ e = InterfaceError \/ e = UnicodeEncodeError.
Proof.
  unfold bind. destruct p as [v|z|s]; [|discriminate|discriminate].
  destruct v; try destruct (int64 z); try destruct (encodable s);
    intros [= <-]; auto.
Qed.

Lemma bind_all_error (ps : list param) (e : exn) :
  bind_all ps = inl e ->
  e = OverflowError \/ e = InterfaceError \/ e = UnicodeEncodeError.
Proof.
  induction ps as [|p ps IH]; simpl; [discriminate|].
  destruct (bind p) as [e'|v] eqn:Hp; simpl.
  - intros [= <-]. eapply bind_error; eassumption.
  - destruct (bind_all ps) as [e'|vs]; simpl; [|discriminate].
    intros [= <-]. now apply IH.
Qed.

Lemma bind_set_error (set : list (string * expr)) (e : exn) :
  bind_set set = inl e ->
  e = OverflowError \/ e = InterfaceError \/ e = UnicodeEncodeError.
Proof.
  induction set as [|[c x] set IH]; simpl; [discriminate|].
  destruct (bind_expr c x) as [e'|f] eqn:Hx; simpl.
  - intros [= <-]. destruct x; simpl in Hx;
      destruct (bind p) as [e0|v] eqn:Hp; simpl in Hx; try discriminate;
      injection Hx as <-; eapply bind_error; eassumption.
  - destruct (bind_set set) as [e'|fs]; simpl; [|discriminate].
    intros [= <-]. now apply IH.
Qed.

Lemma bind_condition_error (w : condition) (e : exn) :
  bind_condition w = inl e ->
  e = OverflowError \/ e = InterfaceError \/ e = UnicodeEncodeError.
Proof.
  destruct w; simpl; destruct (bind p) as [e'|v] eqn:Hp; simpl;
    try discriminate; intros [= <-]; eapply bind_error; eassumption.
Qed.

(** An UPDATE that does not assign [name] cannot meet the UNIQUE index. *)
Lemma update_error set w db e :
  update set w db = inl e ->
  existsb (String.eqb "name") (map fst set) = false ->
  e = OverflowError \/ e = InterfaceError \/ e = UnicodeEncodeError
  \/ exists c, e = IntegrityError (NotNull c).
Proof.
  intros H Hname.
  destruct (bind_set set) as [e'|fs] eqn:Hs.
  - unfold update in H. rewrite Hs in H. injection H as <-.
    destruct (bind_set_error _ _ Hs) as [?|[?|?]]; auto.
  - destruct (bind_condition w) as [e'|matches] eqn:Hw.
    + unfold update in H. rewrite Hs, Hw in H. injection H as <-.
      destruct (bind_condition_error _ _ Hw) as [?|[?|?]]; auto.
    + rewrite (update_bound set w db fs matches Hs Hw) in H.
      destruct (omap _ _); [|injection H as <-; eauto].
      rewrite Hname in H. discriminate H.
Qed.

Lemma update_inv set w db db' :
  update set w db = inr db' ->
  exists fs matches,
    bind_set set = inr fs /\ bind_condition w = inr matches /\
    (forall r, In r (plants db) -> matches r = true ->
               not_null_violation (assign fs r) = None) /\
    (existsb (String.eqb "name") (map fst set) = true ->
     forall r, In r (plants db) -> matches r = true ->
               name_clash (assign fs r) (map (rewritten matches fs) (plants db))
               = false) /\
    db' = {| plants := map (rewritten matches fs) (plants db);
             sequence := sequence db |}.
Proof.
  intros H. destruct (bind_set set) as [e|fs] eqn:Hs;
    [unfold update in H; rewrite Hs in H; discriminate|].
  destruct (bind_condition w) as [e|matches] eqn:Hw;
    [unfold update in H; rewrite Hs, Hw in H; discriminate|].
  rewrite (update_bound set w db fs matches Hs Hw) in H.
  destruct (omap _ _) eqn:Ho; [|discriminate].
  exists fs, matches. split; [reflexivity|]. split; [reflexivity|].
  split; [|split].
  - intros r Hr Hm. apply (omap_nil_inv _ _ _ Ho).
    apply in_map, filter_In. auto.
  - intros Hname r Hr Hm. rewrite Hname in H. cbn [andb] in H.
    destruct (existsb _ (map _ _)) eqn:He; [discriminate|].
    destruct (name_clash _ _) eqn:Hc; [|reflexivity].
    assert (existsb (fun r0 => name_clash r0 (map (rewritten matches fs) (plants db)))
              (map (assign fs) (List.filter matches (plants db))) = true).
    { apply existsb_exists. exists (assign fs r). split; [|exact Hc].
      apply in_map, filter_In. auto. }
    congruence.
  - destruct (_ && _); [discriminate|]. now injection H as <-.
Qed.

End OutcomeFacts.

(** ** The constraints of the schema are kept *)

Module ConsistencyFacts.
Import Sqlite SqliteFacts EngineFacts InsertFacts CreateFacts OutcomeFacts.

Lemma new_row_id (rowid : Z) (columns : list string) (values : list sqlval) :
  cell (new_row rowid columns values) "id" = SInt rowid.
Proof. unfold new_row, cell. now rewrite lookup_insert_eq. Qed.

Lemma existsb_false {A} (f : A -> bool) (l : list A) (x : A) :
  existsb f l = false -> In x l -> f x = false.
Proof.
  intros H Hx. destruct (f x) eqn:E; [|reflexivity].
  assert (existsb f l = true) by (apply existsb_exists; eauto). congruence.
Qed.

Lemma eqb_ids (a b : sqlval) (i j : Z) :
  a = SInt i -> b = SInt j -> eqb a b = true -> a = b.
Proof. intros -> -> H. apply eqb_int in H. now subst. Qed.

(** A row that passed the checks of an INSERT joins a consistent table. *)
Lemma append_consistent (db : database) (r : row) :
  consistent db ->
  not_null_violation r = None ->
  cell r "id" = SInt (sequence db + 1) ->
  name_taken r (plants db) = false ->
  consistent {| plants := plants db ++ [r]; sequence := sequence db + 1 |}.
Proof.
  intros Hdb Hn Hid Ht.
  assert (Hfree : forall r0, In r0 (plants db) ->
                    eqb (cell r0 "name") (cell r "name") = false).
  { intros r0 H0. destruct (eqb _ _) eqn:E; [|reflexivity].
    assert (name_taken r (plants db) = true)
      by (apply existsb_exists; eauto).
    congruence. }
  split; cbn [plants sequence].
  - intros r0 H0. apply in_app_or in H0 as [H0|[<-|[]]]; [|exact Hn].
    now apply (filled db Hdb).
  - intros r0 H0. apply in_app_or in H0 as [H0|[<-|[]]].
    + destruct (numbered db Hdb r0 H0) as (i & Hi & Hle).
      exists i. split; [exact Hi|lia].
    + exists (sequence db + 1). split; [exact Hid|lia].
  - rewrite map_app. cbn [map]. apply NoDup_app. split; [|split].
    + exact (distinct_ids db Hdb).
    + intros x Hx Hx'. apply list_elem_of_In, in_map_iff in Hx as (r0 & <- & H0).
      apply list_elem_of_singleton in Hx'.
      destruct (numbered db Hdb r0 H0) as (i & Hi & Hle).
      rewrite Hi, Hid in Hx'. injection Hx' as ->. lia.
    + repeat constructor. inversion 1.
  - intros r1 r2 H1 H2 He.
    apply in_app_or in H1 as [H1|[<-|[]]];
      apply in_app_or in H2 as [H2|[<-|[]]].
    + now apply (distinct_names db Hdb).
    + rewrite (Hfree r1 H1) in He. discriminate.
    + rewrite eqb_sym, (Hfree r2 H2) in He. discriminate.
    + reflexivity.
Qed.

Lemma insert_consistent columns params db db' :
  consistent db -> insert columns params db = inr db' -> consistent db'.
Proof.
  intros Hdb H. apply insert_inv in H as (values & _ & Hn & Ht & ->).
  apply append_consistent; auto using new_row_id.
Qed.

(** An UPDATE that leaves the ids alone keeps a consistent table
    consistent. *)
Lemma update_consistent set w db db' :
  consistent db ->
  existsb (String.eqb "id") (map fst set) = false ->
  update set w db = inr db' ->
  consistent db'.
Proof.
  intros Hdb Hnoid H.
  apply update_inv in H as (fs & matches & Hs & Hw & Hnn & Hclash & ->).
  assert (Hid : forall r, cell (rewritten matches fs r) "id" = cell r "id").
  { intros r. unfold rewritten. destruct (matches r); [|reflexivity].
    rewrite cell_assign, assigned_none; [reflexivity|].
    now rewrite (bind_set_columns set fs Hs). }
  assert (Hint : forall r, In r (plants db) ->
                   exists i, cell (rewritten matches fs r) "id" = SInt i)
    by (intros r Hr; rewrite Hid;
        destruct (numbered db Hdb r Hr) as (i & Hi & _); eauto).
  split; cbn [plants sequence].
  - intros r' Hr'. apply in_map_iff in Hr' as (r & <- & Hr).
    unfold rewritten. destruct (matches r) eqn:Hm.
    + now apply Hnn.
    + now apply (filled db Hdb).
  - intros r' Hr'. apply in_map_iff in Hr' as (r & <- & Hr).
    rewrite Hid. now apply (numbered db Hdb).
  - rewrite map_map. erewrite map_ext; [exact (distinct_ids db Hdb)|].
    intros r. apply Hid.
  - intros r1' r2' H1 H2 He.
    apply in_map_iff in H1 as (r1 & <- & H1).
    apply in_map_iff in H2 as (r2 & <- & H2).
    destruct (existsb (String.eqb "name") (map fst set)) eqn:Hname.
    + specialize (Hclash eq_refl).
      destruct (matches r1) eqn:Hm1; [|destruct (matches r2) eqn:Hm2].
      * pose proof (Hclash r1 H1 Hm1) as Hc. unfold name_clash in Hc.
        assert (Hx : In (rewritten matches fs r2)
                       (map (rewritten matches fs) (plants db)))
          by now apply in_map.
        assert (Hf := existsb_false _ _ _ Hc Hx). cbv beta in Hf.
        replace (assign fs r1) with (rewritten matches fs r1) in Hf
          by (unfold rewritten; now rewrite Hm1).
        rewrite (eqb_sym (cell (rewritten matches fs r2) "name")), He in Hf.
        rewrite andb_true_r in Hf. apply negb_false_iff in Hf.
        destruct (Hint r1 H1) as (i & Hi). destruct (Hint r2 H2) as (j & Hj).
        symmetry. eapply eqb_ids; eassumption.
      * pose proof (Hclash r2 H2 Hm2) as Hc. unfold name_clash in Hc.
        assert (Hx : In (rewritten matches fs r1)
                       (map (rewritten matches fs) (plants db)))
          by now apply in_map.
        assert (Hf := existsb_false _ _ _ Hc Hx). cbv beta in Hf.
        replace (assign fs r2) with (rewritten matches fs r2) in Hf
          by (unfold rewritten; now rewrite Hm2).
        rewrite He in Hf.
        rewrite andb_true_r in Hf. apply negb_false_iff in Hf.
        destruct (Hint r1 H1) as (i & Hi). destruct (Hint r2 H2) as (j & Hj).
        eapply eqb_ids; eassumption.
      * rewrite !Hid. unfold rewritten in He. rewrite Hm1, Hm2 in He.
        now apply (distinct_names db Hdb).
    + assert (Hkeep : forall r, cell (rewritten matches fs r) "name"
                                = cell r "name").
      { intros r. unfold rewritten. destruct (matches r); [|reflexivity].
        rewrite cell_assign, assigned_none; [reflexivity|].
        now rewrite (bind_set_columns set fs Hs). }
      rewrite !Hkeep in He. rewrite !Hid.
      now apply (distinct_names db Hdb).
Qed.

End ConsistencyFacts.

(** ** What a handler that answered has done *)

Module HandlerFacts.
Import Sqlite SqliteFacts OrderFacts EngineFacts InsertFacts CreateFacts.
Import UpdateFacts ImportFacts OutcomeFacts ConsistencyFacts.

Ltac destruct_try :=
  repeat match goal with
         | |- context [try ?x _] =>
             destruct x as [?|?] eqn:?; cbn [try]; [discriminate|]
         end.

Lemma create_values_shape (data : json) values :
  create_values data = inr values ->
  exists p1 p2 p3 p4 p5 p6 p7 p8 p9 p10 p11 p12,
    values = [("axiom", p1); ("rules", p2); ("iterations", p3); ("angle", p4);
              ("angle_variation", p5); ("length_variation", p6);
              ("length_tapering", p7); ("leaf_probability", p8);
              ("leaf_generation_threshold", p9); ("length", p10);
              ("thickness", p11); ("tapering", p12)].
Proof.
  unfold create_values. destruct_try. intros [= <-].
  do 12 eexists. reflexivity.
Qed.

Lemma create_insert_inv now data db db1 :
  create_insert now data db = inr db1 ->
  exists vn p1 p2 p3 p4 p5 p6 p7 p8 p9 p10 p11 p12,
    getitem data "name" = inr vn /\
    insert insert_columns
      [Py vn; Int64 now; p1; p2; p3; p4; p5; p6; p7; p8; p9; p10; p11; p12]
      db = inr db1.
Proof.
  unfold create_insert.
  destruct (getitem data "name") as [e|vn]; [discriminate|]. cbn [try].
  destruct (create_values data) as [e|values] eqn:Hv; [discriminate|].
  cbn [try].
  destruct (create_values_shape data values Hv)
    as (p1 & p2 & p3 & p4 & p5 & p6 & p7 & p8 & p9 & p10 & p11 & p12 & ->).
  cbn [map snd]. intros H. exists vn. do 12 eexists. split; [reflexivity|].
  exact H.
Qed.

Lemma create_update_inv now data db db1 :
  create_update now data db = inr db1 ->
  exists vn set,
    getitem data "name" = inr vn /\
    existsb (String.eqb "name") (map fst set) = false /\
    existsb (String.eqb "id") (map fst set) = false /\
    update (("timestamp", Param (Int64 now)) :: set) (NameIs (Py vn)) db
    = inr db1.
Proof.
  unfold create_update.
  destruct (create_values data) as [e|values] eqn:Hv; [discriminate|].
  cbn [try].
  destruct (getitem data "name") as [e|vn]; [discriminate|]. cbn [try].
  destruct (create_values_shape data values Hv)
    as (p1 & p2 & p3 & p4 & p5 & p6 & p7 & p8 & p9 & p10 & p11 & p12 & ->).
  intros H. exists vn. eexists. split; [reflexivity|].
  split; [|split; [|exact H]]; reflexivity.
Qed.

Lemma create_update_error now data db e :
  create_update now data db = inl e ->
  forall c, e <> IntegrityError (Unique c).
Proof.
  unfold create_update.
  destruct (create_values data) as [e'|values] eqn:Hv.
  - cbn [try]. intros [= <-] c. revert Hv. unfold create_values.
    unfold getitem, get, entry.
    destruct data; cbn [try]; try (intros [= <-]; discriminate).
    destruct (m !! "axiom"); cbn [try]; [|intros [= <-]; discriminate].
    destruct (m !! "rules"); cbn [try]; [|intros [= <-]; discriminate].
    destruct (m !! "iterations"); cbn [try]; [|intros [= <-]; discriminate].
    destruct (m !! "angle"); cbn [try]; [|intros [= <-]; discriminate].
    discriminate.
  - cbn [try].
    destruct (create_values_shape data values Hv)
      as (p1 & p2 & p3 & p4 & p5 & p6 & p7 & p8 & p9 & p10 & p11 & p12 & ->).
    destruct (getitem data "name") as [e'|vn] eqn:Hn; cbn [try].
    + intros [= <-] c. unfold getitem in Hn.
      destruct data; try (injection Hn as <-; discriminate).
      destruct (m !! "name"); [discriminate|].
      injection Hn as <-. discriminate.
    + intros H c. apply update_error in H; [|reflexivity].
      destruct H as [->|[->|[->|[c' ->]]]]; discriminate.
Qed.

Lemma head_In {A} (l : list A) (x : A) : head l = Some x -> In x l.
Proof. destruct l; simpl; intros [= <-]. now left. Qed.

Lemma after_commit_store code p db : (after_commit code p db).2 = db.
Proof. unfold after_commit. now destruct p. Qed.

Lemma first_missing_error fields data e :
  first_missing fields data = inl e -> e = TypeError.
Proof.
  induction fields as [|f fields IH]; simpl; [discriminate|].
  destruct (contains f data) as [e'|b] eqn:Hc; cbn [try].
  - intros [= <-]. destruct data; simpl in Hc; congruence.
  - destruct b; [exact IH|discriminate].
Qed.

Lemma fetch_by_name_error latest data db e :
  fetch_by_name latest data db = inl e ->
  forall c, e <> IntegrityError c.
Proof.
  unfold fetch_by_name, select.
  destruct (getitem data "name") as [e'|vn] eqn:Hn; cbn [try].
  - intros [= <-] c. unfold getitem in Hn.
    destruct data; try (injection Hn as <-; discriminate).
    destruct (m !! "name"); [discriminate|].
    injection Hn as <-. discriminate.
  - destruct (bind_condition (NameIs (Py vn))) as [e'|matches] eqn:Hw;
      cbn [try]; [|discriminate].
    intros [= <-] c. destruct (bind_condition_error _ _ Hw) as [->|[->| ->]];
      discriminate.
Qed.

(** The row [create_plant] answers with is stored and carries [now]. *)
Lemma create_plant_answer now data db code body db' :
  create_plant now data db = (Resp code body, db') -> code <> 400 ->
  exists r, In r (plants db') /\ body = plant_json r
            /\ cell r "timestamp" = SInt now.
Proof.
  unfold create_plant. destruct (truthy data); cbn [negb];
    [|intros [= <- _ _]; congruence].
  destruct (first_missing required_fields data) as [e|[f|]];
    [discriminate|intros [= <- _ _]; congruence|].
  destruct (create_insert now data db) as [e|db1] eqn:Hins.
  - destruct e; try discriminate.
    destruct (create_update now data db) as [e|db1] eqn:Hup; [discriminate|].
    unfold after_commit.
    destruct (fetch_by_name false data db1) as [e|[r|]] eqn:Hf;
      cbn [respond]; try discriminate.
    intros [= <- <- <-] _. exists r.
    apply create_update_inv in Hup as (vn & set & Hn & _ & _ & Hup).
    apply update_inv in Hup as (fs & matches & Hs & Hw & _ & _ & ->).
    apply bind_set_inv in Hs as (f & fs' & Hf0 & _ & ->).
    cbn [bind_expr] in Hf0. rewrite bind_int64 in Hf0. cbn [try] in Hf0.
    injection Hf0 as <-.
    unfold fetch_by_name, select in Hf. rewrite Hn in Hf. cbn [try] in Hf.
    rewrite Hw in Hf. cbn [try plants] in Hf. injection Hf as Hf.
    apply head_filter_in in Hf as [Hin Hm].
    split; [exact Hin|]. split; [reflexivity|].
    cbn [plants] in Hin. apply in_map_iff in Hin as (r0 & <- & _).
    unfold rewritten in *. destruct (matches r0) eqn:Hm0; [|congruence].
    rewrite cell_assign. reflexivity.
  - unfold after_commit.
    destruct (fetch_by_name true data db1) as [e|[r|]] eqn:Hf;
      cbn [respond]; try discriminate.
    intros [= <- <- <-] _. exists r.
    apply create_insert_inv in Hins
      as (vn & p1 & p2 & p3 & p4 & p5 & p6 & p7 & p8 & p9 & p10 & p11 & p12
          & Hn & Hins).
    apply insert_inv in Hins as (values & Hb & Hnn & Ht & ->).
    repeat match goal with
           | H : bind_all (_ :: _) = inr _ |- _ =>
               apply bind_all_inv in H as (? & ? & ? & H & ->)
           end.
    apply bind_all_nil_inv in Hb as ->.
    match goal with H : bind (Int64 now) = inr _ |- _ =>
      rewrite bind_int64 in H; injection H as <- end.
    rewrite new_row_name_taken in Ht.
    unfold fetch_by_name, select in Hf. rewrite Hn in Hf. cbn [try] in Hf.
    cbn [bind_condition] in Hf.
    match goal with H : bind (Py vn) = inr _ |- _ => rewrite H in Hf end.
    cbn [try plants] in Hf. injection Hf as Hf.
    assert (Hin := head_In _ _ Hf).
    apply (Permutation_in _ (order_perm _)) in Hin.
    apply filter_In in Hin as [Hin Hm].
    apply in_app_or in Hin as [Hin|[<-|[]]].
    + rewrite (existsb_false _ _ _ Ht Hin) in Hm. discriminate.
    + split; [apply in_or_app; right; now left|]. split; reflexivity.
Qed.

(** [create_plant] never answers with a violation of the UNIQUE index. *)
Lemma create_plant_no_unique now data db c :
  (create_plant now data db).1 <> Failed (IntegrityError (Unique c)).
Proof.
  unfold create_plant. destruct (truthy data); cbn [negb]; [|discriminate].
  destruct (first_missing required_fields data) as [e|[f|]] eqn:Hfm.
  - apply first_missing_error in Hfm as ->. discriminate.
  - discriminate.
  - destruct (create_insert now data db) as [e|db1] eqn:Hins.
    + destruct e; try discriminate.
      destruct (create_update now data db) as [e|db1] eqn:Hup.
      * cbn [fst]. intros [= ->]. now apply (create_update_error _ _ _ _ Hup c).
      * unfold after_commit.
        destruct (fetch_by_name false data db1) as [e|[r|]] eqn:Hf;
          cbn [fst respond]; try discriminate.
        intros [= ->]. now apply (fetch_by_name_error _ _ _ _ Hf (Unique c)).
    + unfold after_commit.
      destruct (fetch_by_name true data db1) as [e|[r|]] eqn:Hf;
        cbn [fst respond]; try discriminate.
      intros [= ->]. now apply (fetch_by_name_error _ _ _ _ Hf (Unique c)).
Qed.

(** [create_plant] keeps a consistent store consistent. *)
Lemma create_plant_consistent now data db :
  consistent db -> consistent (create_plant now data db).2.
Proof.
  intros Hdb. unfold create_plant.
  destruct (truthy data); cbn [negb]; [|exact Hdb].
  destruct (first_missing required_fields data) as [e|[f|]];
    [exact Hdb|exact Hdb|].
  destruct (create_insert now data db) as [e|db1] eqn:Hins.
  - destruct e; try exact Hdb.
    destruct (create_update now data db) as [e|db1] eqn:Hup; [exact Hdb|].
    rewrite after_commit_store.
    apply create_update_inv in Hup as (vn & set & _ & _ & Hid & Hup).
    eapply update_consistent; [exact Hdb| |exact Hup].
    cbn [map fst existsb]. exact Hid.
  - rewrite after_commit_store.
    apply create_insert_inv in Hins
      as (vn & p1 & p2 & p3 & p4 & p5 & p6 & p7 & p8 & p9 & p10 & p11 & p12
          & _ & Hins).
    eapply insert_consistent; eassumption.
Qed.

Lemma update_set_shape now data set :
  update_set now data = inr set ->
  exists p1 p2 p3 p4 p5 p6 p7 p8 p9 p10 p11 p12 p13,
    set = [("name", Coalesce p1 "name");
           ("timestamp", Param (Int64 now));
           ("axiom", Coalesce p2 "axiom"); ("rules", Coalesce p3 "rules");
           ("iterations", Coalesce p4 "iterations");
           ("angle", Coalesce p5 "angle");
           ("angle_variation", Coalesce p6 "angle_variation");
           ("length_variation", Coalesce p7 "length_variation");
           ("length_tapering", Coalesce p8 "length_tapering");
           ("leaf_probability", Coalesce p9 "leaf_probability");
           ("leaf_generation_threshold",
            Coalesce p10 "leaf_generation_threshold");
           ("length", Coalesce p11 "length");
           ("thickness", Coalesce p12 "thickness");
           ("tapering", Coalesce p13 "tapering")].
Proof.
  unfold update_set. destruct_try. intros [= <-].
  do 13 eexists. reflexivity.
Qed.

(** The row [update_plant] answers with is stored, is the row of the id
    and carries [now]. *)
Lemma update_plant_answer now plant_id data db code body db' :
  update_plant now plant_id data db = (Resp code body, db') -> code = 200 ->
  exists r, In r (plants db') /\ body = plant_json r
            /\ eqb (cell r "id") (SInt plant_id) = true
            /\ cell r "timestamp" = SInt now.
Proof.
  unfold update_plant. destruct (truthy data); cbn [negb];
    [|intros [= <- _ _]; discriminate].
  destruct (fetch_by_id plant_id db) as [e|[r0|]];
    [discriminate| |intros [= <- _ _]; discriminate].
  destruct (update_set now data) as [e|set] eqn:Hset; cbn [try];
    [discriminate|].
  destruct (update set (IdIs (Int64 plant_id)) db) as [e|db1] eqn:Hup;
    [discriminate|].
  unfold after_commit, fetch_by_id, select. cbn [bind_condition].
  rewrite bind_int64. cbn [try].
  destruct (fetchone _) as [r|] eqn:Hf; cbn [respond]; [|discriminate].
  intros [= <- <- <-] _. exists r.
  apply head_filter_in in Hf as [Hin Hm].
  split; [exact Hin|]. split; [reflexivity|]. split; [exact Hm|].
  destruct (update_set_shape now data set Hset)
    as (p1 & p2 & p3 & p4 & p5 & p6 & p7 & p8 & p9 & p10 & p11 & p12 & p13
        & ->).
  apply update_inv in Hup as (fs & matches & Hs & Hw & _ & _ & ->).
  cbn [bind_condition] in Hw. rewrite bind_int64 in Hw. cbn [try] in Hw.
  injection Hw as <-.
  apply bind_set_inv in Hs as (f1 & fs1 & _ & Hs & ->).
  apply bind_set_inv in Hs as (f2 & fs2 & Hf2 & Hs & ->).
  cbn [bind_expr] in Hf2. rewrite bind_int64 in Hf2. cbn [try] in Hf2.
  injection Hf2 as <-.
  cbn [plants] in Hin. apply in_map_iff in Hin as (r1 & <- & Hin).
  unfold rewritten.
  destruct (eqb (cell r1 "id") (SInt plant_id)) eqn:Hm1.
  - rewrite cell_assign. reflexivity.
  - unfold rewritten in Hm. rewrite Hm1 in Hm. congruence.
Qed.

(** [update_plant] keeps a consistent store consistent. *)
Lemma update_plant_consistent now plant_id data db :
  consistent db -> consistent (update_plant now plant_id data db).2.
Proof.
  intros Hdb. unfold update_plant.
  destruct (truthy data); cbn [negb]; [|exact Hdb].
  destruct (fetch_by_id plant_id db) as [e|[r0|]]; [exact Hdb| |exact Hdb].
  destruct (update_set now data) as [e|set] eqn:Hset; cbn [try];
    [exact Hdb|].
  destruct (update set (IdIs (Int64 plant_id)) db) as [e|db1] eqn:Hup;
    [exact Hdb|].
  rewrite after_commit_store.
  destruct (update_set_shape now data set Hset)
    as (p1 & p2 & p3 & p4 & p5 & p6 & p7 & p8 & p9 & p10 & p11 & p12 & p13
        & ->).
  eapply update_consistent; [exact Hdb| |exact Hup]. reflexivity.
Qed.

(** The loop raises only on an element that is no dict. *)
Lemma migrate_plants_error clock i batch st e :
  migrate_plants clock i batch st = inl e -> e = AttributeError.
Proof.
  revert i st. induction batch as [|v batch IH]; intros i st; simpl;
    [discriminate|].
  destruct (migrate_plant (clock i) v st) as [e'|st1] eqn:Hv; cbn [try].
  - intros [= <-]. destruct v;
      try (rewrite migrate_plant_not_object in Hv by discriminate; congruence).
    rewrite migrate_plant_object in Hv. discriminate.
  - apply IH.
Qed.

(** On a batch of dicts the loop reaches its end. *)
Lemma migrate_plants_objects clock i batch st :
  Forall (fun v => exists m, v = JObj m) batch ->
  exists st', migrate_plants clock i batch st = inr st'.
Proof.
  intros H. revert i st. induction H as [|v batch [m ->] _ IH]; intros i st.
  - simpl. eauto.
  - simpl. rewrite migrate_plant_object. cbn [try]. apply IH.
Qed.

(** The loop only ever appends rows to the table. *)
Lemma migrate_plants_grows clock i batch st st' :
  migrate_plants clock i batch st = inr st' ->
  exists added, plants (conn st') = plants (conn st) ++ added.
Proof.
  revert i st. induction batch as [|v batch IH]; intros i st; simpl.
  - intros [= <-]. exists []. now rewrite app_nil_r.
  - destruct (migrate_plant (clock i) v st) as [e|st1] eqn:Hv; cbn [try];
      [discriminate|].
    intros H. destruct (IH _ _ H) as [added Hadd].
    apply migrate_plant_cases in Hv as (m & -> & [(values & _ & _ & _ & Hm)|[e He]]).
    + destruct Hm as (Hc & _ & _). rewrite Hc in Hadd. cbn [plants] in Hadd.
      rewrite <- app_assoc in Hadd. eauto.
    + unfold skipped in He. subst st1. eauto.
Qed.

Lemma migrate_plants_consistent clock i batch st st' :
  consistent (conn st) ->
  migrate_plants clock i batch st = inr st' ->
  consistent (conn st').
Proof.
  revert i st. induction batch as [|v batch IH]; intros i st Hdb; simpl.
  - now intros [= <-].
  - destruct (migrate_plant (clock i) v st) as [e|st1] eqn:Hv; cbn [try];
      [discriminate|].
    apply IH.
    apply migrate_plant_cases in Hv
      as (m & -> & [(values & _ & Hn & Ht & Hm)|[e He]]).
    + destruct Hm as (-> & _ & _).
      apply append_consistent; auto using new_row_id.
    + unfold skipped in He. now subst st1.
Qed.

(** The store [migrate_from_localstorage] leaves is the store it found or
    what the loop made of it. *)
Lemma migrate_store clock data db :
  (migrate_from_localstorage clock data db).2 = db \/
  exists batch st,
    migrate_plants clock 0 batch
      {| conn := db; migrated_count := 0; errors := [] |} = inr st /\
    (migrate_from_localstorage clock data db).2 = conn st.
Proof.
  unfold migrate_from_localstorage.
  destruct (if negb (truthy data) then _ else _) as [e|[|]]; auto.
  destruct (getitem data "plants") as [e|v]; auto.
  destruct v; auto.
  destruct (migrate_plants _ _ _ _) as [e|st] eqn:H; eauto.
Qed.

Lemma contains_error k v e : contains k v = inl e -> e = TypeError.
Proof. destruct v; simpl; congruence. Qed.

Lemma getitem_error v k e :
  getitem v k = inl e -> e = TypeError \/ e = KeyError k.
Proof.
  destruct v; simpl; try (intros [= <-]; auto).
  destruct (m !! k); intros [= <-]; auto.
Qed.

(** What [migrate_from_localstorage] can fail with. *)
Lemma migrate_failure clock data db e :
  (migrate_from_localstorage clock data db).1 = Failed e ->
  e = TypeError \/ e = KeyError "plants" \/ e = AttributeError.
Proof.
  unfold migrate_from_localstorage.
  destruct (truthy data); cbn [negb]; [|discriminate].
  destruct (contains "plants" data) as [e'|b] eqn:Hc; cbn [try].
  - intros [= <-]. left. eapply contains_error; eassumption.
  - destruct b; cbn [negb]; [|discriminate].
    destruct (getitem data "plants") as [e'|v] eqn:Hg.
    + intros [= <-]. destruct (getitem_error _ _ _ Hg); auto.
    + destruct v; try discriminate.
      destruct (migrate_plants _ _ _ _) as [e'|st] eqn:H; [|discriminate].
      intros [= <-]. right. right. eapply migrate_plants_error; eassumption.
Qed.






End HandlerFacts.

(** ** The sample stores *)

Module SampleFacts.

Lemma grove_rows : plants grove = [oak_row; elm_row] /\ sequence grove = 2.
Proof. split; reflexivity. Qed.

Lemma grove_consistent : consistent grove.
Proof.
  destruct grove_rows as [Hrows Hseq].
  assert (Hoak : cell oak_row "name" = SText "oak") by reflexivity.
  assert (Helm : cell elm_row "name" = SText "elm") by reflexivity.
  assert (Hid1 : cell oak_row "id" = SInt 1) by reflexivity.
  assert (Hid2 : cell elm_row "id" = SInt 2) by reflexivity.
  split; rewrite ?Hrows, ?Hseq.
  - intros r [<-|[<-|[]]]; reflexivity.
  - intros r [<-|[<-|[]]]; [exists 1|exists 2]; (split; [assumption|lia]).
  - cbn [map]. rewrite Hid1, Hid2. repeat constructor.
    + intros H. apply elem_of_cons in H as [H|H]; [discriminate H|inversion H].
    + inversion 1.
  - intros r r' [<-|[<-|[]]] [<-|[<-|[]]]; try reflexivity;
      rewrite Hoak, Helm; intros He; discriminate He.
Qed.

End SampleFacts.

(** ** Looking a row up *)

Module LookupFacts.
Import Sqlite SqliteFacts EngineFacts ConsistencyFacts HandlerFacts.

Lemma filter_none {A} (f : A -> bool) (l : list A) :
  (forall x, In x l -> f x = false) -> List.filter f l = [].
Proof.
  induction l as [|a l IH]; simpl; intros H; [reflexivity|].
  rewrite (H a) by now left. apply IH. intros x Hx. apply H. now right.
Qed.

Lemma filter_all {A} (f : A -> bool) (l : list A) :
  (forall x, In x l -> f x = true) -> List.filter f l = l.
Proof.
  induction l as [|a l IH]; simpl; intros H; [reflexivity|].
  rewrite (H a) by now left. f_equal. apply IH. intros x Hx. apply H.
  now right.
Qed.

(** In a table with distinct ids, a test that only rows of one id pass is
    passed by one row at most. *)
Lemma split_unique (f : row -> bool) (l : list row) (r : row) :
  NoDup (map (fun a => cell a "id") l) ->
  (forall a, In a l -> f a = true -> cell a "id" = cell r "id") ->
  In r l ->
  exists l1 l2, l = l1 ++ r :: l2 /\
    (forall a, In a l1 -> f a = false) /\
    (forall a, In a l2 -> f a = false).
Proof.
  intros Hnd Hid Hr. apply in_split in Hr as (l1 & l2 & ->).
  exists l1, l2. split; [reflexivity|].
  rewrite map_app in Hnd. cbn [map] in Hnd.
  apply NoDup_app in Hnd as (_ & H1 & H2). apply NoDup_cons in H2 as [H2 _].
  split.
  - intros a Ha. destruct (f a) eqn:E; [|reflexivity]. exfalso.
    apply (H1 (cell a "id")).
    + apply list_elem_of_In, in_map_iff. eauto.
    + rewrite (Hid a) by (auto using in_or_app). apply elem_of_cons. now left.
  - intros a Ha. destruct (f a) eqn:E; [|reflexivity]. exfalso.
    apply H2. rewrite <- (Hid a).
    + apply list_elem_of_In, in_map_iff. eauto.
    + apply in_or_app. right. now right.
    + exact E.
Qed.

Lemma filter_split {A} (f : A -> bool) (l1 l2 : list A) (r : A) :
  (forall a, In a l1 -> f a = false) ->
  (forall a, In a l2 -> f a = false) ->
  f r = true ->
  List.filter f (l1 ++ r :: l2) = [r] /\
  List.filter (fun a => negb (f a)) (l1 ++ r :: l2) = l1 ++ l2.
Proof.
  intros H1 H2 Hr. rewrite !List.filter_app. cbn [List.filter].
  rewrite Hr. cbn [negb].
  rewrite (filter_none f l1 H1), (filter_none f l2 H2).
  rewrite !filter_all; [auto| |];
    intros a Ha; [rewrite (H2 a Ha)|rewrite (H1 a Ha)]; reflexivity.
Qed.

Lemma bind_route_id (plant_id : Z) :
  int64 plant_id = true -> bind (Py (JInt plant_id)) = inr (SInt plant_id).
Proof. intros H. unfold bind. now rewrite H. Qed.

Lemma bind_route_id_overflow (plant_id : Z) :
  int64 plant_id = false -> bind (Py (JInt plant_id)) = inl OverflowError.
Proof. intros H. unfold bind. now rewrite H. Qed.

Lemma bind_route_name (name : string) :
  bind (Text name) = inr (SText name).
Proof. reflexivity. Qed.

(** The test of [WHERE id = ?] on the rows of a consistent store. *)
Lemma id_matches (db : database) (r : row) (plant_id : Z) :
  consistent db -> In r (plants db) ->
  eqb (cell r "id") (SInt plant_id) = true <-> cell r "id" = SInt plant_id.
Proof.
  intros Hdb Hr. destruct (numbered db Hdb r Hr) as (i & Hi & _).
  rewrite Hi, eqb_int. split; [now intros ->|now intros [= ->]].
Qed.

(** The test of [WHERE name = ?] for a string. *)
Lemma name_matches (r : row) (name : string) :
  eqb (cell r "name") (SText name) = true <-> cell r "name" = SText name.
Proof.
  split.
  - destruct (cell r "name") as [|z|q|s]; simpl; try discriminate.
    destruct (String.compare s name) eqn:E; try discriminate.
    apply String.compare_eq_iff in E. now subst.
  - intros ->. apply eqb_refl. discriminate.
Qed.

Lemma select_id (db : database) (plant_id : Z) (r : row) :
  consistent db -> In r (plants db) -> cell r "id" = SInt plant_id ->
  exists l1 l2,
    plants db = l1 ++ r :: l2 /\
    List.filter (fun a => eqb (cell a "id") (SInt plant_id)) (plants db) = [r] /\
    List.filter (fun a => negb (eqb (cell a "id") (SInt plant_id))) (plants db)
    = l1 ++ l2.
Proof.
  intros Hdb Hr Hid.
  destruct (split_unique (fun a => eqb (cell a "id") (SInt plant_id))
              (plants db) r (distinct_ids db Hdb)) as (l1 & l2 & E & H1 & H2).
  - intros a Ha Hm. apply (id_matches db a plant_id Hdb Ha) in Hm. congruence.
  - exact Hr.
  - exists l1, l2. split; [exact E|]. rewrite E. apply filter_split; auto.
    rewrite Hid. apply eqb_refl. discriminate.
Qed.

Lemma select_name (db : database) (name : string) (r : row) :
  consistent db -> In r (plants db) -> cell r "name" = SText name ->
  exists l1 l2,
    plants db = l1 ++ r :: l2 /\
    List.filter (fun a => eqb (cell a "name") (SText name)) (plants db) = [r] /\
    List.filter (fun a => negb (eqb (cell a "name") (SText name))) (plants db)
    = l1 ++ l2.
Proof.
  intros Hdb Hr Hn.
  destruct (split_unique (fun a => eqb (cell a "name") (SText name))
              (plants db) r (distinct_ids db Hdb)) as (l1 & l2 & E & H1 & H2).
  - intros a Ha Hm. apply (distinct_names db Hdb a r Ha Hr).
    now rewrite Hn.
  - exact Hr.
  - exists l1, l2. split; [exact E|]. rewrite E. apply filter_split; auto.
    rewrite Hn. apply eqb_refl. discriminate.
Qed.

(** A part of a consistent table is a consistent table. *)
Lemma filter_consistent (f : row -> bool) (db : database) :
  consistent db ->
  consistent {| plants := List.filter f (plants db); sequence := sequence db |}.
Proof.
  intros Hdb. split; cbn [plants sequence].
  - intros r Hr. apply filter_In in Hr as [Hr _]. now apply (filled db Hdb).
  - intros r Hr. apply filter_In in Hr as [Hr _]. now apply (numbered db Hdb).
  - pose proof (distinct_ids db Hdb) as Hnd.
    induction (plants db) as [|a l IH]; simpl; [constructor|].
    cbn [map] in Hnd. apply NoDup_cons in Hnd as [Ha Hl].
    destruct (f a); [|now apply IH]. cbn [map]. apply NoDup_cons.
    split; [|now apply IH]. intros Hin. apply Ha.
    apply list_elem_of_In, in_map_iff in Hin as (b & Hb & Hin).
    apply filter_In in Hin as [Hin _].
    apply list_elem_of_In, in_map_iff. eauto.
  - intros r r' Hr Hr'. apply filter_In in Hr as [Hr _].
    apply filter_In in Hr' as [Hr' _]. now apply (distinct_names db Hdb).
Qed.

End LookupFacts.

(** ** Sequences of requests *)

Module TraceFacts.
Import Sqlite SqliteFacts EngineFacts InsertFacts OutcomeFacts.
Import ConsistencyFacts ImportFacts HandlerFacts LookupFacts.

Lemma delete_from_inv w db db' :
  delete_from w db = inr db' ->
  exists matches,
    bind_condition w = inr matches /\
    db' = {| plants := List.filter (fun r => negb (matches r)) (plants db);
             sequence := sequence db |}.
Proof.
  unfold delete_from.
  destruct (bind_condition w) as [e|matches]; cbn [try]; [discriminate|].
  intros [= <-]. eauto.
Qed.

(** A deleting handler leaves the store it found or a part of it. *)
Lemma delete_plant_store plant_id db :
  (delete_plant plant_id db).2 = db \/
  exists f,
    (delete_plant plant_id db).2
    = {| plants := List.filter f (plants db); sequence := sequence db |}.
Proof.
  unfold delete_plant.
  destruct (fetch_by_route_id plant_id db) as [e|[r|]]; auto.
  destruct (delete_from _ db) as [e|db1] eqn:H; auto.
  apply delete_from_inv in H as (matches & _ & ->). right. eauto.
Qed.

Lemma delete_plant_by_name_store name db :
  (delete_plant_by_name name db).2 = db \/
  exists f,
    (delete_plant_by_name name db).2
    = {| plants := List.filter f (plants db); sequence := sequence db |}.
Proof.
  unfold delete_plant_by_name.
  destruct (fetch_by_route_name name db) as [e|[r|]]; auto.
  destruct (delete_from _ db) as [e|db1] eqn:H; auto.
  apply delete_from_inv in H as (matches & _ & ->). right. eauto.
Qed.

Lemma migrate_consistent clock data db :
  consistent db -> consistent (migrate_from_localstorage clock data db).2.
Proof.
  intros Hdb.
  destruct (migrate_store clock data db) as [->|(batch & st & Hst & ->)];
    [exact Hdb|].
  eapply migrate_plants_consistent; [|exact Hst]. exact Hdb.
Qed.

(** What every request keeps holds after every sequence of requests. *)
Lemma run_invariant (P : database -> Prop) :
  (forall req db, P db -> P (serve req db).2) ->
  forall reqs db, P db -> P (run reqs db).
Proof.
  intros Hstep reqs. induction reqs as [|req reqs IH]; intros db Hdb;
    [exact Hdb|].
  apply (IH (serve req db).2). now apply Hstep.
Qed.

Lemma serve_store (P : database -> Prop) (req : request) (db : database) :
  P db ->
  (forall now data, P (create_plant now data db).2) ->
  (forall now plant_id data, P (update_plant now plant_id data db).2) ->
  (forall plant_id, P (delete_plant plant_id db).2) ->
  (forall name, P (delete_plant_by_name name db).2) ->
  (forall clock data, P (migrate_from_localstorage clock data db).2) ->
  P (serve req db).2.
Proof.
  intros Hdb Hc Hu Hd Hn Hm. destruct req; cbn [serve snd]; auto.
  - specialize (Hc now data). now destruct (create_plant now data db).
  - specialize (Hu now plant_id data).
    now destruct (update_plant now plant_id data db).
  - specialize (Hm clock data).
    now destruct (migrate_from_localstorage clock data db).
Qed.

Lemma serve_consistent req db : consistent db -> consistent (serve req db).2.
Proof.
  intros Hdb. apply serve_store; auto.
  - intros. now apply create_plant_consistent.
  - intros. now apply update_plant_consistent.
  - intros. destruct (delete_plant_store plant_id db) as [->|[f ->]];
      [exact Hdb|now apply filter_consistent].
  - intros. destruct (delete_plant_by_name_store name db) as [->|[f ->]];
      [exact Hdb|now apply filter_consistent].
  - intros. now apply migrate_consistent.
Qed.

(** An INSERT gives out an id the counter had not reached. *)
Lemma append_retired i db r :
  retired i db -> cell r "id" = SInt (sequence db + 1) ->
  retired i {| plants := plants db ++ [r]; sequence := sequence db + 1 |}.
Proof.
  intros [Hle Hno] Hid. split; cbn [plants sequence]; [lia|].
  intros r0 Hr. apply in_app_or in Hr as [Hr|[<-|[]]]; [now apply Hno|].
  rewrite Hid. intros [= E]. lia.
Qed.

Lemma insert_retired i columns params db db' :
  insert columns params db = inr db' -> retired i db -> retired i db'.
Proof.
  intros H Hret. apply insert_inv in H as (values & _ & _ & _ & ->).
  apply append_retired; [exact Hret|apply new_row_id].
Qed.

(** An UPDATE that leaves the ids alone brings no id back. *)
Lemma update_retired i set w db db' :
  update set w db = inr db' ->
  existsb (String.eqb "id") (map fst set) = false ->
  retired i db -> retired i db'.
Proof.
  intros H Hnoid [Hle Hno].
  apply update_inv in H as (fs & matches & Hs & _ & _ & _ & ->).
  split; cbn [plants sequence]; [exact Hle|].
  intros r' Hr'. apply in_map_iff in Hr' as (r & <- & Hr).
  unfold rewritten. destruct (matches r); [|now apply Hno].
  rewrite cell_assign, assigned_none; [now apply Hno|].
  now rewrite (bind_set_columns set fs Hs).
Qed.

Lemma filter_retired i f db :
  retired i db ->
  retired i {| plants := List.filter f (plants db); sequence := sequence db |}.
Proof.
  intros [Hle Hno]. split; cbn [plants sequence]; [exact Hle|].
  intros r Hr. apply filter_In in Hr as [Hr _]. now apply Hno.
Qed.

Lemma create_plant_retired i now data db :
  retired i db -> retired i (create_plant now data db).2.
Proof.
  intros Hdb. unfold create_plant.
  destruct (truthy data); cbn [negb]; [|exact Hdb].
  destruct (first_missing required_fields data) as [e|[f|]];
    [exact Hdb|exact Hdb|].
  destruct (create_insert now data db) as [e|db1] eqn:Hins.
  - destruct e; try exact Hdb.
    destruct (create_update now data db) as [e|db1] eqn:Hup; [exact Hdb|].
    rewrite after_commit_store.
    apply create_update_inv in Hup as (vn & set & _ & _ & Hid & Hup).
    eapply update_retired; [exact Hup| |exact Hdb].
    cbn [map fst existsb]. exact Hid.
  - rewrite after_commit_store.
    apply create_insert_inv in Hins
      as (vn & p1 & p2 & p3 & p4 & p5 & p6 & p7 & p8 & p9 & p10 & p11 & p12
          & _ & Hins).
    eapply insert_retired; eassumption.
Qed.

Lemma update_plant_retired i now plant_id data db :
  retired i db -> retired i (update_plant now plant_id data db).2.
Proof.
  intros Hdb. unfold update_plant.
  destruct (truthy data); cbn [negb]; [|exact Hdb].
  destruct (fetch_by_id plant_id db) as [e|[r0|]]; [exact Hdb| |exact Hdb].
  destruct (update_set now data) as [e|set] eqn:Hset; cbn [try];
    [exact Hdb|].
  destruct (update set (IdIs (Int64 plant_id)) db) as [e|db1] eqn:Hup;
    [exact Hdb|].
  rewrite after_commit_store.
  destruct (update_set_shape now data set Hset)
    as (p1 & p2 & p3 & p4 & p5 & p6 & p7 & p8 & p9 & p10 & p11 & p12 & p13
        & ->).
  eapply update_retired; [exact Hup| |exact Hdb]. reflexivity.
Qed.

Lemma migrate_plants_retired j clock i batch st st' :
  retired j (conn st) ->
  migrate_plants clock i batch st = inr st' ->
  retired j (conn st').
Proof.
  revert i st. induction batch as [|v batch IH]; intros i st Hdb; simpl.
  - now intros [= <-].
  - destruct (migrate_plant (clock i) v st) as [e|st1] eqn:Hv; cbn [try];
      [discriminate|].
    apply IH.
    apply migrate_plant_cases in Hv
      as (m & -> & [(values & _ & _ & _ & Hm)|[e He]]).
    + destruct Hm as (-> & _ & _).
      apply append_retired; [exact Hdb|apply new_row_id].
    + unfold skipped in He. now subst st1.
Qed.

Lemma serve_retired i req db : retired i db -> retired i (serve req db).2.
Proof.
  intros Hdb. apply serve_store; auto.
  - intros. now apply create_plant_retired.
  - intros. now apply update_plant_retired.
  - intros. destruct (delete_plant_store plant_id db) as [->|[f ->]];
      [exact Hdb|now apply filter_retired].
  - intros. destruct (delete_plant_by_name_store name db) as [->|[f ->]];
      [exact Hdb|now apply filter_retired].
  - intros.
    destruct (migrate_store clock data db) as [->|(batch & st & Hst & ->)];
      [exact Hdb|].
    eapply migrate_plants_retired; [|exact Hst]. exact Hdb.
Qed.

(** What a successful [delete_plant] has found and done. *)
Lemma delete_plant_inv plant_id db n db' :
  consistent db ->
  delete_plant plant_id db = (Deleted n, db') ->
  int64 plant_id = true /\
  (exists r, In r (plants db) /\ cell r "id" = SInt plant_id
             /\ n = to_json (cell r "name")) /\
  db' = {| plants := List.filter
                       (fun a => negb (eqb (cell a "id") (SInt plant_id)))
                       (plants db);
           sequence := sequence db |}.
Proof.
  intros Hdb Hdel.
  assert (Hfit : int64 plant_id = true).
  { destruct (int64 plant_id) eqn:E; [reflexivity|].
    unfold delete_plant, fetch_by_route_id, select in Hdel.
    cbn [bind_condition] in Hdel.
    rewrite (bind_route_id_overflow _ E) in Hdel. discriminate Hdel. }
  split; [exact Hfit|].
  unfold delete_plant, fetch_by_route_id, select, delete_from in Hdel.
  cbn [bind_condition] in Hdel. rewrite (bind_route_id _ Hfit) in Hdel.
  cbn [try] in Hdel.
  destruct (fetchone _) as [r|] eqn:Hf; [|discriminate Hdel].
  apply head_filter_in in Hf as [Hr Hm].
  apply (id_matches db r plant_id Hdb Hr) in Hm.
  inversion Hdel. split; [|reflexivity]. exists r. auto.
Qed.

Lemma fetch_by_route_id_none db plant_id :
  consistent db -> int64 plant_id = true ->
  (forall r, In r (plants db) -> cell r "id" <> SInt plant_id) ->
  fetch_by_route_id plant_id db = inr None.
Proof.
  intros Hdb Hfit Hno. unfold fetch_by_route_id, select.
  cbn [bind_condition]. rewrite (bind_route_id _ Hfit). cbn [try].
  rewrite filter_none; [reflexivity|].
  intros r Hr. apply not_true_iff_false. intros Hm.
  apply (id_matches db r plant_id Hdb Hr) in Hm. now apply (Hno r Hr).
Qed.

End TraceFacts.

(** ** What a write has written *)

Module AnswerFacts.
Import Sqlite SqliteFacts OrderFacts EngineFacts InsertFacts OutcomeFacts.
Import UpdateFacts ConsistencyFacts HandlerFacts LookupFacts.

(** The row [fetch_by_name] fetches is stored and has the name asked
    for. *)
Lemma fetch_by_name_found latest data db r :
  fetch_by_name latest data db = inr (Some r) ->
  In r (plants db) /\
  forall name, getitem data "name" = inr (JStr name) ->
               cell r "name" = SText name.
Proof.
  unfold fetch_by_name, select.
  destruct (getitem data "name") as [e|vn]; cbn [try]; [discriminate|].
  cbn [bind_condition].
  destruct (bind (Py vn)) as [e|v] eqn:Hb; cbn [try]; [discriminate|].
  intros [= Hf]. apply head_In in Hf.
  assert (Hin : In r (List.filter (fun a => eqb (cell a "name") v) (plants db))).
  { destruct latest; [|exact Hf].
    now apply (Permutation_in _ (order_perm _)) in Hf. }
  apply filter_In in Hin as [Hin Hm]. split; [exact Hin|].
  intros name [= ->]. apply bind_string in Hb as ->.
  now apply name_matches.
Qed.

(** The row [create_plant] answers with is the row it fetched by name from
    the store it leaves. *)
Lemma create_plant_fetched now data db code body db' :
  create_plant now data db = (Resp code body, db') -> code <> 400 ->
  exists latest r,
    fetch_by_name latest data db' = inr (Some r) /\ body = plant_json r.
Proof.
  unfold create_plant. destruct (truthy data); cbn [negb];
    [|intros [= <- _ _]; congruence].
  destruct (first_missing required_fields data) as [e|[f|]];
    [discriminate|intros [= <- _ _]; congruence|].
  destruct (create_insert now data db) as [e|db1] eqn:Hins.
  - destruct e; try discriminate.
    destruct (create_update now data db) as [e|db1] eqn:Hup; [discriminate|].
    unfold after_commit.
    destruct (fetch_by_name false data db1) as [e|[r|]] eqn:Hf;
      cbn [respond]; try discriminate.
    intros [= <- <- <-] _. eauto.
  - unfold after_commit.
    destruct (fetch_by_name true data db1) as [e|[r|]] eqn:Hf;
      cbn [respond]; try discriminate.
    intros [= <- <- <-] _. eauto.
Qed.

(** After its INSERT, [create_plant] finds the row it inserted. *)
Lemma create_insert_fetched now data db db1 :
  create_insert now data db = inr db1 ->
  exists r, fetch_by_name true data db1 = inr (Some r).
Proof.
  intros Hins. apply create_insert_inv in Hins
    as (vn & p1 & p2 & p3 & p4 & p5 & p6 & p7 & p8 & p9 & p10 & p11 & p12
        & Hn & Hins).
  apply insert_inv in Hins as (values & Hb & Hnn & _ & ->).
  repeat match goal with
         | H : bind_all (_ :: _) = inr _ |- _ =>
             apply bind_all_inv in H as (? & ? & ? & H & ->)
         end.
  apply bind_all_nil_inv in Hb as ->.
  match goal with H : bind (Py vn) = inr ?v |- _ => rename H into Hbn end.
  rewrite new_row_not_null in Hnn.
  unfold fetch_by_name, select. rewrite Hn. cbn [try bind_condition].
  rewrite Hbn. cbn [try plants].
  match goal with
  | |- context [plants db ++ [?x]] => set (r := x) in *
  end.
  assert (Hm : eqb (cell r "name") x = true).
  { replace (cell r "name") with x by (symmetry; apply new_row_name).
    apply eqb_refl. intros ->. discriminate Hnn. }
  destruct (fetchone _) as [r'|] eqn:Hf; [eauto|]. exfalso.
  assert (Hin : In r (order_by_timestamp_desc
                        (List.filter (fun a => eqb (cell a "name") x)
                           (plants db ++ [r])))).
  { apply (Permutation_in _ (Permutation_sym (order_perm _))).
    apply filter_In. split; [|exact Hm]. apply in_or_app. right. now left. }
  unfold fetchone in Hf. destruct (order_by_timestamp_desc _); [|discriminate Hf].
  exact Hin.
Qed.

Lemma map_rewritten_none matches fs (l : list row) :
  List.filter matches l = [] -> map (rewritten matches fs) l = l.
Proof.
  induction l as [|a l IH]; simpl; [reflexivity|].
  unfold rewritten at 1. destruct (matches a); [discriminate|].
  intros H. now rewrite IH.
Qed.

(** After its UPDATE, [create_plant] finds the row it replaced, unless the
    UPDATE met no row and so changed nothing. *)
Lemma create_update_fetched now data db db1 :
  create_update now data db = inr db1 ->
  (exists r, fetch_by_name false data db1 = inr (Some r)) \/
  (fetch_by_name false data db1 = inr None /\ db1 = db).
Proof.
  intros Hup. apply create_update_inv in Hup as (vn & set & Hn & Hname & _ & Hup).
  apply update_inv in Hup as (fs & matches & Hs & Hw & _ & _ & ->).
  unfold fetch_by_name, select. rewrite Hn. cbn [try]. rewrite Hw.
  cbn [try plants].
  assert (Hkeep : forall r, matches r = true -> matches (assign fs r) = true).
  { cbn [bind_condition] in Hw.
    destruct (bind (Py vn)) as [e|v]; cbn [try] in Hw; [discriminate Hw|].
    injection Hw as <-. intros r Hr.
    rewrite cell_assign, assigned_none; [exact Hr|].
    rewrite (bind_set_columns _ fs Hs). exact Hname. }
  rewrite (filter_rewritten matches fs (plants db) Hkeep).
  destruct (List.filter matches (plants db)) as [|r0 l] eqn:Hf.
  - right. split; [reflexivity|].
    rewrite (map_rewritten_none matches fs (plants db) Hf). now destruct db.
  - left. cbn. eauto.
Qed.

(** [create_plant] has written nothing unless it answers 200 or 201. *)
Lemma create_plant_atomic now data db :
  status (create_plant now data db).1 = 200 \/
  status (create_plant now data db).1 = 201 \/
  (create_plant now data db).2 = db.
Proof.
  unfold create_plant. destruct (truthy data); cbn [negb]; [|auto].
  destruct (first_missing required_fields data) as [e|[f|]]; auto.
  destruct (create_insert now data db) as [e|db1] eqn:Hins.
  - destruct e; auto.
    destruct (create_update now data db) as [e|db1] eqn:Hup; auto.
    destruct (create_update_fetched _ _ _ _ Hup) as [[r ->]|[-> ->]]; auto.
  - destruct (create_insert_fetched _ _ _ _ Hins) as [r ->]. auto.
Qed.

(** [update_plant] has written nothing unless it answers 200. *)
Lemma update_plant_atomic now plant_id data db :
  status (update_plant now plant_id data db).1 = 200 \/
  (update_plant now plant_id data db).2 = db.
Proof.
  unfold update_plant. destruct (truthy data); cbn [negb]; [|auto].
  destruct (fetch_by_id plant_id db) as [e|[r0|]] eqn:Hf0; auto.
  destruct (update_set now data) as [e|set] eqn:Hset; cbn [try]; auto.
  destruct (update set (IdIs (Int64 plant_id)) db) as [e|db1] eqn:Hup; auto.
  left.
  destruct (update_set_shape now data set Hset)
    as (p1 & p2 & p3 & p4 & p5 & p6 & p7 & p8 & p9 & p10 & p11 & p12 & p13
        & ->).
  apply update_inv in Hup as (fs & matches & Hs & Hw & _ & _ & ->).
  revert Hf0. unfold after_commit, fetch_by_id, select. rewrite Hw.
  cbn [try plants].
  assert (Hkeep : forall r, matches r = true -> matches (assign fs r) = true).
  { cbn [bind_condition] in Hw. rewrite bind_int64 in Hw. cbn [try] in Hw.
    injection Hw as <-. intros r Hr.
    rewrite cell_assign, assigned_none; [exact Hr|].
    rewrite (bind_set_columns _ fs Hs). reflexivity. }
  rewrite (filter_rewritten matches fs (plants db) Hkeep).
  destruct (List.filter matches (plants db)) as [|r1 l]; [discriminate|].
  reflexivity.
Qed.

(** What [get_plant] and [get_plant_by_name] find in a consistent store. *)
Lemma get_plant_found db plant_id r :
  consistent db -> int64 plant_id = true ->
  In r (plants db) -> cell r "id" = SInt plant_id ->
  get_plant plant_id db = Resp 200 (plant_json r).
Proof.
  intros Hdb Hfit Hr Hid. unfold get_plant, fetch_by_route_id, select.
  cbn [bind_condition]. rewrite (bind_route_id _ Hfit). cbn [try].
  destruct (select_id db plant_id r Hdb Hr Hid) as (l1 & l2 & _ & -> & _).
  reflexivity.
Qed.

Lemma get_plant_by_name_found db name r :
  consistent db -> In r (plants db) -> cell r "name" = SText name ->
  get_plant_by_name name db = Resp 200 (plant_json r).
Proof.
  intros Hdb Hr Hn. unfold get_plant_by_name, fetch_by_route_name, select.
  cbn [bind_condition]. rewrite bind_route_name. cbn [try].
  destruct (select_name db name r Hdb Hr Hn) as (l1 & l2 & _ & -> & _).
  reflexivity.
Qed.

End AnswerFacts.

(** ** The batch of the bulk import *)

Module BatchFacts.
Import Sqlite SqliteFacts EngineFacts InsertFacts CreateFacts OutcomeFacts.
Import UpdateFacts ConsistencyFacts ImportFacts HandlerFacts LookupFacts.

(** Every record either adds a row and a count or adds an error. *)
Lemma migrate_plants_accounting clock i batch st st' :
  migrate_plants clock i batch st = inr st' ->
  exists added reported,
    plants (conn st') = plants (conn st) ++ added /\
    errors st' = errors st ++ reported /\
    migrated_count st' = migrated_count st + Z.of_nat (length added) /\
    sequence (conn st') = sequence (conn st) + Z.of_nat (length added) /\
    (length added + length reported)%nat = length batch.
Proof.
  revert i st. induction batch as [|v batch IH]; intros i st; simpl.
  - intros [= <-]. exists [], []. rewrite !app_nil_r. cbn [length].
    repeat split; lia.
  - destruct (migrate_plant (clock i) v st) as [e|st1] eqn:Hv; cbn [try];
      [discriminate|].
    intros H. destruct (IH _ _ H) as (added & reported & Hp & He & Hc & Hs & Hl).
    apply migrate_plant_cases in Hv
      as (m & -> & [(values & _ & _ & _ & Hm)|[e Hsk]]).
    + destruct Hm as (Hconn & Hcount & Herr). rewrite Hconn in Hp, Hs.
      cbn [plants sequence] in Hp, Hs. rewrite <- app_assoc in Hp.
      rewrite Hcount in Hc. rewrite Herr in He.
      eexists _, reported. split; [exact Hp|]. split; [exact He|].
      cbn [app length]. repeat split; lia.
    + unfold skipped in Hsk. subst st1. cbn [record_error conn migrated_count
        errors] in *. rewrite <- app_assoc in He.
      exists added, (e :: reported). split; [exact Hp|]. split; [exact He|].
      cbn [app length]. repeat split; lia.
Qed.

(** Two readings of the clock make the same parameters of a record but for
    the timestamp, which both bind when one does, null or not alike. *)
Lemma import_params_bound now now' m values :
  bind_all (import_params now m) = inr values ->
  exists n t t' v3 v4 v5 v6 v7 v8 v9 v10 v11 v12 v13 v14,
    values = [n; t; v3; v4; v5; v6; v7; v8; v9; v10; v11; v12; v13; v14] /\
    bind_all (import_params now' m)
    = inr [n; t'; v3; v4; v5; v6; v7; v8; v9; v10; v11; v12; v13; v14] /\
    is_null t = is_null t'.
Proof.
  unfold import_params. intros H.
  apply bind_all_inv in H as (n & ? & Hn & H & ->).
  apply bind_all_inv in H as (t & ? & Ht & H & ->).
  repeat match goal with
         | H : bind_all (_ :: _) = inr _ |- _ =>
             let Hb := fresh "Hb" in
             apply bind_all_inv in H as (? & ? & Hb & H & ->)
         end.
  apply bind_all_nil_inv in H as ->.
  assert (Ht' : exists t', bind (import_timestamp now' m) = inr t'
                           /\ is_null t = is_null t').
  { revert Ht. unfold import_timestamp. destruct (m !! "timestamp").
    - intros Ht. eauto.
    - rewrite !bind_int64. intros [= <-]. eauto. }
  destruct Ht' as (t' & Ht' & Hnull).
  exists n, t, t'. do 12 eexists. split; [reflexivity|]. split; [|exact Hnull].
  repeat (apply bind_all_cons; [eassumption|]). reflexivity.
Qed.

(** A record that the table holds, or that the table refused, is refused
    by every larger table, whatever the clock. *)
Lemma insert_again now now' m db db2 :
  incl (plants db) (plants db2) ->
  (forall db1, insert insert_columns (import_params now m) db = inr db1 ->
               incl (plants db1) (plants db2)) ->
  exists e, insert insert_columns (import_params now' m) db2 = inl e.
Proof.
  intros Hincl Hdone.
  destruct (bind_all (import_params now' m)) as [e|values'] eqn:Hb'.
  { exists e. unfold insert. now rewrite Hb'. }
  destruct (import_params_bound now' now m values' Hb')
    as (n & t' & t & v3 & v4 & v5 & v6 & v7 & v8 & v9 & v10 & v11 & v12
        & v13 & v14 & -> & Hb & Hnull).
  rewrite (insert_bound _ _ _ _ Hb').
  rewrite (insert_bound _ _ _ _ Hb) in Hdone.
  rewrite new_row_not_null, new_row_name_taken.
  rewrite new_row_not_null, new_row_name_taken in Hdone.
  cbn [first_null] in *. rewrite <- Hnull in Hdone.
  destruct (is_null n) eqn:Nn; [eauto|].
  destruct (is_null t'); [eauto|].
  destruct (is_null v3); [eauto|]. destruct (is_null v4); [eauto|].
  destruct (is_null v5); [eauto|]. destruct (is_null v6); [eauto|].
  assert (Htaken : existsb (fun r' => eqb (cell r' "name") n) (plants db2)
                   = true).
  { destruct (existsb (fun r' => eqb (cell r' "name") n) (plants db)) eqn:Ht.
    - apply existsb_exists in Ht as (a & Ha & Hm).
      apply existsb_exists. exists a. split; [now apply Hincl|exact Hm].
    - apply existsb_exists. eexists. split.
      + apply (Hdone _ eq_refl). cbn [plants]. apply in_or_app. right.
        now left.
      + replace (cell _ "name") with n by (symmetry; apply new_row_name).
        apply eqb_refl. intros ->. discriminate Nn. }
  rewrite Htaken. eauto.
Qed.

(** A record the loop has been through adds nothing the second time. *)
Lemma migrate_plant_again now now' m st st1 st2 :
  migrate_plant now (JObj m) st = inr st1 ->
  incl (plants (conn st1)) (plants (conn st2)) ->
  exists e, migrate_plant now' (JObj m) st2 = inr (record_error st2 e).
Proof.
  rewrite !migrate_plant_object, !migrate_attempt_object.
  destruct (negb _); [eauto|].
  intros H1 Hincl. injection H1 as H1.
  destruct (insert_again now now' m (conn st) (conn st2)) as [e He].
  - destruct (insert insert_columns (import_params now m) (conn st))
      as [e|db1] eqn:Hins.
    + assert (E : conn st1 = conn st) by (destruct e; subst st1; reflexivity).
      now rewrite <- E.
    + subst st1. cbn [conn] in Hincl.
      apply insert_inv in Hins as (values & _ & _ & _ & ->).
      cbn [plants] in Hincl. intros a Ha. apply Hincl. apply in_or_app.
      now left.
  - intros db1 Hins. rewrite Hins in H1. subst st1. exact Hincl.
  - rewrite He. destruct e; eexists; reflexivity.
Qed.

(** A batch the loop has been through adds nothing the second time: every
    record of it is reported. *)
Lemma migrate_plants_again clock clock' i j batch st st' st2 :
  migrate_plants clock i batch st = inr st' ->
  incl (plants (conn st')) (plants (conn st2)) ->
  exists reported,
    migrate_plants clock' j batch st2
    = inr {| conn := conn st2; migrated_count := migrated_count st2;
             errors := errors st2 ++ reported |} /\
    length reported = length batch.
Proof.
  revert i j st st2. induction batch as [|v batch IH]; intros i j st st2; simpl.
  - intros _ _. exists []. rewrite app_nil_r. split; [|reflexivity].
    now destruct st2.
  - destruct (migrate_plant (clock i) v st) as [e|st1] eqn:Hv; cbn [try];
      [discriminate|].
    intros H Hincl.
    destruct (migrate_plants_grows _ _ _ _ _ H) as [added Hadd].
    destruct (migrate_plant_cases _ _ _ _ Hv) as (m & -> & _).
    destruct (migrate_plant_again _ (clock' j) _ _ _ st2 Hv) as [e He].
    { intros a Ha. apply Hincl. rewrite Hadd. apply in_or_app. now left. }
    rewrite He. cbn [try].
    destruct (IH _ (S j) _ (record_error st2 e) H Hincl)
      as (reported & Hr & Hl).
    exists (e :: reported). split; [|cbn [length]; now rewrite Hl].
    rewrite Hr. cbn [record_error conn migrated_count errors].
    now rewrite <- app_assoc.
Qed.

End BatchFacts.

(** ** The command-line importer *)

Module CliFacts.
Import Sqlite SqliteFacts EngineFacts InsertFacts CreateFacts OutcomeFacts.
Import UpdateFacts ConsistencyFacts ImportFacts HandlerFacts LookupFacts.

Lemma missing_fields_total k v b fields :
  contains k v = inr b -> exists l, missing_fields fields v = inr l.
Proof.
  intros Hk. induction fields as [|f fields [l IH]]; simpl; [eauto|].
  assert (Hf : exists b', contains f v = inr b')
    by (destruct v; simpl in *; try discriminate; eauto).
  destruct Hf as [b' ->]. rewrite IH. cbn [try]. eauto.
Qed.

(** The field [create_plant] misses is the first of the fields the
    importer misses. *)
Lemma first_missing_head fields data :
  first_missing fields data
  = (let* missing := missing_fields fields data in inr (head missing)).
Proof.
  induction fields as [|f fields IH]; simpl; [reflexivity|].
  destruct (contains f data) as [e|b] eqn:Hc; cbn [try]; [reflexivity|].
  destruct (missing_fields_total f data b fields Hc) as [l Hl].
  rewrite IH, Hl. cbn [try]. destruct b; reflexivity.
Qed.
















End CliFacts.

(** ** The ids and the order of the listing *)

Module ListingFacts.
Import Sqlite SqliteFacts OrderFacts EngineFacts InsertFacts OutcomeFacts.
Import UpdateFacts ConsistencyFacts HandlerFacts LookupFacts AnswerFacts.

(** An UPDATE that does not assign the ids leaves them where they are. *)
Lemma update_ids set w db db' :
  update set w db = inr db' ->
  existsb (String.eqb "id") (map fst set) = false ->
  map (fun r => cell r "id") (plants db')
  = map (fun r => cell r "id") (plants db) /\
  sequence db' = sequence db.
Proof.
  intros H Hnoid.
  apply update_inv in H as (fs & matches & Hs & _ & _ & _ & ->).
  split; [|reflexivity]. cbn [plants]. rewrite map_map. apply map_ext.
  intros r. unfold rewritten. destruct (matches r); [|reflexivity].
  rewrite cell_assign, assigned_none; [reflexivity|].
  now rewrite (bind_set_columns set fs Hs).
Qed.

Lemma update_plant_ids now plant_id data db :
  map (fun r => cell r "id") (plants (update_plant now plant_id data db).2)
  = map (fun r => cell r "id") (plants db) /\
  sequence (update_plant now plant_id data db).2 = sequence db.
Proof.
  unfold update_plant. destruct (truthy data); cbn [negb]; [|auto].
  destruct (fetch_by_id plant_id db) as [e|[r0|]]; auto.
  destruct (update_set now data) as [e|set] eqn:Hset; cbn [try]; auto.
  destruct (update set (IdIs (Int64 plant_id)) db) as [e|db1] eqn:Hup; auto.
  rewrite after_commit_store.
  destruct (update_set_shape now data set Hset)
    as (p1 & p2 & p3 & p4 & p5 & p6 & p7 & p8 & p9 & p10 & p11 & p12 & p13
        & ->).
  apply (update_ids _ _ _ _ Hup). reflexivity.
Qed.

Lemma create_plant_ids now data db :
  (map (fun r => cell r "id") (plants (create_plant now data db).2)
   = map (fun r => cell r "id") (plants db) /\
   sequence (create_plant now data db).2 = sequence db) \/
  (map (fun r => cell r "id") (plants (create_plant now data db).2)
   = map (fun r => cell r "id") (plants db) ++ [SInt (sequence db + 1)] /\
   sequence (create_plant now data db).2 = sequence db + 1).
Proof.
  unfold create_plant. destruct (truthy data); cbn [negb]; [|auto].
  destruct (first_missing required_fields data) as [e|[f|]]; auto.
  destruct (create_insert now data db) as [e|db1] eqn:Hins.
  - destruct e; auto.
    destruct (create_update now data db) as [e|db1] eqn:Hup; auto.
    rewrite after_commit_store. left.
    apply create_update_inv in Hup as (vn & set & _ & _ & Hid & Hup).
    apply (update_ids _ _ _ _ Hup). cbn [map fst existsb]. exact Hid.
  - rewrite after_commit_store. right.
    apply create_insert_inv in Hins
      as (vn & p1 & p2 & p3 & p4 & p5 & p6 & p7 & p8 & p9 & p10 & p11 & p12
          & _ & Hins).
    apply insert_inv in Hins as (values & _ & _ & _ & ->).
    cbn [plants sequence]. rewrite map_app. cbn [map].
    now rewrite new_row_id.
Qed.

(** The row whose timestamp is above every other heads the listing. *)
Lemma newest_heads_listing (db : database) (r : row) (now : Z) :
  In r (plants db) -> cell r "timestamp" = SInt now ->
  (forall r', In r' (plants db) ->
     r' = r \/ exists t, cell r' "timestamp" = SInt t /\ t < now) ->
  exists rest, get_plants db = Resp 200 (JArr (plant_json r :: rest)).
Proof.
  intros Hr Hts Hold. unfold get_plants.
  pose proof (order_sorted (plants db)) as Hsorted.
  pose proof (order_perm (plants db)) as Hperm.
  destruct (order_by_timestamp_desc (plants db)) as [|x l].
  { apply Permutation_nil in Hperm. rewrite Hperm in Hr.
    destruct Hr. }
  assert (Hx : In x (plants db))
    by (apply (Permutation_in _ Hperm); now left).
  assert (Hrl : In r (x :: l))
    by (apply (Permutation_in _ (Permutation_sym Hperm)); exact Hr).
  destruct (Hold x Hx) as [->|(t & Ht & Hlt)].
  - cbn [map]. eauto.
  - exfalso. destruct Hrl as [->|Hrl].
    + rewrite Hts in Ht. injection Ht as ->. lia.
    + apply StronglySorted_inv in Hsorted as [_ Hall].
      rewrite List.Forall_forall in Hall. specialize (Hall r Hrl).
      unfold newer_first, not_below in Hall. rewrite Ht, Hts in Hall.
      apply Hall. simpl. now apply Z.compare_lt_iff.
Qed.

(** Two rows of a table that carry one id are one row. *)
Lemma same_id_same_row (db : database) (a b : row) :
  consistent db -> In a (plants db) -> In b (plants db) ->
  cell a "id" = cell b "id" -> a = b.
Proof.
  intros Hdb Ha Hb Hid. pose proof (distinct_ids db Hdb) as Hnd.
  induction (plants db) as [|x l IH]; [destruct Ha|].
  cbn [map] in Hnd. apply NoDup_cons in Hnd as [Hx Hl].
  assert (Hin : forall c, In c l -> cell c "id" <> cell x "id").
  { intros c Hc E. apply Hx. rewrite <- E.
    apply list_elem_of_In, in_map_iff. eauto. }
  destruct Ha as [->|Ha], Hb as [->|Hb]; auto.
  - exfalso. apply (Hin b Hb). now symmetry.
  - exfalso. now apply (Hin a Ha).
Qed.

(** The rows after an UPDATE are rows it found or rows it wrote, and those
    pass its WHERE clause when the SET clause leaves the column of the
    clause alone. *)
Lemma update_rows set w db db' matches r' :
  update set w db = inr db' ->
  bind_condition w = inr matches ->
  (forall fs r, bind_set set = inr fs -> matches r = true ->
                matches (assign fs r) = true) ->
  In r' (plants db') ->
  In r' (plants db) \/ matches r' = true.
Proof.
  intros H Hw Hkeep Hr'.
  apply update_inv in H as (fs & matches' & Hs & Hw' & _ & _ & ->).
  rewrite Hw in Hw'. injection Hw' as <-.
  cbn [plants] in Hr'. apply in_map_iff in Hr' as (r & <- & Hr).
  unfold rewritten. destruct (matches r) eqn:Hm; [|now left].
  right. now apply (Hkeep fs).
Qed.

Lemma update_plant_rows now plant_id data db r' :
  In r' (plants (update_plant now plant_id data db).2) ->
  In r' (plants db) \/ eqb (cell r' "id") (SInt plant_id) = true.
Proof.
  unfold update_plant. destruct (truthy data); cbn [negb]; [|auto].
  destruct (fetch_by_id plant_id db) as [e|[r0|]]; auto.
  destruct (update_set now data) as [e|set] eqn:Hset; cbn [try]; auto.
  destruct (update set (IdIs (Int64 plant_id)) db) as [e|db1] eqn:Hup; auto.
  rewrite after_commit_store.
  destruct (update_set_shape now data set Hset)
    as (p1 & p2 & p3 & p4 & p5 & p6 & p7 & p8 & p9 & p10 & p11 & p12 & p13
        & ->).
  intros Hr'.
  apply (update_rows _ _ _ _ (fun r => eqb (cell r "id") (SInt plant_id)) _ Hup);
    [| |exact Hr'].
  - cbn [bind_condition]. now rewrite bind_int64.
  - intros fs r Hs Hm. rewrite cell_assign, assigned_none; [exact Hm|].
    now rewrite (bind_set_columns _ fs Hs).
Qed.

Lemma create_plant_rows now data db vn v r' :
  getitem data "name" = inr vn -> bind (Py vn) = inr v ->
  In r' (plants (create_plant now data db).2) ->
  In r' (plants db) \/ eqb (cell r' "name") v = true.
Proof.
  intros Hn Hv. unfold create_plant.
  destruct (truthy data); cbn [negb]; [|auto].
  destruct (first_missing required_fields data) as [e|[f|]]; auto.
  destruct (create_insert now data db) as [e|db1] eqn:Hins.
  - destruct e; auto.
    destruct (create_update now data db) as [e|db1] eqn:Hup; auto.
    rewrite after_commit_store.
    apply create_update_inv in Hup as (vn' & set & Hn' & Hname & _ & Hup).
    rewrite Hn in Hn'. injection Hn' as <-.
    intros Hr'.
    apply (update_rows _ _ _ _ (fun r => eqb (cell r "name") v) _ Hup);
      [| |exact Hr'].
    + cbn [bind_condition]. now rewrite Hv.
    + intros fs r Hs Hm. rewrite cell_assign, assigned_none; [exact Hm|].
      rewrite (bind_set_columns _ fs Hs). exact Hname.
  - rewrite after_commit_store.
    apply create_insert_inv in Hins
      as (vn' & p1 & p2 & p3 & p4 & p5 & p6 & p7 & p8 & p9 & p10 & p11 & p12
          & Hn' & Hins).
    rewrite Hn in Hn'. injection Hn' as <-.
    apply insert_inv in Hins as (values & Hb & Hnn & _ & ->).
    repeat match goal with
           | H : bind_all (_ :: _) = inr _ |- _ =>
               apply bind_all_inv in H as (? & ? & ? & H & ->)
           end.
    apply bind_all_nil_inv in Hb as ->.
    match goal with H : bind (Py vn) = inr ?x |- _ =>
      rewrite Hv in H; injection H as <- end.
    rewrite new_row_not_null in Hnn.
    cbn [plants]. intros Hr'. apply in_app_or in Hr' as [Hr'|[<-|[]]];
      [now left|right].
    replace (cell _ "name") with v by (symmetry; apply new_row_name).
    apply eqb_refl. intros ->. discriminate Hnn.
Qed.

Lemma to_json_inj (a b : sqlval) : to_json a = to_json b -> a = b.
Proof. destruct a, b; simpl; congruence. Qed.

(** Two rows with one dict have one timestamp. *)
Lemma plant_json_timestamp (a b : row) :
  plant_json a = plant_json b -> cell a "timestamp" = cell b "timestamp".
Proof.
  intros H.
  assert (E : forall r : row,
            to_json (cell r "timestamp")
            = match plant_json r with
              | JObj m => default JNull (m !! "timestamp")
              | _ => JNull
              end) by reflexivity.
  apply to_json_inj. rewrite (E a), (E b), H. reflexivity.
Qed.

(** The row [create_plant] answers with: stored, with the timestamp of the
    handler and the name of the body. *)
Lemma create_plant_written now data db code body db' :
  create_plant now data db = (Resp code body, db') -> code <> 400 ->
  exists r vn v,
    body = plant_json r /\ In r (plants db') /\
    cell r "timestamp" = SInt now /\
    getitem data "name" = inr vn /\ bind (Py vn) = inr v /\
    eqb (cell r "name") v = true.
Proof.
  intros Hc Hcode.
  destruct (create_plant_answer _ _ _ _ _ _ Hc Hcode) as (r1 & _ & Hj & Ht).
  destruct (create_plant_fetched _ _ _ _ _ _ Hc Hcode)
    as (latest & r & Hf & ->).
  revert Hf. unfold fetch_by_name, select.
  destruct (getitem data "name") as [e|vn] eqn:Hn; cbn [try]; [discriminate|].
  cbn [bind_condition].
  destruct (bind (Py vn)) as [e|v] eqn:Hb; cbn [try]; [discriminate|].
  intros [= Hf]. apply head_In in Hf.
  assert (Hin : In r (List.filter (fun a => eqb (cell a "name") v) (plants db'))).
  { destruct latest; [|exact Hf].
    now apply (Permutation_in _ (order_perm _)) in Hf. }
  apply filter_In in Hin as [Hin Hm].
  exists r, vn, v. repeat split; auto.
  now rewrite (plant_json_timestamp r r1 Hj).
Qed.

End ListingFacts.

(** * The claims *)

Import Sqlite SqliteFacts OrderFacts EngineFacts InsertFacts CreateFacts.
Import UpdateFacts ImportFacts OutcomeFacts ConsistencyFacts HandlerFacts.

(** ** The sample stores *)

Lemma fern_store_rows : plants fern_store = [fern_row] /\ sequence fern_store = 1.
Proof. split; reflexivity. Qed.

Lemma fern_store_consistent : consistent fern_store.
Proof.
  destruct fern_store_rows as [Hrows Hseq].
  split; rewrite ?Hrows, ?Hseq.
  - intros r [<-|[]]. reflexivity.
  - intros r [<-|[]]. exists 1. split; [reflexivity|lia].
  - repeat constructor. inversion 1.
  - intros r r' [<-|[]] [<-|[]] _. reflexivity.
Qed.

Lemma fern_plain_complete : complete fern_plain.
Proof.
  split.
  - unfold required_fields.
    repeat (constructor;
            [eexists; split; [reflexivity|split];
             [eexists; split; reflexivity
             |intros H; vm_compute in H; discriminate H]|]).
    constructor.
  - unfold optional_fields.
    repeat (constructor; [intros v Hv; vm_compute in Hv; discriminate Hv|]).
    constructor.
Qed.



Lemma fern_plain_storable :
  Forall (fun p => exists s, Sqlite.bind p = inr s)
    (import_params 3000 fern_plain).
Proof.
  unfold import_params. repeat (constructor; [eexists; reflexivity|]).
  constructor.
Qed.

(** What the columns store: an integer in a REAL column is the nearest
    float, a float without a fraction in an INTEGER column is the integer,
    and the DEFAULT 0 of a REAL column is the float. *)
Example stored_as_the_column_has_it :
  Sqlite.stored "angle" (SInt 10) = SReal 10 /\
  Sqlite.stored "angle" (SInt (2 ^ 53 + 1)) = SReal 9007199254740992 /\
  Sqlite.stored "angle" (SReal 0.5) = SReal 0.5 /\
  Sqlite.stored "iterations" (SReal 4.0) = SInt 4 /\
  Sqlite.stored "iterations" (SReal 4.5) = SReal 4.5 /\
  Sqlite.stored "iterations" (SInt 4) = SInt 4 /\
  Sqlite.stored "timestamp" (SReal (inject_Z (2 ^ 63)))
  = SReal (inject_Z (2 ^ 63)) /\
  Sqlite.stored "name" (SText "fern") = SText "fern" /\
  declared_default "angle_variation" = SReal 0 /\
  declared_default "leaf_generation_threshold" = SInt 0 /\
  declared_default "thickness" = SReal 0.1.
Proof. repeat split; reflexivity. Qed.

(** ** createOrReplace *)




(** The round trip of the specification: the fern created with a thickness
    of 0.5 and created again without one has the default thickness. *)
Example thickness_reverts :
  create_plant 2000 (JObj fern_plain) fern_store
  = (Resp 200
       (plant_json
          (Sqlite.new_row 1 insert_columns
             [SText "fern"; SInt 2000; SText "F"; SText "F"; SInt 1; SInt 10;
              SInt 0; SInt 0; SReal 1.0; SInt 0; SInt 0; SReal 1.0;
              SReal 0.1; SReal 0.8])),
     {| plants :=
          [Sqlite.new_row 1 insert_columns
             [SText "fern"; SInt 2000; SText "F"; SText "F"; SInt 1; SInt 10;
              SInt 0; SInt 0; SReal 1.0; SInt 0; SInt 0; SReal 1.0;
              SReal 0.1; SReal 0.8]];
        sequence := 1 |}).
Proof. reflexivity. Qed.

(** The answer in full: the integer the body gives for the REAL column
    [angle], and the integers the handler passes for the REAL columns the
    body omits, are answered as floats. *)
Example replaced_fern_in_full :
  (create_plant 2000 (JObj fern_plain) fern_store).1
  = Resp 200
      (JObj (list_to_map [
         ("id", JInt 1); ("name", JStr "fern"); ("timestamp", JInt 2000);
         ("axiom", JStr "F"); ("rules", JStr "F"); ("iterations", JInt 1);
         ("angle", JReal 10); ("angleVariation", JReal 0);
         ("lengthVariation", JReal 0); ("lengthTapering", JReal 1.0);
         ("leafProbability", JReal 0); ("leafGenerationThreshold", JInt 0);
         ("length", JReal 1.0); ("thickness", JReal 0.1);
         ("tapering", JReal 0.8)])).
Proof. reflexivity. Qed.

Lemma error_message_error (code : Z) (msg : string) :
  error_message (Resp code (error msg)) = Some msg.
Proof. unfold error_message, error. now rewrite lookup_singleton_eq. Qed.

Lemma find_missing (m : gmap string json) (fields : list string) :
  (exists f, In f fields /\ m !! f = None) ->
  exists f, List.find (fun f => negb (bool_decide (is_Some (m !! f)))) fields
            = Some f /\ In f fields /\ m !! f = None.
Proof.
  intros (f & Hin & Hf).
  destruct (List.find _ fields) as [g|] eqn:E.
  - exists g. apply find_some in E as [Hg Hb]. repeat split; auto.
    apply negb_true_iff, bool_decide_eq_false in Hb.
    destruct (m !! g); [exfalso; apply Hb; eauto|reflexivity].
  - exfalso. apply (find_none _ _ E) in Hin.
    apply negb_false_iff, bool_decide_eq_true in Hin.
    rewrite Hf in Hin. now destruct Hin.
Qed.

(** C7 (amended). A body that lacks a required field is answered 400 and
    nothing is written; the message names a required field the body lacks,
    except for the empty object, whose message is "No JSON data
    provided". *)
Theorem create_missing_field (now : Z) (m : gmap string json) (db : database) :
  (exists f, In f required_fields /\ m !! f = None) ->
  exists msg,
    create_plant now (JObj m) db = (Resp 400 (error msg), db) /\
    (m = ∅ -> msg = "No JSON data provided") /\
    (m <> ∅ -> exists f, In f required_fields /\ m !! f = None /\
                         msg = "Missing required field: " +:+ f).
Proof.
  intros H. destruct (decide (m = ∅)) as [->|Hne].
  - exists "No JSON data provided".
    split; [reflexivity|split; [reflexivity|congruence]].
  - destruct (find_missing m required_fields H) as (f & Hfind & Hin & Hf).
    exists ("Missing required field: " +:+ f). split; [|split].
    + unfold create_plant.
      replace (truthy (JObj m)) with true
        by (simpl; now rewrite bool_decide_eq_false_2).
      cbn [negb]. now rewrite first_missing_object, Hfind.
    + congruence.
    + eauto.
Qed.

(** C7, as stated, fails on the empty object: it lacks every required
    field, and its answer names none. *)
Lemma empty_body_names_no_field :
  (exists f, In f required_fields /\ (∅ : gmap string json) !! f = None) /\
  forall f, create_plant 0 (JObj ∅) empty_store
            <> (Resp 400 (error ("Missing required field: " +:+ f)),
                empty_store).
Proof.
  split.
  - exists "name". split; [now left|reflexivity].
  - intros f H. apply (f_equal (fun p => error_message p.1)) in H.
    cbn [fst] in H. rewrite error_message_error in H.
    vm_compute in H. discriminate H.
Qed.

Lemma create_missing_field_witness :
  (exists f, In f required_fields
             /\ ({["name" := JStr "fern"]} : gmap string json) !! f = None) /\
  exists msg,
    create_plant 0 (JObj {["name" := JStr "fern"]}) empty_store
    = (Resp 400 (error msg), empty_store) /\
    ({["name" := JStr "fern"]} = (∅ : gmap string json) ->
     msg = "No JSON data provided") /\
    ({["name" := JStr "fern"]} <> (∅ : gmap string json) ->
     exists f, In f required_fields
               /\ ({["name" := JStr "fern"]} : gmap string json) !! f = None
               /\ msg = "Missing required field: " +:+ f).
Proof.
  assert (H : exists f, In f required_fields
             /\ ({["name" := JStr "fern"]} : gmap string json) !! f = None)
    by (exists "axiom"; split; [right; now left|reflexivity]).
  split; [exact H|].
  exact (create_missing_field 0 {["name" := JStr "fern"]} empty_store H).
Defined.

(** ** partialUpdate *)




(** A partial update of the thickness leaves the other columns alone. *)
Example thickness_alone :
  update_plant 3000 1 (JObj {["thickness" := JReal 0.7]}) fern_store
  = (Resp 200
       (plant_json
          (Sqlite.new_row 1 insert_columns
             [SText "fern"; SInt 3000; SText "F"; SText "F->F[+F]F[-F]";
              SInt 4; SInt 25; SInt 0; SInt 0; SReal 1.0; SInt 0; SInt 0;
              SReal 1.0; SReal 0.7; SReal 0.8])),
     {| plants :=
          [Sqlite.new_row 1 insert_columns
             [SText "fern"; SInt 3000; SText "F"; SText "F->F[+F]F[-F]";
              SInt 4; SInt 25; SInt 0; SInt 0; SReal 1.0; SInt 0; SInt 0;
              SReal 1.0; SReal 0.7; SReal 0.8]];
        sequence := 1 |}).
Proof. reflexivity. Qed.

(** C10. A POST or PUT whose body is the empty object is answered 400 "No
    JSON data provided" and writes nothing, whatever the store and, for
    PUT, whatever the id. *)
Theorem empty_body_rejected (now plant_id : Z) (db : database) :
  create_plant now (JObj ∅) db
  = (Resp 400 (error "No JSON data provided"), db) /\
  update_plant now plant_id (JObj ∅) db
  = (Resp 400 (error "No JSON data provided"), db).
Proof. split; reflexivity. Qed.

(** ** Uniqueness of names *)

(** Every writing handler keeps the store consistent, names unique among
    them. A write of [create_plant] or of the bulk import that would give
    two rows one name never surfaces as a failure of the UNIQUE index:
    [create_plant] replaces the stored row and the bulk import skips the
    record. *)
Theorem name_stays_unique :
  (forall now data db,
     consistent db -> consistent (create_plant now data db).2) /\
  (forall now plant_id data db,
     consistent db -> consistent (update_plant now plant_id data db).2) /\
  (forall clock data db,
     consistent db -> consistent (migrate_from_localstorage clock data db).2) /\
  (forall now data db c,
     (create_plant now data db).1 <> Failed (IntegrityError (Unique c))) /\
  (forall clock data db c,
     (migrate_from_localstorage clock data db).1
     <> Failed (IntegrityError (Unique c))).
Proof.
  split; [|split; [|split; [|split]]].
  - exact create_plant_consistent.
  - exact update_plant_consistent.
  - intros clock data db Hdb.
    destruct (migrate_store clock data db) as [-> | (batch & st & H & ->)].
    + exact Hdb.
    + eapply migrate_plants_consistent; [|exact H]. exact Hdb.
  - exact create_plant_no_unique.
  - intros clock data db c H.
    destruct (migrate_failure clock data db _ H) as [E|[E|E]]; discriminate E.
Qed.

(** C3. A PUT that gives a plant the name of another plant is not handled:
    [update_plant] has no handler for the violation of the UNIQUE index,
    which is what the caller is answered, and nothing is written. On the
    same collision [create_plant] answers 200 after it replaced the stored
    row, and the bulk import skips the record with "already exists". *)
Theorem rename_collision_surfaces :
  plants grove = [oak_row; elm_row] /\
  update_plant 4000 2 (JObj {["name" := JStr "oak"]}) grove
  = (Failed (IntegrityError (Unique "name")), grove) /\
  status (create_plant 4000 (JObj (<["name" := JStr "oak"]> fern_plain))
            grove).1 = 200 /\
  migrate_from_localstorage (fun _ => 4000)
    (JObj {["plants" := JArr [JObj oak]]}) grove
  = (Report 0 [AlreadyExists (JStr "oak")], grove).
Proof. repeat split; reflexivity. Qed.

(** The bulk import meets the same violation with a skip, not a merge. *)
Example import_does_not_merge :
  migrate_from_localstorage (fun _ => 3000)
    (JObj {["plants" := JArr [JObj fern_plain]]}) fern_store
  = (Report 0 [AlreadyExists (JStr "fern")], fern_store).
Proof. reflexivity. Qed.

Lemma name_stays_unique_witness :
  consistent fern_store /\
  consistent (create_plant 2000 (JObj fern_plain) fern_store).2.
Proof.
  split; [exact fern_store_consistent|].
  exact (proj1 name_stays_unique 2000 (JObj fern_plain) fern_store
           fern_store_consistent).
Defined.

(** ** Bulk import *)

Lemma import_values (now : Z) (m : gmap string json) (values : list sqlval) :
  bind_all (import_params now m) = inr values ->
  exists name timestamp v3 v4 v5 v6 v7 v8 v9 v10 v11 v12 v13 v14,
    values = [name; timestamp; v3; v4; v5; v6; v7; v8; v9; v10; v11; v12;
              v13; v14] /\
    bind (Py (default JNull (m !! "name"))) = inr name /\
    bind (import_timestamp now m) = inr timestamp.
Proof.
  unfold import_params. intros H.
  apply bind_all_inv in H as (name & ? & Hname & H & ->).
  apply bind_all_inv in H as (timestamp & ? & Hts & H & ->).
  repeat match goal with
         | H : bind_all (_ :: _) = inr _ |- _ =>
             apply bind_all_inv in H as (? & ? & _ & H & ->)
         end.
  apply bind_all_nil_inv in H as ->.
  do 14 eexists. split; [reflexivity|]. split; assumption.
Qed.

Lemma bind_all_total (ps : list param) :
  Forall (fun p => exists s, bind p = inr s) ps ->
  exists values, bind_all ps = inr values.
Proof.
  induction 1 as [|p ps [s Hs] _ [values IH]]; simpl; [eauto|].
  rewrite Hs, IH. simpl. eauto.
Qed.

(** C4 (amended). A record that passes the check of the required fields,
    whose values can all be stored and whose name is the name of a row
    already in the table, is skipped: the table and the count stay as they
    are and "already exists" is appended to the errors. Whatever the
    batch, the rows stored before the import are still there, unchanged,
    after it. *)
Theorem import_skips_existing :
  (forall now m st name sn r,
     import_accepts (JObj m) ->
     Forall (fun p => exists s, Sqlite.bind p = inr s) (import_params now m) ->
     m !! "name" = Some name -> Sqlite.bind (Py name) = inr sn ->
     In r (plants (conn st)) -> Sqlite.eqb (cell r "name") sn = true ->
     migrate_plant now (JObj m) st
     = inr (record_error st (AlreadyExists name))) /\
  (forall clock data db,
     exists added,
       plants (migrate_from_localstorage clock data db).2
       = plants db ++ added).
Proof.
  split.
  - intros now m st name sn r Hacc Hst Hname Hsn Hr Heq.
    rewrite migrate_plant_object, migrate_attempt_object.
    unfold import_accepts in Hacc. rewrite mapped_data_legacy in Hacc.
    cbn [try] in Hacc. rewrite all_present_legacy in Hacc.
    assert (Hvalid : forallb (fun f => negb (is_none (default JNull (m !! f))))
                       required_fields = true)
      by (injection Hacc; intros E; exact E).
    rewrite Hvalid. cbn [negb].
    destruct (bind_all_total _ Hst) as [values Hb].
    rewrite (insert_bound _ _ _ _ Hb).
    destruct (import_values now m values Hb)
      as (v1 & ts & v3 & v4 & v5 & v6 & v7 & v8 & v9 & v10 & v11 & v12
          & v13 & v14 & -> & Hv1 & _).
    rewrite Hname in Hv1 |- *.
    change (default JNull (Some name)) with name in Hv1 |- *.
    rewrite Hsn in Hv1. injection Hv1 as <-.
    destruct (not_null_violation _); [reflexivity|].
    rewrite new_row_name_taken.
    replace (existsb _ _) with true; [reflexivity|].
    symmetry. apply existsb_exists. eauto.
  - intros clock data db.
    destruct (migrate_store clock data db) as [-> | (batch & st & H & ->)].
    + exists []. now rewrite app_nil_r.
    + apply migrate_plants_grows in H. exact H.
Qed.

(** C4, as stated, fails on a record that has nothing but the name of a
    stored row: it is skipped, with "Missing required fields". A record
    with that name and a value the driver cannot bind is skipped with
    "Error processing plant". *)
Lemma duplicate_name_reported_otherwise :
  (exists r, In r (plants fern_store) /\ cell r "name" = SText "fern") /\
  migrate_from_localstorage (fun _ => 3000)
    (JObj {["plants" := JArr [JObj {["name" := JStr "fern"]}]]}) fern_store
  = (Report 0 [MissingFields (JStr "fern")], fern_store) /\
  migrate_from_localstorage (fun _ => 3000)
    (JObj {["plants" := JArr [JObj (<["angle" := JArr []]> fern_plain)]]})
    fern_store
  = (Report 0 [ProcessingError (JStr "fern") InterfaceError], fern_store).
Proof.
  split; [|split; reflexivity].
  exists fern_row. split; [|reflexivity].
  rewrite (proj1 fern_store_rows). now left.
Qed.

Lemma import_skips_existing_witness :
  migrate_plant 3000 (JObj fern_plain)
    {| conn := fern_store; migrated_count := 0; errors := [] |}
  = inr (record_error
           {| conn := fern_store; migrated_count := 0; errors := [] |}
           (AlreadyExists (JStr "fern"))).
Proof.
  apply (proj1 import_skips_existing 3000 fern_plain
           {| conn := fern_store; migrated_count := 0; errors := [] |}
           (JStr "fern") (SText "fern") fern_row).
  - reflexivity.
  - exact fern_plain_storable.
  - reflexivity.
  - reflexivity.
  - cbn [conn]. rewrite (proj1 fern_store_rows). now left.
  - reflexivity.
Defined.

(** The example of the specification: of two records named "fern" the
    first is migrated and the second skipped. *)
Example fern_twice :
  (migrate_from_localstorage (fun _ => 3000)
     (JObj {["plants" := JArr [JObj fern_custom; JObj fern_plain]]})
     empty_store).1
  = Report 1 [AlreadyExists (JStr "fern")].
Proof. reflexivity. Qed.

(** In a batch of dicts no record stops the loop: every failure becomes an
    entry of the error list and the import is answered with its report. *)
Lemma objects_are_isolated clock batch db :
  Forall (fun v => exists m, v = JObj m) batch ->
  exists count errs db',
    migrate_from_localstorage clock (JObj {["plants" := JArr batch]}) db
    = (Report count errs, db').
Proof.
  intros H. unfold migrate_from_localstorage.
  replace (truthy _) with true
    by (symmetry; eapply truthy_object; apply lookup_singleton_eq).
  cbn [negb].
  rewrite (contains_present _ _ (JArr batch)) by apply lookup_singleton_eq.
  cbn [try negb]. unfold getitem. rewrite lookup_singleton_eq.
  destruct (migrate_plants_objects clock 0 batch
              {| conn := db; migrated_count := 0; errors := [] |} H)
    as [st ->].
  eauto.
Qed.

(** C5. One element of the batch that is no dict makes the [except] clause
    of the loop raise: the import is answered 500 and the record stored
    before it is lost, although alone that record is migrated. *)
Theorem non_object_record_aborts_batch :
  migrate_from_localstorage (fun _ => 3000)
    (JObj {["plants" := JArr [JObj fern_custom; JInt 5]]}) empty_store
  = (Failed AttributeError, empty_store) /\
  (migrate_from_localstorage (fun _ => 3000)
     (JObj {["plants" := JArr [JObj fern_custom]]}) empty_store).1
  = Report 1 [].
Proof. split; reflexivity. Qed.

(** ** Validation of the required fields *)

Lemma create_accepts_object (m : gmap string json) :
  create_accepts (JObj m) <-> Forall (fun f => is_Some (m !! f)) required_fields.
Proof.
  unfold create_accepts. split.
  - rewrite first_missing_object. intros H0.
    assert (H : List.find (fun f => negb (bool_decide (is_Some (m !! f))))
                  required_fields = None)
      by (injection H0; intros E; exact E).
    apply List.Forall_forall. intros f Hf.
    apply (find_none _ _ H) in Hf.
    now apply negb_false_iff, bool_decide_eq_true in Hf.
  - apply first_missing_none.
Qed.

Lemma mapped_data_object (m : gmap string json) :
  exists mapped,
    mapped_data (JObj m) = inr (JObj mapped) /\
    (forall f, In f required_fields ->
               mapped !! f = Some (default JNull (m !! f))).
Proof.
  eexists. split; [reflexivity|].
  intros f Hf. unfold required_fields in Hf. simpl in Hf.
  repeat (destruct Hf as [<-|Hf]; [reflexivity|]). contradiction.
Qed.

Lemma all_present_object (mapped : gmap string json) (fields : list string) :
  all_present fields (JObj mapped) =
  inr (forallb (fun f => negb (is_none (default JNull (mapped !! f)))) fields).
Proof.
  induction fields as [|f fields IH]; simpl; [reflexivity|].
  destruct (is_none _); simpl; [reflexivity|exact IH].
Qed.

Lemma import_accepts_object (m : gmap string json) :
  import_accepts (JObj m) <->
  Forall (fun f => exists v, m !! f = Some v /\ v <> JNull) required_fields.
Proof.
  unfold import_accepts.
  destruct (mapped_data_object m) as (mapped & -> & Hmapped). cbn [try].
  rewrite all_present_object. split.
  - intros H0.
    assert (H : forallb (fun f => negb (is_none (default JNull (mapped !! f))))
                  required_fields = true)
      by (injection H0; intros E; exact E).
    apply List.Forall_forall. intros f Hf.
    rewrite forallb_forall in H. specialize (H f Hf).
    rewrite (Hmapped f Hf) in H. simpl in H.
    destruct (m !! f) as [v|]; simpl in H; [|discriminate].
    exists v. split; [reflexivity|]. intros ->. discriminate.
  - intros H. f_equal. apply forallb_forall. intros f Hf.
    rewrite List.Forall_forall in H. destruct (H f Hf) as (v & Hv & Hn).
    rewrite (Hmapped f Hf), Hv. simpl. now destruct v.
Qed.

Lemma import_accepts_is_object (record : json) :
  import_accepts record -> exists m, record = JObj m.
Proof.
  unfold import_accepts. destruct record; try discriminate. eauto.
Qed.

(** C6 (amended). The two checks read the same five fields. A record the
    check of the bulk import lets through is let through by the check of
    [create_plant], and on a record none of whose required fields is null
    the two checks agree. *)
Theorem import_validation_stricter (record : json) :
  (import_accepts record -> create_accepts record) /\
  (forall m, record = JObj m ->
     Forall (fun f => m !! f <> Some JNull) required_fields ->
     (import_accepts record <-> create_accepts record)).
Proof.
  assert (Himp : import_accepts record -> create_accepts record).
  { intros H. destruct (import_accepts_is_object record H) as [m ->].
    apply create_accepts_object. apply import_accepts_object in H.
    eapply List.Forall_impl; [|exact H]. intros f (v & -> & _). eauto. }
  split; [exact Himp|].
  intros m -> Hnull. split; [exact Himp|].
  rewrite create_accepts_object, import_accepts_object.
  rewrite !List.Forall_forall in *. intros H f Hf.
  destruct (H f Hf) as [v Hv]. exists v. split; [exact Hv|].
  intros ->. now apply (Hnull f Hf).
Qed.

(** C6, as stated, fails on a record whose axiom is null: [create_plant]
    lets it through and the bulk import does not. *)
Lemma null_axiom_splits_validations :
  create_accepts (JObj (<["axiom" := JNull]> fern_plain)) /\
  ~ import_accepts (JObj (<["axiom" := JNull]> fern_plain)).
Proof.
  split.
  - reflexivity.
  - unfold import_accepts. vm_compute. discriminate.
Qed.

Lemma import_validation_stricter_witness :
  import_accepts (JObj fern_plain) /\ create_accepts (JObj fern_plain).
Proof.
  assert (H : import_accepts (JObj fern_plain)) by reflexivity.
  split; [exact H|].
  exact (proj1 (import_validation_stricter (JObj fern_plain)) H).
Defined.

(** ** Timestamps *)



(** A record with the timestamp 5.0 is stored with the integer 5, whatever
    the clock reads. *)
Example float_timestamp_is_stored_as_integer :
  exists r,
    migrate_plant 3000 (JObj (<["timestamp" := JReal 5.0]> oak))
      {| conn := empty_store; migrated_count := 0; errors := [] |}
    = inr {| conn := {| plants := [r]; sequence := 1 |};
             migrated_count := 1; errors := [] |} /\
    cell r "timestamp" = SInt 5 /\ cell r "angle" = SReal 20.
Proof. eexists. repeat split; reflexivity. Qed.

(** ** listAll *)

(** C9 (amended). [get_plants] answers 200 with every stored row, each
    once, ordered by timestamp descending: no row is listed after a row
    with a greater timestamp, so of two stored rows the one with the
    strictly greater timestamp is listed first. *)
Theorem get_plants_newest_first (db : database) :
  exists rows,
    get_plants db = Resp 200 (JArr (map plant_json rows)) /\
    Permutation rows (plants db) /\
    StronglySorted Sqlite.newer_first rows /\
    (forall a b, In a (plants db) -> In b (plants db) ->
       Sqlite.compare (cell b "timestamp") (cell a "timestamp") = Gt ->
       before b a rows).
Proof.
  exists (order_by_timestamp_desc (plants db)).
  split; [reflexivity|]. split; [apply order_perm|].
  split; [apply order_sorted|].
  intros a b Ha Hb Hgt. apply sorted_before; [apply order_sorted| | |exact Hgt].
  - eapply Permutation_in; [symmetry; apply order_perm|exact Ha].
  - eapply Permutation_in; [symmetry; apply order_perm|exact Hb].
Qed.

(** C9, as stated, fails after an import of [oak] and then [elm]: [elm]
    was inserted after [oak] and is listed after it. *)
Lemma later_insert_listed_last :
  plants grove = [oak_row; elm_row] /\
  get_plants grove = Resp 200 (JArr [plant_json oak_row; plant_json elm_row]) /\
  ~ before elm_row oak_row (Sqlite.order_by_timestamp_desc (plants grove)).
Proof.
  assert (Hrows : plants grove = [oak_row; elm_row])
    by reflexivity.
  assert (Hsorted : order_by_timestamp_desc [oak_row; elm_row]
                    = [oak_row; elm_row]) by reflexivity.
  split; [exact Hrows|]. split.
  - unfold get_plants. now rewrite Hrows, Hsorted.
  - rewrite Hrows, Hsorted. intros (l1 & l2 & l3 & H).
    assert (Hlen : length (l1 ++ elm_row :: l2 ++ oak_row :: l3) = 2%nat)
      by now rewrite <- H.
    rewrite length_app in Hlen. cbn [length] in Hlen.
    rewrite length_app in Hlen. cbn [length] in Hlen.
    destruct l1 as [|x l1]; [|simpl in Hlen; lia].
    apply (f_equal (fun l => match l with
                             | r :: _ => cell r "name"
                             | [] => SNull
                             end)) in H.
    discriminate H.
Qed.

(** * Further properties *)

Import SampleFacts LookupFacts AnswerFacts.

(** ** Reading one plant *)

(** X1. In a consistent store, [get_plant] with an id that fits 64 bits
    answers 200 with the row that carries the id, and 404 "Plant not found"
    when no row carries it. *)
Theorem get_plant_by_id (db : database) (plant_id : Z) :
  consistent db -> Sqlite.int64 plant_id = true ->
  (forall r, In r (plants db) -> cell r "id" = SInt plant_id ->
     get_plant plant_id db = Resp 200 (plant_json r)) /\
  ((forall r, In r (plants db) -> cell r "id" <> SInt plant_id) ->
   get_plant plant_id db = Resp 404 (error "Plant not found")).
Proof.
  intros Hdb Hfit. unfold get_plant, fetch_by_route_id, select.
  cbn [bind_condition]. rewrite (bind_route_id _ Hfit). cbn [try].
  split.
  - intros r Hr Hid.
    destruct (select_id db plant_id r Hdb Hr Hid) as (l1 & l2 & _ & -> & _).
    reflexivity.
  - intros Hno. rewrite filter_none; [reflexivity|].
    intros r Hr. apply not_true_iff_false. intros Hm.
    apply (id_matches db r plant_id Hdb Hr) in Hm. now apply (Hno r Hr).
Qed.

Lemma get_plant_by_id_witness :
  consistent fern_store /\
  get_plant 1 fern_store = Resp 200 (plant_json fern_row) /\
  get_plant 2 fern_store = Resp 404 (error "Plant not found").
Proof.
  split; [exact fern_store_consistent|]. split.
  - apply (get_plant_by_id fern_store 1 fern_store_consistent eq_refl).
    + rewrite (proj1 fern_store_rows). now left.
    + reflexivity.
  - apply (get_plant_by_id fern_store 2 fern_store_consistent eq_refl).
    intros r Hr. rewrite (proj1 fern_store_rows) in Hr.
    destruct Hr as [<-|[]]. discriminate.
Defined.

(** X2. An id of the route that does not fit 64 bits is answered 500 by
    [get_plant] and by [delete_plant], whatever the store holds: the driver
    refuses to bind it before any row is looked at. *)
Theorem id_beyond_64_bits (db : database) (plant_id : Z) :
  Sqlite.int64 plant_id = false ->
  get_plant plant_id db = Failed OverflowError /\
  delete_plant plant_id db = (Answer (Failed OverflowError), db).
Proof.
  intros Hbig. unfold get_plant, delete_plant, fetch_by_route_id, select.
  cbn [bind_condition]. rewrite (bind_route_id_overflow _ Hbig).
  split; reflexivity.
Qed.

Lemma id_beyond_64_bits_witness :
  get_plant (2 ^ 63) fern_store = Failed OverflowError /\
  delete_plant (2 ^ 63) fern_store = (Answer (Failed OverflowError), fern_store).
Proof. apply (id_beyond_64_bits fern_store (2 ^ 63)). reflexivity. Defined.

(** X3. In a consistent store, [get_plant_by_name] answers 200 with the row
    whose name is the string of the route, and 404 "Plant not found" when
    every row has another string for its name. *)
Theorem get_plant_by_its_name (db : database) (name : string) :
  consistent db ->
  (forall r, In r (plants db) -> cell r "name" = SText name ->
     get_plant_by_name name db = Resp 200 (plant_json r)) /\
  ((forall r, In r (plants db) ->
      exists s, cell r "name" = SText s /\ s <> name) ->
   get_plant_by_name name db = Resp 404 (error "Plant not found")).
Proof.
  intros Hdb. unfold get_plant_by_name, fetch_by_route_name, select.
  cbn [bind_condition]. rewrite bind_route_name. cbn [try].
  split.
  - intros r Hr Hn.
    destruct (select_name db name r Hdb Hr Hn) as (l1 & l2 & _ & -> & _).
    reflexivity.
  - intros Hno. rewrite filter_none; [reflexivity|].
    intros r Hr. apply not_true_iff_false. intros Hm.
    apply name_matches in Hm. destruct (Hno r Hr) as (s & Hs & Hne).
    congruence.
Qed.

Lemma get_plant_by_its_name_witness :
  consistent fern_store /\
  get_plant_by_name "fern" fern_store = Resp 200 (plant_json fern_row) /\
  get_plant_by_name "oak" fern_store = Resp 404 (error "Plant not found").
Proof.
  split; [exact fern_store_consistent|]. split.
  - apply (get_plant_by_its_name fern_store "fern" fern_store_consistent).
    + rewrite (proj1 fern_store_rows). now left.
    + reflexivity.
  - apply (get_plant_by_its_name fern_store "oak" fern_store_consistent).
    intros r Hr. rewrite (proj1 fern_store_rows) in Hr.
    destruct Hr as [<-|[]]. exists "fern". split; [reflexivity|discriminate].
Defined.

(** X4. The plant [get_plant] or [get_plant_by_name] answers with is one of
    the plants [get_plants] lists. *)
Theorem found_plant_is_listed (db : database) (plant_id : Z) (name : string)
    (body : json) :
  get_plant plant_id db = Resp 200 body \/
  get_plant_by_name name db = Resp 200 body ->
  exists listed, get_plants db = Resp 200 (JArr listed) /\ In body listed.
Proof.
  intros H. eexists. split; [reflexivity|].
  assert (Hr : exists r, In r (plants db) /\ body = plant_json r).
  { destruct H as [H|H]; revert H;
      unfold get_plant, get_plant_by_name, fetch_by_route_id,
        fetch_by_route_name, select;
      destruct (bind_condition _) as [e|matches]; cbn [try found];
      try discriminate;
      destruct (fetchone _) as [r|] eqn:Hf; try discriminate;
      intros [= <-]; exists r; (split; [|reflexivity]);
      now apply head_filter_in in Hf. }
  destruct Hr as (r & Hr & ->). apply in_map.
  apply (Permutation_in _ (Permutation_sym (order_perm _))). exact Hr.
Qed.

Lemma found_plant_is_listed_witness :
  exists listed,
    get_plants fern_store = Resp 200 (JArr listed) /\
    In (plant_json fern_row) listed.
Proof.
  apply (found_plant_is_listed fern_store 1 "fern" (plant_json fern_row)).
  left. reflexivity.
Defined.

(** ** Deleting a plant *)

(** X5. In a consistent store, [delete_plant] with the id of a stored row
    removes that row and no other, keeps the order of the rest and the
    counter of the ids, and answers with the name the row had. *)
Theorem delete_plant_removes_the_row (db : database) (plant_id : Z) (r : row) :
  consistent db -> Sqlite.int64 plant_id = true ->
  In r (plants db) -> cell r "id" = SInt plant_id ->
  exists l1 l2,
    plants db = l1 ++ r :: l2 /\
    delete_plant plant_id db
    = (Deleted (to_json (cell r "name")),
       {| plants := l1 ++ l2; sequence := sequence db |}).
Proof.
  intros Hdb Hfit Hr Hid.
  destruct (select_id db plant_id r Hdb Hr Hid) as (l1 & l2 & E & Hs & Hd).
  exists l1, l2. split; [exact E|].
  unfold delete_plant, fetch_by_route_id, select, delete_from.
  cbn [bind_condition]. rewrite (bind_route_id _ Hfit). cbn [try].
  rewrite Hs, Hd. reflexivity.
Qed.

Lemma delete_plant_removes_the_row_witness :
  consistent fern_store /\
  exists l1 l2,
    plants fern_store = l1 ++ fern_row :: l2 /\
    delete_plant 1 fern_store
    = (Deleted (to_json (cell fern_row "name")),
       {| plants := l1 ++ l2; sequence := sequence fern_store |}).
Proof.
  split; [exact fern_store_consistent|].
  apply (delete_plant_removes_the_row fern_store 1 fern_row
           fern_store_consistent eq_refl).
  - rewrite (proj1 fern_store_rows). now left.
  - reflexivity.
Defined.

(** X6. In a consistent store, [delete_plant_by_name] with the name of a
    stored row removes that row and no other, keeps the order of the rest
    and the counter of the ids, and answers with the name. *)
Theorem delete_plant_by_name_removes_the_row (db : database) (name : string)
    (r : row) :
  consistent db -> In r (plants db) -> cell r "name" = SText name ->
  exists l1 l2,
    plants db = l1 ++ r :: l2 /\
    delete_plant_by_name name db
    = (Deleted (JStr name),
       {| plants := l1 ++ l2; sequence := sequence db |}).
Proof.
  intros Hdb Hr Hn.
  destruct (select_name db name r Hdb Hr Hn) as (l1 & l2 & E & Hs & Hd).
  exists l1, l2. split; [exact E|].
  unfold delete_plant_by_name, fetch_by_route_name, select, delete_from.
  cbn [bind_condition]. rewrite bind_route_name. cbn [try].
  rewrite Hs, Hd. reflexivity.
Qed.

Lemma delete_plant_by_name_removes_the_row_witness :
  consistent grove /\
  exists l1 l2,
    plants grove = l1 ++ elm_row :: l2 /\
    delete_plant_by_name "elm" grove
    = (Deleted (JStr "elm"),
       {| plants := l1 ++ l2; sequence := sequence grove |}).
Proof.
  split; [exact grove_consistent|].
  apply (delete_plant_by_name_removes_the_row grove "elm" elm_row
           grove_consistent).
  - rewrite (proj1 grove_rows). right. now left.
  - reflexivity.
Defined.

(** X7. For an id no row carries, [delete_plant] and [update_plant] answer
    404 "Plant not found" and leave the store as it is; so does
    [delete_plant_by_name] for a name no row has. *)
Theorem absent_plant_not_found (db : database) :
  consistent db ->
  (forall plant_id,
     Sqlite.int64 plant_id = true ->
     (forall r, In r (plants db) -> cell r "id" <> SInt plant_id) ->
     delete_plant plant_id db
     = (Answer (Resp 404 (error "Plant not found")), db) /\
     forall now data,
       truthy data = true ->
       update_plant now plant_id data db
       = (Resp 404 (error "Plant not found"), db)) /\
  (forall name,
     (forall r, In r (plants db) ->
        exists s, cell r "name" = SText s /\ s <> name) ->
     delete_plant_by_name name db
     = (Answer (Resp 404 (error "Plant not found")), db)).
Proof.
  intros Hdb. split.
  - intros plant_id Hfit Hno.
    assert (Hnone : List.filter (fun a => eqb (cell a "id") (SInt plant_id))
                      (plants db) = []).
    { apply filter_none. intros r Hr. apply not_true_iff_false. intros Hm.
      apply (id_matches db r plant_id Hdb Hr) in Hm. now apply (Hno r Hr). }
    split.
    + unfold delete_plant, fetch_by_route_id, select.
      cbn [bind_condition]. rewrite (bind_route_id _ Hfit). cbn [try].
      now rewrite Hnone.
    + intros now data Ht. unfold update_plant, fetch_by_id, select.
      rewrite Ht. cbn [negb bind_condition]. rewrite bind_int64. cbn [try].
      now rewrite Hnone.
  - intros name Hno.
    unfold delete_plant_by_name, fetch_by_route_name, select.
    cbn [bind_condition]. rewrite bind_route_name. cbn [try].
    rewrite filter_none; [reflexivity|].
    intros r Hr. apply not_true_iff_false. intros Hm.
    apply name_matches in Hm. destruct (Hno r Hr) as (s & Hs & Hne).
    congruence.
Qed.

Lemma absent_plant_not_found_witness :
  consistent fern_store /\
  delete_plant 2 fern_store
  = (Answer (Resp 404 (error "Plant not found")), fern_store) /\
  update_plant 2000 2 (JObj fern_plain) fern_store
  = (Resp 404 (error "Plant not found"), fern_store) /\
  delete_plant_by_name "oak" fern_store
  = (Answer (Resp 404 (error "Plant not found")), fern_store).
Proof.
  split; [exact fern_store_consistent|].
  destruct (absent_plant_not_found fern_store fern_store_consistent)
    as [Hid Hname].
  destruct (Hid 2 eq_refl) as [Hdel Hupd].
  { intros r Hr. rewrite (proj1 fern_store_rows) in Hr.
    destruct Hr as [<-|[]]. discriminate. }
  split; [exact Hdel|]. split.
  - apply Hupd. reflexivity.
  - apply Hname. intros r Hr. rewrite (proj1 fern_store_rows) in Hr.
    destruct Hr as [<-|[]]. exists "fern". split; [reflexivity|discriminate].
Defined.

(** X8. Once [delete_plant_by_name] has deleted a name, the store has no
    plant of that name: [get_plant_by_name] and a second
    [delete_plant_by_name] answer 404, and the counter of the ids is where
    it was. *)
Theorem deleted_name_is_gone (db db' : database) (name : string) (n : json) :
  delete_plant_by_name name db = (Deleted n, db') ->
  n = JStr name /\
  sequence db' = sequence db /\
  get_plant_by_name name db' = Resp 404 (error "Plant not found") /\
  delete_plant_by_name name db'
  = (Answer (Resp 404 (error "Plant not found")), db').
Proof.
  unfold delete_plant_by_name, get_plant_by_name, fetch_by_route_name,
    select, delete_from.
  cbn [bind_condition]. rewrite bind_route_name. cbn [try].
  destruct (fetchone _) as [r|]; [|discriminate].
  intros [= <- <-]. cbn [plants sequence].
  assert (Hnone : List.filter (fun a => eqb (cell a "name") (SText name))
                    (List.filter (fun a => negb (eqb (cell a "name") (SText name)))
                       (plants db)) = []).
  { apply filter_none. intros a Ha. apply filter_In in Ha as [_ Ha].
    now apply negb_true_iff in Ha. }
  rewrite Hnone. repeat split.
Qed.

Lemma deleted_name_is_gone_witness :
  exists db',
    delete_plant_by_name "fern" fern_store = (Deleted (JStr "fern"), db') /\
    get_plant_by_name "fern" db' = Resp 404 (error "Plant not found").
Proof.
  eexists. split; [reflexivity|].
  eapply (deleted_name_is_gone fern_store _ "fern" (JStr "fern")).
  reflexivity.
Defined.

(** ** Sequences of requests *)

Import TraceFacts.

(** X9. Whatever requests are served one after the other, a consistent
    store stays consistent: the NOT NULL columns are filled, the ids are
    distinct and within the counter, and no two rows share a name. The
    deleting handlers keep it so as the writing ones do. *)
Theorem requests_keep_consistency (reqs : list request) (db : database) :
  consistent db -> consistent (run reqs db).
Proof. apply run_invariant. intros req db0. apply serve_consistent. Qed.

Lemma requests_keep_consistency_witness :
  consistent
    (run [CreatePlant 2000 (JObj fern_plain); DeletePlantByName "fern";
          Migrate (fun _ => 3000) (JObj {["plants" := JArr [JObj oak]]});
          DeletePlant 2]
       fern_store).
Proof.
  apply (requests_keep_consistency _ fern_store). exact fern_store_consistent.
Defined.

(** X10. The id of a plant that [delete_plant] has deleted is never given
    out again: whatever requests follow, no row carries it and [get_plant]
    answers 404 for it. *)
Theorem deleted_id_never_returns (db db' : database) (plant_id : Z)
    (n : json) (reqs : list request) :
  consistent db ->
  delete_plant plant_id db = (Deleted n, db') ->
  (forall r, In r (plants (run reqs db')) -> cell r "id" <> SInt plant_id) /\
  get_plant plant_id (run reqs db') = Resp 404 (error "Plant not found").
Proof.
  intros Hdb Hdel.
  apply (delete_plant_inv plant_id db n db' Hdb) in Hdel
    as (Hfit & (r & Hr & Hid & _) & ->).
  set (db' := {| plants := _; sequence := _ |}).
  assert (Hinv : consistent db' /\ retired plant_id db').
  { split; [now apply filter_consistent|]. split; cbn [plants sequence].
    - destruct (numbered db Hdb r Hr) as (i & Hi & Hle).
      rewrite Hid in Hi. injection Hi as <-. exact Hle.
    - intros a Ha. apply filter_In in Ha as [Ha Hn].
      apply negb_true_iff in Hn. intros E.
      apply (id_matches db a plant_id Hdb Ha) in E. congruence. }
  apply (run_invariant (fun d => consistent d /\ retired plant_id d))
    with (reqs := reqs) in Hinv.
  - destruct Hinv as [Hc [_ Hno]]. split; [exact Hno|].
    unfold get_plant. now rewrite fetch_by_route_id_none.
  - intros req d [Hc Hret]. split;
      [now apply serve_consistent|now apply serve_retired].
Qed.

Lemma deleted_id_never_returns_witness :
  consistent fern_store /\
  get_plant 1
    (run [CreatePlant 2000 (JObj fern_plain)]
       {| plants := []; sequence := 1 |})
  = Resp 404 (error "Plant not found").
Proof.
  split; [exact fern_store_consistent|].
  apply (deleted_id_never_returns fern_store {| plants := []; sequence := 1 |}
           1 (JStr "fern") [CreatePlant 2000 (JObj fern_plain)]
           fern_store_consistent).
  reflexivity.
Defined.

(** ** Creating a plant *)

(** X11. A body whose required fields have values for their columns that
    do not bind to NULL and whose optional fields, where it gives them,
    have values for their columns, sent with a name that no row has, is
    answered 201 with a new row appended to the table under the next id of
    the counter: it has the name and the required values of the body as
    their columns store them, the timestamp [now], and in every optional
    column the value of the body or, where the body omits it, the declared
    default. *)
Theorem create_makes_new_plant (now : Z) (m : gmap string json)
    (db : database) (name : string) :
  complete m ->
  m !! "name" = Some (JStr name) ->
  (forall r, In r (plants db) ->
     exists s, cell r "name" = SText s /\ s <> name) ->
  exists r,
    create_plant now (JObj m) db
    = (Resp 201 (plant_json r),
       {| plants := plants db ++ [r]; sequence := sequence db + 1 |}) /\
    fresh_row now (sequence db + 1) m r.
Proof.
  intros Hc Hv Hfree.
  destruct (complete_required m Hc)
    as (vn & va & vr & vi & vg & sn & sa & sr & si & sg
        & (Hln & Hla & Hlr & Hli & Hlg) & (Hbn & Hba & Hbr & Hbi & Hbg)
        & (Nn & Na & Nr & Ni & Ng)).
  pose proof (complete_optional m Hc) as Ho. simpl in Ho.
  repeat match goal with
         | H : Forall _ (_ :: _) |- _ => apply Forall_cons_1 in H as [? H]
         end.
  repeat match goal with
         | H : exists s, _ /\ _ |- _ =>
             let s := fresh "o" in let Hb := fresh "Hbo" in let Hm := fresh "Hdo" in
             destruct H as (s & Hb & Hm)
         end.
  cbn [fst snd] in *.
  rewrite Hln in Hv. inversion Hv; subst vn. clear Hv Ho.
  pose proof (bind_string _ _ Hbn) as ->.
  unfold create_plant. rewrite (truthy_object m _ _ Hln). simpl negb. cbv iota.
  rewrite first_missing_none
    by (unfold required_fields; repeat constructor; eauto).
  unfold create_insert. simpl getitem. rewrite Hln. cbn [try].
  rewrite (create_values_object m va vr vi vg) by assumption. cbn [try].
  unfold optional_values. cbn [map app snd].
  erewrite insert_bound
    by (repeat (apply bind_all_cons; [first [eassumption|reflexivity]|]); reflexivity).
  rewrite new_row_not_null. cbn [first_null].
  rewrite !is_null_false by (assumption || discriminate).
  rewrite new_row_name_taken.
  assert (Hnone : forall a, In a (plants db) ->
                    eqb (cell a "name") (SText name) = false).
  { intros a Ha. apply not_true_iff_false. intros Hm.
    apply name_matches in Hm. destruct (Hfree a Ha) as (s & Hs & Hne).
    congruence. }
  assert (Ht : existsb (fun r' => eqb (cell r' "name") (SText name)) (plants db)
               = false).
  { apply not_true_iff_false. intros H. apply existsb_exists in H as (a & Ha & Hm).
    rewrite (Hnone a Ha) in Hm. discriminate Hm. }
  rewrite Ht. clear Ht.
  match goal with
  | |- context [plants db ++ [?x]] => set (r := x)
  end.
  assert (Hcells : cell r "name" = SText name) by reflexivity.
  exists r. split.
  - unfold after_commit, fetch_by_name. simpl getitem. rewrite Hln. cbn [try].
    unfold select. cbn [bind_condition]. rewrite Hbn.
    cbn [try plants].
    rewrite List.filter_app, (filter_none _ _ Hnone). cbn [List.filter app].
    rewrite Hcells, (eqb_refl (SText name)) by discriminate.
    reflexivity.
  - unfold fresh_row, required_fields, optional_fields, holds.
    split; [reflexivity|]. split; [reflexivity|]. split.
    + repeat constructor; eexists; (split; [eassumption|]);
        eexists; (split; [eassumption|reflexivity]).
    + repeat constructor; cbn [fst snd];
        match goal with
        | H : match m !! ?k with _ => _ end
          |- match m !! ?k with _ => _ end =>
            revert H; destruct (m !! k); intros H;
            [eexists; split; [exact H|reflexivity]|exact H]
        end.
Qed.

Lemma create_makes_new_plant_witness :
  complete fern_plain /\
  exists r,
    create_plant 1000 (JObj fern_plain) empty_store
    = (Resp 201 (plant_json r),
       {| plants := plants empty_store ++ [r];
          sequence := sequence empty_store + 1 |}) /\
    fresh_row 1000 (sequence empty_store + 1) fern_plain r.
Proof.
  split; [exact fern_plain_complete|].
  apply (create_makes_new_plant 1000 fern_plain empty_store "fern"
           fern_plain_complete).
  - reflexivity.
  - intros r [].
Defined.

(** X12. What a write answers with can be read back. In a consistent
    store, the plant [create_plant] answers with, created or replaced, is
    what [get_plant] then answers for its id and what [get_plant_by_name]
    answers for the name of the body, when that is a string. The plant
    [update_plant] answers with is what [get_plant] then answers for the
    id of the route. *)
Theorem written_plant_can_be_read :
  (forall now data db code body db',
     consistent db ->
     create_plant now data db = (Resp code body, db') -> code <> 400 ->
     exists r plant_id,
       In r (plants db') /\ body = plant_json r /\
       cell r "id" = SInt plant_id /\
       (Sqlite.int64 plant_id = true ->
        get_plant plant_id db' = Resp 200 body) /\
       (forall name, getitem data "name" = inr (JStr name) ->
          get_plant_by_name name db' = Resp 200 body)) /\
  (forall now plant_id data db body db',
     update_plant now plant_id data db = (Resp 200 body, db') ->
     Sqlite.int64 plant_id = true ->
     get_plant plant_id db' = Resp 200 body).
Proof.
  split.
  - intros now data db code body db' Hdb Hc Hcode.
    assert (Hdb' : consistent db').
    { change db' with (Resp code body, db').2. rewrite <- Hc.
      now apply create_plant_consistent. }
    destruct (create_plant_fetched _ _ _ _ _ _ Hc Hcode)
      as (latest & r & Hf & ->).
    apply fetch_by_name_found in Hf as [Hr Hname].
    destruct (numbered db' Hdb' r Hr) as (i & Hi & _).
    exists r, i. split; [exact Hr|]. split; [reflexivity|].
    split; [exact Hi|]. split.
    + intros Hfit. now apply get_plant_found.
    + intros name Hn. apply get_plant_by_name_found; auto.
  - intros now plant_id data db body db' Hu Hfit. revert Hu.
    unfold update_plant. destruct (truthy data); cbn [negb]; [|discriminate].
    destruct (fetch_by_id plant_id db) as [e|[r0|]]; try discriminate.
    destruct (let* set := update_set now data in _) as [e|db1];
      [discriminate|].
    unfold after_commit, get_plant, fetch_by_route_id, fetch_by_id, select.
    cbn [bind_condition]. rewrite bind_int64, (bind_route_id _ Hfit).
    cbn [try].
    destruct (fetchone _) as [r|] eqn:Hf; cbn [respond]; [|discriminate].
    intros [= <- <-]. now rewrite Hf.
Qed.

Lemma written_plant_can_be_read_witness :
  consistent empty_store /\
  exists r plant_id,
    In r (plants fern_store) /\ plant_json fern_row = plant_json r /\
    cell r "id" = SInt plant_id /\
    (Sqlite.int64 plant_id = true ->
     get_plant plant_id fern_store = Resp 200 (plant_json fern_row)) /\
    (forall name, getitem (JObj fern_custom) "name" = inr (JStr name) ->
       get_plant_by_name name fern_store = Resp 200 (plant_json fern_row)).
Proof.
  assert (He : consistent empty_store).
  { split; cbn [plants sequence empty_store].
    - intros r [].
    - intros r [].
    - constructor.
    - intros r r' []. }
  split; [exact He|].
  apply (proj1 written_plant_can_be_read 1000 (JObj fern_custom) empty_store
           201 (plant_json fern_row) fern_store He).
  - reflexivity.
  - discriminate.
Defined.

(** X13. A write that is not answered 200 or 201 has written nothing:
    whatever [create_plant] answers with another status, and whatever
    [update_plant] answers with a status other than 200, the store is the
    store it found. In particular the row a handler fetches after its
    commit is always there. *)
Theorem failed_write_changes_nothing (now : Z) (data : json) (db : database) :
  (status (create_plant now data db).1 <> 200 ->
   status (create_plant now data db).1 <> 201 ->
   (create_plant now data db).2 = db) /\
  (forall plant_id,
     status (update_plant now plant_id data db).1 <> 200 ->
     (update_plant now plant_id data db).2 = db).
Proof.
  split.
  - intros H200 H201.
    destruct (create_plant_atomic now data db) as [H|[H|H]]; tauto.
  - intros plant_id H200.
    destruct (update_plant_atomic now plant_id data db) as [H|H]; tauto.
Qed.

Lemma failed_write_changes_nothing_witness :
  (create_plant 2000 (JObj (<["axiom" := JNull]> fern_plain)) fern_store).2
  = fern_store /\
  (update_plant 3000 1 (JObj {["thickness" := JArr []]}) fern_store).2
  = fern_store.
Proof.
  assert (Ec : create_plant 2000 (JObj (<["axiom" := JNull]> fern_plain))
                 fern_store
               = (Failed (IntegrityError (NotNull "axiom")), fern_store))
    by reflexivity.
  assert (Eu : update_plant 3000 1 (JObj {["thickness" := JArr []]}) fern_store
               = (Failed InterfaceError, fern_store))
    by reflexivity.
  split.
  - apply (proj1 (failed_write_changes_nothing 2000
                    (JObj (<["axiom" := JNull]> fern_plain)) fern_store));
      rewrite Ec; discriminate.
  - apply (proj2 (failed_write_changes_nothing 3000
                    (JObj {["thickness" := JArr []]}) fern_store) 1).
    rewrite Eu. discriminate.
Defined.

(** X14. A body that holds every required field, with storable values but
    null for one of axiom, rules, iterations or angle, and whose name no
    row has, is answered 500 with a [TypeError], and nothing is written:
    the INSERT fails on the NOT NULL column, the handler takes the failure
    for a name that exists, its UPDATE meets no row, and the row it then
    fetches to answer with is [None]. *)
Theorem null_field_of_a_new_plant (now : Z) (m : gmap string json)
    (db : database) (name field : string) :
  Forall (fun f => exists v, m !! f = Some v /\ storable v) required_fields ->
  Forall (fun ck => forall v, m !! ck.2 = Some v -> storable v)
    optional_fields ->
  m !! "name" = Some (JStr name) ->
  In field ["axiom"; "rules"; "iterations"; "angle"] ->
  m !! field = Some JNull ->
  (forall r, In r (plants db) ->
     exists s, cell r "name" = SText s /\ s <> name) ->
  create_plant now (JObj m) db = (Failed TypeError, db).
Proof.
  intros Hreq Hopt Hln Hfield Hnull Hfree.
  assert (Hr : forall f, In f required_fields ->
                 exists v s, m !! f = Some v /\ bind (Py v) = inr s).
  { intros f Hf. destruct (proj1 (List.Forall_forall _ _) Hreq f Hf)
      as (v & Hv & (s & Hs)). eauto. }
  assert (Ho : forall k d s0, In k (map snd optional_fields) ->
                 bind (Py d) = inr s0 ->
                 exists s, bind (Py (default d (m !! k))) = inr s).
  { intros k d s0 Hk Hd. apply in_map_iff in Hk as ([c k'] & <- & Hk).
    destruct (bind_optional m k' d s0) as (s & Hs & _); eauto.
    exact (proj1 (List.Forall_forall _ _) Hopt (c, k') Hk). }
  destruct (Hr "name") as (vn & sn & Hln' & Hbn); [simpl; auto 10|].
  rewrite Hln in Hln'. injection Hln' as <-.
  pose proof (bind_string _ _ Hbn) as ->.
  destruct (Hr "axiom") as (va & sa & Hla & Hba); [simpl; auto 10|].
  destruct (Hr "rules") as (vr & sr & Hlr & Hbr); [simpl; auto 10|].
  destruct (Hr "iterations") as (vi & si & Hli & Hbi); [simpl; auto 10|].
  destruct (Hr "angle") as (vg & sg & Hlg & Hbg); [simpl; auto 10|].
  destruct (Ho "angleVariation" (JInt 0) (SInt 0)) as (o1 & Hbo1);
    [simpl; auto 10|reflexivity|].
  destruct (Ho "lengthVariation" (JInt 0) (SInt 0)) as (o2 & Hbo2);
    [simpl; auto 10|reflexivity|].
  destruct (Ho "lengthTapering" (JReal 1.0) (SReal 1.0)) as (o3 & Hbo3);
    [simpl; auto 10|reflexivity|].
  destruct (Ho "leafProbability" (JInt 0) (SInt 0)) as (o4 & Hbo4);
    [simpl; auto 10|reflexivity|].
  destruct (Ho "leafGenerationThreshold" (JInt 0) (SInt 0)) as (o5 & Hbo5);
    [simpl; auto 10|reflexivity|].
  destruct (Ho "length" (JReal 1.0) (SReal 1.0)) as (o6 & Hbo6);
    [simpl; auto 10|reflexivity|].
  destruct (Ho "thickness" (JReal 0.1) (SReal 0.1)) as (o7 & Hbo7);
    [simpl; auto 10|reflexivity|].
  destruct (Ho "tapering" (JReal 0.8) (SReal 0.8)) as (o8 & Hbo8);
    [simpl; auto 10|reflexivity|].
  clear Hr Ho Hreq Hopt.
  assert (Hnone : forall a, In a (plants db) ->
                    eqb (cell a "name") (SText name) = false).
  { intros a Ha. apply not_true_iff_false. intros Hm.
    apply name_matches in Hm. destruct (Hfree a Ha) as (s' & Hs & Hne).
    congruence. }
  unfold create_plant. rewrite (truthy_object m _ _ Hln). simpl negb. cbv iota.
  rewrite first_missing_none
    by (unfold required_fields; repeat constructor; eauto).
  unfold create_insert. simpl getitem. rewrite Hln. cbn [try].
  erewrite create_values_object by eassumption. cbn [try].
  unfold optional_values. cbn [map app snd].
  erewrite insert_bound
    by (repeat (apply bind_all_cons; [first [eassumption|reflexivity]|]); reflexivity).
  rewrite new_row_not_null.
  match goal with
  | |- context [first_null ?cells] => destruct (first_null cells) as [c|] eqn:Hfn
  end.
  2:{ exfalso.
      assert (Hsn : forall v s, m !! field = Some v -> bind (Py v) = inr s ->
                      s = SNull).
      { intros v s Hv Hb. rewrite Hnull in Hv. injection Hv as <-.
        unfold bind in Hb. now injection Hb. }
      destruct Hfield as [<-|[<-|[<-|[<-|[]]]]].
      - apply (first_null_none_inv _ "axiom" sa Hfn); [simpl; auto 10|eauto].
      - apply (first_null_none_inv _ "rules" sr Hfn); [simpl; auto 10|eauto].
      - apply (first_null_none_inv _ "iterations" si Hfn);
          [simpl; auto 10|eauto].
      - apply (first_null_none_inv _ "angle" sg Hfn); [simpl; auto 10|eauto]. }
  unfold create_update.
  erewrite create_values_object by eassumption. cbn [try].
  simpl getitem. rewrite Hln. cbn [try].
  unfold optional_values. cbn [map app fst snd].
  erewrite update_bound;
    [|repeat (apply bind_set_param; [first [eassumption|reflexivity]|]); reflexivity
     |cbn [bind_condition]; rewrite Hbn; reflexivity].
  rewrite (filter_none _ (plants db) Hnone). cbn [map].
  rewrite omap_nil by (intros x []).
  replace (existsb (String.eqb "name") _) with false by reflexivity.
  cbn [andb]. cbv iota beta.
  unfold after_commit, fetch_by_name. simpl getitem. rewrite Hln. cbn [try].
  unfold select. cbn [bind_condition]. rewrite Hbn.
  cbn [try plants].
  rewrite map_rewritten_none by (apply filter_none; exact Hnone).
  rewrite (filter_none _ (plants db) Hnone). cbn [fetchone head respond].
  now destruct db.
Qed.

Lemma null_field_of_a_new_plant_witness :
  create_plant 2000 (JObj (<["axiom" := JNull]> oak)) fern_store
  = (Failed TypeError, fern_store).
Proof.
  apply (null_field_of_a_new_plant 2000 (<["axiom" := JNull]> oak) fern_store
           "oak" "axiom").
  - unfold required_fields.
    repeat (constructor;
            [eexists; split; [reflexivity|]; eexists; reflexivity|]).
    constructor.
  - unfold optional_fields.
    repeat (constructor; [intros v Hv; vm_compute in Hv; discriminate Hv|]).
    constructor.
  - reflexivity.
  - now left.
  - reflexivity.
  - intros r Hr. rewrite (proj1 fern_store_rows) in Hr.
    destruct Hr as [<-|[]]. exists "fern". split; [reflexivity|discriminate].
Defined.

(** ** The bulk import *)

Import BatchFacts.

(** X15. A bulk import that is answered with its report has accounted for
    every record of the batch: each record either added one row at the end
    of the table, counted in [migrated_count], or added one entry to the
    errors, never both and never neither; the rows that were there are
    still there, and the counter of the ids has advanced by the count. *)
Theorem import_accounts_for_every_record (clock : nat -> Z) (data : json)
    (db db' : database) (count : Z) (errs : list import_error) :
  migrate_from_localstorage clock data db = (Report count errs, db') ->
  exists batch added,
    getitem data "plants" = inr (JArr batch) /\
    plants db' = plants db ++ added /\
    count = Z.of_nat (length added) /\
    sequence db' = sequence db + count /\
    (length added + length errs)%nat = length batch.
Proof.
  unfold migrate_from_localstorage.
  destruct (if negb (truthy data) then _ else _) as [e|[|]]; try discriminate.
  destruct (getitem data "plants") as [e|v]; [discriminate|].
  destruct v; try discriminate.
  destruct (migrate_plants _ _ _ _) as [e|st] eqn:H; [discriminate|].
  intros [= <- <- <-].
  apply migrate_plants_accounting in H
    as (added & reported & Hp & He & Hc & Hs & Hl).
  cbn [conn migrated_count errors app] in *.
  exists l, added. rewrite He. split; [reflexivity|]. split; [exact Hp|].
  repeat split; lia.
Qed.

Lemma import_accounts_for_every_record_witness :
  exists batch added,
    getitem (JObj {["plants" := JArr [JObj fern_custom; JObj fern_plain]]})
      "plants" = inr (JArr batch) /\
    plants fern_store = plants empty_store ++ added /\
    1 = Z.of_nat (length added) /\
    sequence fern_store = sequence empty_store + 1 /\
    (length added + length [AlreadyExists (JStr "fern")])%nat = length batch.
Proof.
  apply (import_accounts_for_every_record (fun _ => 1000)
           (JObj {["plants" := JArr [JObj fern_custom; JObj fern_plain]]})
           empty_store fern_store 1 [AlreadyExists (JStr "fern")]).
  reflexivity.
Defined.

(** X16. Importing a batch a second time adds nothing: after a bulk import
    that was answered with its report, the same request, at whatever time,
    is answered with a count of 0 and one error for every record of the
    batch, and leaves the store as the first import left it. *)
Theorem import_twice_adds_nothing (clock clock' : nat -> Z) (data : json)
    (db db' : database) (count : Z) (errs : list import_error) :
  migrate_from_localstorage clock data db = (Report count errs, db') ->
  exists errs',
    migrate_from_localstorage clock' data db' = (Report 0 errs', db') /\
    Z.of_nat (length errs') = count + Z.of_nat (length errs).
Proof.
  unfold migrate_from_localstorage.
  destruct (if negb (truthy data) then _ else _) as [e|[|]]; try discriminate.
  destruct (getitem data "plants") as [e|v]; [discriminate|].
  destruct v; try discriminate.
  destruct (migrate_plants clock _ _ _) as [e|st] eqn:H; [discriminate|].
  intros [= <- <- <-].
  destruct (migrate_plants_again clock clock' 0%nat 0%nat l _ st
              {| conn := conn st; migrated_count := 0; errors := [] |} H)
    as (reported & -> & Hl).
  { cbn [conn]. apply incl_refl. }
  cbn [conn migrated_count errors app]. exists reported.
  split; [reflexivity|].
  apply migrate_plants_accounting in H
    as (added & reported0 & _ & He & Hc & _ & Hl0).
  cbn [conn migrated_count errors app] in *. rewrite He. lia.
Qed.

Lemma import_twice_adds_nothing_witness :
  exists errs',
    migrate_from_localstorage (fun _ => 5000)
      (JObj {["plants" := JArr [JObj oak; JObj elm]]}) grove
    = (Report 0 errs', grove) /\
    Z.of_nat (length errs') = 2 + Z.of_nat (length (@nil import_error)).
Proof.
  apply (import_twice_adds_nothing (fun _ => 3000) (fun _ => 5000)
           (JObj {["plants" := JArr [JObj oak; JObj elm]]}) empty_store grove
           2 []).
  reflexivity.
Defined.

(** X17. The bulk import reads fourteen keys of a record and no other: two
    records that agree on them are treated alike. The threshold of the
    leaves is read from "leafThreshold"; what a record holds under
    "leafGenerationThreshold", the key of [create_plant], is ignored. *)
Theorem import_reads_legacy_keys (now : Z) (m m' : gmap string json)
    (st : progress) :
  (forall k, In k legacy_keys -> m !! k = m' !! k) ->
  migrate_plant now (JObj m) st = migrate_plant now (JObj m') st.
Proof.
  intros H. rewrite !migrate_plant_object, !migrate_attempt_object.
  unfold import_params, import_timestamp, required_fields.
  cbn [forallb].
  rewrite !(H "name"), !(H "timestamp"), !(H "axiom"), !(H "rules"),
    !(H "iterations"), !(H "angle"), !(H "angleVariation"),
    !(H "lengthVariation"), !(H "lengthTapering"), !(H "leafProbability"),
    !(H "leafThreshold"), !(H "length"), !(H "thickness"), !(H "tapering")
    by (simpl; auto 20).
  reflexivity.
Qed.

Lemma import_reads_legacy_keys_witness :
  migrate_plant 3000 (JObj fern_plain)
    {| conn := empty_store; migrated_count := 0; errors := [] |}
  = migrate_plant 3000 (JObj (<["leafGenerationThreshold" := JInt 3]> fern_plain))
      {| conn := empty_store; migrated_count := 0; errors := [] |}.
Proof.
  apply (import_reads_legacy_keys 3000 fern_plain
           (<["leafGenerationThreshold" := JInt 3]> fern_plain)).
  intros k Hk. rewrite lookup_insert_ne; [reflexivity|].
  intros <-. unfold legacy_keys in Hk.
  repeat (destruct Hk as [Hk|Hk]; [discriminate Hk|]). destruct Hk.
Defined.

(** ** The command-line importer *)

Import CliFacts.

(** X18. The importer of [migrate.py] checks the required fields as
    [create_plant] does, by presence: the field [create_plant] reports as
    missing is the first of the fields the importer lists as missing, the
    two checks raise on the same values, and a record passes one exactly
    when it passes the other. *)
Theorem importer_validates_as_create (data : json) :
  first_missing required_fields data
  = (let* missing := missing_fields required_fields data in
     inr (head missing)) /\
  (create_accepts data <-> missing_fields required_fields data = inr []).
Proof.
  split; [apply first_missing_head|].
  unfold create_accepts. rewrite first_missing_head.
  destruct (missing_fields required_fields data) as [e|[|f l]]; cbn [try head];
    split; intros H; try reflexivity; discriminate H.
Qed.

Lemma importer_validates_as_create_witness :
  create_accepts (JObj (<["axiom" := JNull]> fern_plain)) /\
  missing_fields required_fields (JObj (<["axiom" := JNull]> fern_plain))
  = inr [].
Proof.
  assert (H : create_accepts (JObj (<["axiom" := JNull]> fern_plain)))
    by reflexivity.
  split; [exact H|].
  apply (proj1 (proj2 (importer_validates_as_create
                         (JObj (<["axiom" := JNull]> fern_plain))))).
  exact H.
Defined.






(** ** The ids and the listing *)

Import ListingFacts.

(** X22. The ids of the rows are immutable. Whatever [update_plant] is
    sent, the table has the same ids in the same places afterwards and the
    counter is where it was; whatever [create_plant] is sent, either that
    holds as well, or one row was added at the end under the next id of
    the counter. *)
Theorem writes_keep_the_ids (now : Z) (data : json) (db : database) :
  (forall plant_id,
     map (fun r => cell r "id") (plants (update_plant now plant_id data db).2)
     = map (fun r => cell r "id") (plants db) /\
     sequence (update_plant now plant_id data db).2 = sequence db) /\
  ((map (fun r => cell r "id") (plants (create_plant now data db).2)
    = map (fun r => cell r "id") (plants db) /\
    sequence (create_plant now data db).2 = sequence db) \/
   (map (fun r => cell r "id") (plants (create_plant now data db).2)
    = map (fun r => cell r "id") (plants db) ++ [SInt (sequence db + 1)] /\
    sequence (create_plant now data db).2 = sequence db + 1)).
Proof.
  split.
  - intros plant_id. apply update_plant_ids.
  - apply create_plant_ids.
Qed.

(** X23. A plant written at a time later than every stored timestamp heads
    the listing: in a consistent store whose timestamps are integers below
    [now], the plant [create_plant] answers with at [now], created or
    replaced, and the plant [update_plant] answers 200 with at [now], is the
    first entry of what [get_plants] then answers. *)
Theorem written_plant_heads_the_listing (now : Z) (data : json)
    (db db' : database) (code : Z) (body : json) :
  consistent db ->
  (forall r, In r (plants db) ->
     exists t, cell r "timestamp" = SInt t /\ t < now) ->
  (create_plant now data db = (Resp code body, db') /\ code <> 400) \/
  (exists plant_id,
     update_plant now plant_id data db = (Resp code body, db') /\ code = 200) ->
  exists rest, get_plants db' = Resp 200 (JArr (body :: rest)).
Proof.
  intros Hdb Hold [[Hc Hcode]|(plant_id & Hu & Hcode)].
  - assert (Hdb' : consistent db').
    { change db' with (Resp code body, db').2. rewrite <- Hc.
      now apply create_plant_consistent. }
    destruct (create_plant_written _ _ _ _ _ _ Hc Hcode)
      as (r & vn & v & -> & Hr & Hts & Hn & Hv & Hm).
    apply (newest_heads_listing db' r now Hr Hts).
    intros r' Hr'.
    assert (Hrows := create_plant_rows now data db vn v r' Hn Hv).
    rewrite Hc in Hrows. destruct (Hrows Hr') as [Hin|Hm'].
    + right. now apply Hold.
    + left. apply (same_id_same_row db' r' r Hdb' Hr' Hr).
      apply (distinct_names db' Hdb' r' r Hr' Hr).
      apply (eqb_trans _ v); [exact Hm'|]. now rewrite eqb_sym.
  - assert (Hdb' : consistent db').
    { change db' with (Resp code body, db').2. rewrite <- Hu.
      now apply update_plant_consistent. }
    destruct (update_plant_answer _ _ _ _ _ _ _ Hu Hcode)
      as (r & Hr & -> & Hm & Hts).
    apply (newest_heads_listing db' r now Hr Hts).
    intros r' Hr'.
    assert (Hrows := update_plant_rows now plant_id data db r').
    rewrite Hu in Hrows. destruct (Hrows Hr') as [Hin|Hm'].
    + right. now apply Hold.
    + left. apply (same_id_same_row db' r' r Hdb' Hr' Hr).
      apply (id_matches db' r' plant_id Hdb' Hr') in Hm'.
      apply (id_matches db' r plant_id Hdb' Hr) in Hm. congruence.
Qed.

Lemma written_plant_heads_the_listing_witness :
  consistent grove /\
  exists rest,
    get_plants (create_plant 4000 (JObj fern_plain) grove).2
    = Resp 200
        (JArr (plant_json
                 (Sqlite.new_row 3 insert_columns
                    [SText "fern"; SInt 4000; SText "F"; SText "F"; SInt 1;
                     SInt 10; SInt 0; SInt 0; SReal 1.0; SInt 0; SInt 0;
                     SReal 1.0; SReal 0.1; SReal 0.8]) :: rest)).
Proof.
  split; [exact grove_consistent|].
  apply (written_plant_heads_the_listing 4000 (JObj fern_plain) grove _ 201 _
           grove_consistent).
  - intros r Hr. rewrite (proj1 grove_rows) in Hr.
    destruct Hr as [<-|[<-|[]]]; [exists 2000|exists 1000];
      (split; [reflexivity|lia]).
  - left. split; [reflexivity|discriminate].
Defined.

(** ** Renaming a plant *)

(** X24. A PUT that gives a plant the name of another plant is answered
    500 with the violation of the UNIQUE index and writes nothing:
    [update_plant] has no handler for it, unlike [create_plant]. *)
Theorem rename_to_taken_name_fails (now plant_id : Z) (m : gmap string json)
    (db : database) (name : string) (r r' : row) :
  consistent db ->
  Forall (fun ck => forall v, m !! ck.2 = Some v -> storable v)
    updatable_fields ->
  m !! "name" = Some (JStr name) ->
  In r (plants db) -> cell r "id" = SInt plant_id ->
  In r' (plants db) -> cell r' "name" = SText name ->
  cell r' "id" <> SInt plant_id ->
  update_plant now plant_id (JObj m) db
  = (Failed (IntegrityError (Unique "name")), db).
Proof.
  intros Hdb Hst Hname Hr Hid Hr' Hn' Hid'.
  assert (Hg : forall k, In k (map snd updatable_fields) ->
                 exists s, bind (Py (default JNull (m !! k))) = inr s).
  { intros k Hk. apply in_map_iff in Hk as ([c k'] & <- & Hk).
    destruct (bind_given m k') as (s & Hs & _); eauto.
    exact (proj1 (List.Forall_forall _ _) Hst (c, k') Hk). }
  destruct (Hg "name") as [sn Hbn]; [simpl; auto 20|].
  destruct (Hg "axiom") as [sa Hba]; [simpl; auto 20|].
  destruct (Hg "rules") as [sr Hbr]; [simpl; auto 20|].
  destruct (Hg "iterations") as [si Hbi]; [simpl; auto 20|].
  destruct (Hg "angle") as [sg Hbg]; [simpl; auto 20|].
  destruct (Hg "angleVariation") as [o1 Hbo1]; [simpl; auto 20|].
  destruct (Hg "lengthVariation") as [o2 Hbo2]; [simpl; auto 20|].
  destruct (Hg "lengthTapering") as [o3 Hbo3]; [simpl; auto 20|].
  destruct (Hg "leafProbability") as [o4 Hbo4]; [simpl; auto 20|].
  destruct (Hg "leafGenerationThreshold") as [o5 Hbo5]; [simpl; auto 20|].
  destruct (Hg "length") as [o6 Hbo6]; [simpl; auto 20|].
  destruct (Hg "thickness") as [o7 Hbo7]; [simpl; auto 20|].
  destruct (Hg "tapering") as [o8 Hbo8]; [simpl; auto 20|].
  clear Hg Hst.
  assert (Esn : sn = SText name).
  { rewrite Hname in Hbn. exact (bind_string _ _ Hbn). }
  unfold update_plant.
  rewrite (truthy_object m _ _ Hname). cbn [negb]. cbv iota.
  unfold fetch_by_id, select. cbn [bind_condition]. rewrite bind_int64.
  cbn [try].
  set (matches := fun a : row => eqb (cell a "id") (SInt plant_id)).
  assert (Hm : matches r = true)
    by (unfold matches; rewrite Hid; now apply eqb_int).
  destruct (filter_head_in matches (plants db) r Hr Hm) as [r1 Hr1].
  unfold fetchone at 1. rewrite Hr1.
  rewrite update_set_object. cbn [try].
  erewrite update_bound;
    [|repeat (first [apply bind_set_coalesce|apply bind_set_param];
              [first [eassumption|reflexivity]|]); reflexivity
     |reflexivity].
  fold matches.
  set (fs := (("name", _) :: _) : list (string * (row -> sqlval))).
  assert (Hset : forall a,
    cell (assign fs a) "id" = cell a "id" /\
    cell (assign fs a) "timestamp" = SInt now /\
    cell (assign fs a) "name" = coalesce sn (cell a "name") /\
    cell (assign fs a) "axiom" = coalesce sa (cell a "axiom") /\
    cell (assign fs a) "rules" = coalesce sr (cell a "rules") /\
    cell (assign fs a) "iterations"
    = stored "iterations" (coalesce si (cell a "iterations")) /\
    cell (assign fs a) "angle" = stored "angle" (coalesce sg (cell a "angle")))
    by (intros a; rewrite !cell_assign; repeat split; reflexivity).
  rewrite omap_nil.
  2:{ intros x Hx. apply in_map_iff in Hx as (a & <- & Ha).
      apply filter_In in Ha as [Ha Hma].
      pose proof (filled db Hdb a Ha) as Hf. rewrite not_null_cells in Hf.
      rewrite not_null_cells.
      destruct (Hset a) as (_ & -> & -> & -> & -> & -> & ->).
      cbn [first_null]. rewrite !is_null_stored.
      rewrite !is_null_false; try reflexivity; try discriminate;
        apply coalesce_not_null;
        (eapply first_null_none_inv; [exact Hf|]); simpl; tauto. }
  replace (existsb (String.eqb "name") _) with true by reflexivity.
  cbn [andb].
  assert (Hclash : existsb
                     (fun w => name_clash w
                                 (map (rewritten matches fs) (plants db)))
                     (map (assign fs) (List.filter matches (plants db)))
                   = true).
  { apply existsb_exists. exists (assign fs r). split.
    - apply in_map, filter_In. auto.
    - unfold name_clash. apply existsb_exists. exists r'. split.
      + apply in_map_iff. exists r'. split; [|exact Hr'].
        unfold rewritten. replace (matches r') with false; [reflexivity|].
        symmetry. apply not_true_iff_false. intros E.
        apply (id_matches db r' plant_id Hdb Hr') in E. contradiction.
      + destruct (Hset r) as (-> & _ & -> & _). rewrite Hid, Hn', Esn.
        cbn [coalesce]. rewrite (eqb_refl (SText name)) by discriminate.
        rewrite andb_true_r. apply negb_true_iff, not_true_iff_false.
        intros E. apply (id_matches db r' plant_id Hdb Hr') in E.
        contradiction. }
  rewrite Hclash. reflexivity.
Qed.

Lemma rename_to_taken_name_fails_witness :
  consistent grove /\
  update_plant 4000 2 (JObj {["name" := JStr "oak"]}) grove
  = (Failed (IntegrityError (Unique "name")), grove).
Proof.
  split; [exact grove_consistent|].
  apply (rename_to_taken_name_fails 4000 2 {["name" := JStr "oak"]} grove
           "oak" elm_row oak_row grove_consistent).
  - unfold updatable_fields, optional_fields. cbn [app].
    repeat (constructor;
            [intros v Hv; vm_compute in Hv;
             first [discriminate Hv
                   |injection Hv as <-; eexists; reflexivity]|]).
    constructor.
  - reflexivity.
  - rewrite (proj1 grove_rows). right. now left.
  - reflexivity.
  - rewrite (proj1 grove_rows). now left.
  - reflexivity.
  - discriminate.
Defined.

(** ** A record the bulk import takes *)

(** X25. A record whose required fields have values for their columns
    that do not bind to NULL, whose optional fields and timestamp, where it
    brings them, have values for their columns, the timestamp one that does
    not bind to NULL, and whose name no row has, is migrated: one row is
    appended to the table under the next id of the counter, with the values
    of the record as their columns store them, its timestamp or else the
    clock reading, and the declared defaults where the record has no value
    under the legacy key; the count goes up by one and no error is
    added. *)
Theorem import_migrates_new_record (now : Z) (m : gmap string json)
    (st : progress) (name : string) :
  Forall (fun f => exists v, m !! f = Some v /\ suits f v /\
                     Sqlite.bind (Py v) <> inr SNull)
    required_fields ->
  Forall (fun ck => forall v, m !! ck.2 = Some v -> suits ck.1 v)
    legacy_fields ->
  (forall t, m !! "timestamp" = Some t ->
     suits "timestamp" t /\ Sqlite.bind (Py t) <> inr SNull) ->
  m !! "name" = Some (JStr name) ->
  (forall r, In r (plants (conn st)) ->
     exists s, cell r "name" = SText s /\ s <> name) ->
  exists r,
    migrate_plant now (JObj m) st
    = inr {| conn := {| plants := plants (conn st) ++ [r];
                        sequence := sequence (conn st) + 1 |};
             migrated_count := migrated_count st + 1;
             errors := errors st |} /\
    imported_row now (sequence (conn st) + 1) m r.
Proof.
  intros Hreq Hopt Hts Hname Hfree.
  assert (Hr : forall f, In f required_fields ->
                 exists v s, m !! f = Some v /\ bind (Py v) = inr s
                             /\ is_null s = false /\ is_none v = false).
  { intros f Hf. destruct (proj1 (List.Forall_forall _ _) Hreq f Hf)
      as (v & Hv & (s & Hs & _) & Hnn).
    exists v, s. repeat split; auto.
    - destruct s; try reflexivity. contradiction.
    - destruct v; try reflexivity. exfalso. now apply Hnn. }
  assert (Ho : forall k d s0, In k (map snd legacy_fields) ->
                 bind (Py d) = inr s0 ->
                 exists s, bind (Py (default d (m !! k))) = inr s /\
                   match m !! k with
                   | Some v => bind (Py v) = inr s
                   | None => s = s0
                   end).
  { intros k d s0 Hk Hd. apply in_map_iff in Hk as ([c k'] & <- & Hk).
    apply bind_optional; [|exact Hd].
    intros v Hv. apply (suits_storable c).
    exact (proj1 (List.Forall_forall _ _) Hopt (c, k') Hk v Hv). }
  destruct (Hr "name") as (vn & sn & Hln & Hbn & Nn & In_);
    [simpl; auto 10|].
  destruct (Hr "axiom") as (va & sa & Hla & Hba & Na & Ia); [simpl; auto 10|].
  destruct (Hr "rules") as (vr & sr & Hlr & Hbr & Nr & Ir); [simpl; auto 10|].
  destruct (Hr "iterations") as (vi & si & Hli & Hbi & Ni & Ii);
    [simpl; auto 10|].
  destruct (Hr "angle") as (vg & sg & Hlg & Hbg & Ng & Ig); [simpl; auto 10|].
  destruct (Ho "angleVariation" (JInt 0) (SInt 0)) as (o1 & Hbo1 & Hd1);
    [simpl; auto 10|reflexivity|].
  destruct (Ho "lengthVariation" (JInt 0) (SInt 0)) as (o2 & Hbo2 & Hd2);
    [simpl; auto 10|reflexivity|].
  destruct (Ho "lengthTapering" (JReal 1.0) (SReal 1.0)) as (o3 & Hbo3 & Hd3);
    [simpl; auto 10|reflexivity|].
  destruct (Ho "leafProbability" (JInt 0) (SInt 0)) as (o4 & Hbo4 & Hd4);
    [simpl; auto 10|reflexivity|].
  destruct (Ho "leafThreshold" (JInt 0) (SInt 0)) as (o5 & Hbo5 & Hd5);
    [simpl; auto 10|reflexivity|].
  destruct (Ho "length" (JReal 1.0) (SReal 1.0)) as (o6 & Hbo6 & Hd6);
    [simpl; auto 10|reflexivity|].
  destruct (Ho "thickness" (JReal 0.1) (SReal 0.1)) as (o7 & Hbo7 & Hd7);
    [simpl; auto 10|reflexivity|].
  destruct (Ho "tapering" (JReal 0.8) (SReal 0.8)) as (o8 & Hbo8 & Hd8);
    [simpl; auto 10|reflexivity|].
  clear Hr Ho Hreq Hopt.
  rewrite Hname in Hln. injection Hln as <-.
  pose proof (bind_string _ _ Hbn) as ->.
  assert (Ht : exists t, bind (import_timestamp now m) = inr t /\
                 is_null t = false /\
                 match m !! "timestamp" with
                 | Some v => bind (Py v) = inr t
                 | None => t = SInt now
                 end).
  { unfold import_timestamp. destruct (m !! "timestamp") as [v|] eqn:E.
    - destruct (Hts v eq_refl) as [(t & Hbt & _) Hnn]. exists t.
      split; [exact Hbt|]. split; [|exact Hbt].
      destruct t; try reflexivity. contradiction.
    - exists (SInt now). rewrite bind_int64. auto. }
  destruct Ht as (t & Hbt & Nt & Hdt).
  assert (Hnone : forall a, In a (plants (conn st)) ->
                    eqb (cell a "name") (SText name) = false).
  { intros a Ha. apply not_true_iff_false. intros Hm.
    apply name_matches in Hm. destruct (Hfree a Ha) as (s' & Hs & Hne).
    congruence. }
  rewrite migrate_plant_object, migrate_attempt_object.
  unfold required_fields. cbn [forallb].
  rewrite Hname, Hla, Hlr, Hli, Hlg. cbn [default from_option id].
  rewrite Ia, Ii, Ig, Ir. cbn [is_none negb andb]. cbv iota.
  unfold import_params. rewrite Hname, Hla, Hlr, Hli, Hlg.
  cbn [default from_option id].
  erewrite insert_bound
    by (repeat (apply bind_all_cons; [first [eassumption|reflexivity]|]); reflexivity).
  rewrite new_row_not_null. cbn [first_null].
  rewrite Nt, Na, Nr, Ni, Ng. cbn [is_null].
  rewrite new_row_name_taken.
  replace (existsb _ (plants (conn st))) with false.
  2:{ symmetry. apply not_true_iff_false. intros H.
      apply existsb_exists in H as (a & Ha & Hm).
      rewrite (Hnone a Ha) in Hm. discriminate Hm. }
  eexists. split; [reflexivity|].
  unfold imported_row, required_fields, legacy_fields, holds.
  split; [reflexivity|]. split; [|split].
  - revert Hdt. destruct (m !! "timestamp"); intros Hdt.
    + eexists. split; [exact Hdt|reflexivity].
    + now subst t.
  - repeat constructor; eexists; (split; [eassumption|]);
      eexists; (split; [eassumption|reflexivity]).
  - repeat constructor; cbn [fst snd];
      match goal with
      | H : match m !! ?k with _ => _ end
        |- match m !! ?k with _ => _ end =>
          revert H; destruct (m !! k); intros H;
          [eexists; split; [exact H|reflexivity]|now subst]
      end.
Qed.

Lemma import_migrates_new_record_witness :
  exists r,
    migrate_plant 3000 (JObj oak)
      {| conn := fern_store; migrated_count := 0; errors := [] |}
    = inr {| conn := {| plants := plants fern_store ++ [r];
                        sequence := sequence fern_store + 1 |};
             migrated_count := 0 + 1;
             errors := [] |} /\
    imported_row 3000 (sequence fern_store + 1) oak r.
Proof.
  apply (import_migrates_new_record 3000 oak
           {| conn := fern_store; migrated_count := 0; errors := [] |} "oak").
  - unfold required_fields.
    repeat (constructor;
            [eexists; split; [reflexivity|split];
             [eexists; split; reflexivity
             |intros H; vm_compute in H; discriminate H]|]).
    constructor.
  - unfold legacy_fields.
    repeat (constructor; [intros v Hv; vm_compute in Hv; discriminate Hv|]).
    constructor.
  - intros t Ht. vm_compute in Ht. injection Ht as <-.
    split; [eexists; split; reflexivity|].
    intros H. vm_compute in H. discriminate H.
  - reflexivity.
  - cbn [conn]. intros r Hr. rewrite (proj1 fern_store_rows) in Hr.
    destruct Hr as [<-|[]]. exists "fern". split; [reflexivity|discriminate].
Defined.
